(** * Expense Tracker backend: the authentication and session-token lifecycle

    A shallow embedding of
      backend/middleware/authMiddleware.js  (token issuer, blacklist, session
                                             middleware, refresh endpoint),
      backend/models/User.js                (credential record, lockout
                                             bookkeeping, JSON serialisation),
      backend/controllers/authController.js (register, login, getUser, logout,
                                             logout-all, change-password),
      backend/routes/authRoutes.js          (the chain behind POST /logout),
      backend/middleware/validation.js      (the date-range check),
    followed by the properties of the specification that concern them and by
    further properties of the same code.

    Conventions.
    - Time is [Date.now()], an integer number of milliseconds; every handler
      reads the clock once per request.
    - [crypto.randomUUID()] and the ObjectId generator are inputs of the
      functions that draw from them.
    - Strings are ASCII text: the length of a string, the number of its
      UTF-16 code units and the number of its UTF-8 bytes are one number.
    - A Mongoose document is a JavaScript object: a finite map from path names
      to values.  [updateOne] applies MongoDB update operators to the stored
      document and runs no validators; [save] runs the schema's validators on
      the document in memory, then the pre-save hook, then writes the paths
      that were assigned since the document was loaded.
    - Three kinds of exception are followed into the [catch] block of the
      handler they end: the ValidationError of a [save], the CastError of a
      [findById] whose argument is not an ObjectId, and the rejection of
      [bcrypt.compare] when its second argument is [undefined].  The state the
      handler has reached by then stays as it is.  The database is taken to
      answer; unique indexes are left out.
    - [passwordHistory.passwordHash] is [select: false], and a loaded document
      carries its password history without the hashes.  The other two
      [select: false] fields of array elements ([refreshTokens.tokenHash],
      [backupCodes.code]) are never read from a loaded document and are kept
      as they are stored.  The [updatedAt] path that [timestamps: true] has
      every write refresh is left out. *)

From Stdlib Require Import ZArith QArith Ascii String List Bool Lia.
From stdpp Require Import base option list gmap strings fin_maps pretty.
Import ListNotations.

#[local] Open Scope string_scope.
#[local] Open Scope Z_scope.

(** ** JavaScript odds and ends *)

Module Js.

(** [s || d] on strings: the empty string is falsy. *)
Definition strOr (s : option string) (d : string) : string :=
  match s with
  | Some v => if decide (v = "") then d else v
  | None => d
  end.

(** [parseInt(x) || d]: [None] stands for [NaN]; zero is falsy too. *)
Definition numOr (n : option Z) (d : Z) : Z :=
  match n with
  | Some v => if decide (v = 0) then d else v
  | None => d
  end.

(** [Math.ceil (a / b)] for a positive divisor. *)
Definition ceilDiv (a b : Z) : Z := - ((- a) / b).

(** [arr.slice(-n)]: the last [n] elements. *)
Definition sliceLast {A} (n : Z) (l : list A) : list A :=
  drop (Z.to_nat (Z.of_nat (length l) - n)) l.

(** A [Set] keeps its elements in insertion order, and adding a member that is
    already present leaves the order alone. *)
Definition setAdd {A} `{EqDecision A} (x : A) (s : list A) : list A :=
  if decide (x ∈ s) then s else (s ++ [x])%list.

Definition setHas {A} `{EqDecision A} (x : A) (s : list A) : bool :=
  bool_decide (x ∈ s).

(** [s.toLowerCase()] on the ASCII letters. *)
Definition lowerAscii (c : ascii) : ascii :=
  let n := N_of_ascii c in
  if ((65 <=? n) && (n <=? 90))%N then ascii_of_N (n + 32) else c.

Fixpoint toLowerCase (s : string) : string :=
  match s with
  | EmptyString => EmptyString
  | String c rest => String (lowerAscii c) (toLowerCase rest)
  end.

(** The character classes of the regular expressions: [\s], [\d] or
    [[0-9]], [[a-zA-Z]] and [[0-9a-fA-F]]. *)
Definition isSpace (c : ascii) : bool :=
  let n := N_of_ascii c in
  (((9 <=? n) && (n <=? 13)) || (n =? 32))%N.

Definition isDigit (c : ascii) : bool :=
  let n := N_of_ascii c in ((48 <=? n) && (n <=? 57))%N.

Definition isLetter (c : ascii) : bool :=
  let n := N_of_ascii c in
  (((65 <=? n) && (n <=? 90)) || ((97 <=? n) && (n <=? 122)))%N.

Definition isHexDigit (c : ascii) : bool :=
  let n := N_of_ascii c in
  (isDigit c || ((65 <=? n) && (n <=? 70)) || ((97 <=? n) && (n <=? 102)))%N.

Definition chars (s : string) : list ascii := list_ascii_of_string s.

(** [s.length] *)
Definition len (s : string) : Z := Z.of_nat (String.length s).

(** [s.trim()]: white space removed at both ends. *)
Fixpoint trimStart (s : string) : string :=
  match s with
  | EmptyString => EmptyString
  | String c rest => if isSpace c then trimStart rest else s
  end.

Definition trim (s : string) : string :=
  String.rev (trimStart (String.rev (trimStart s))).

(** [s.split(sep)] for a separator of one character. *)
Fixpoint split (sep : ascii) (s : string) : list string :=
  match s with
  | EmptyString => [EmptyString]
  | String c rest =>
      if Ascii.eqb c sep then EmptyString :: split sep rest
      else match split sep rest with
           | x :: xs => String c x :: xs
           | [] => [String c EmptyString]
           end
  end.

(** [s.startsWith(p)], with what follows the prefix. *)
Fixpoint after (p s : string) : option string :=
  match p, s with
  | EmptyString, _ => Some s
  | String a p', String b s' => if Ascii.eqb a b then after p' s' else None
  | String _ _, EmptyString => None
  end.

(** An object literal; a property whose value is [undefined] is left out when
    the object is serialised. *)
Definition object {V} (props : list (string * option V)) : gmap string V :=
  list_to_map (omap (λ kv, (λ v, (kv.1, v)) <$> kv.2) props).

End Js.

(** ** process.env *)

Record Env := mkEnv {
  JWT_SECRET : option string;
  JWT_REFRESH_SECRET : option string;
  JWT_EXPIRES_IN : option Z;          (* the span it denotes, in seconds *)
  JWT_REFRESH_EXPIRES_IN : option Z;  (* the span it denotes, in seconds *)
  JWT_REFRESH_EXPIRES_IN_digits : option Z;  (* parseInt of its digits, if any *)
  JWT_ISSUER : option string;
  JWT_AUDIENCE : option string;
  MAX_LOGIN_ATTEMPTS : option Z;      (* parseInt of the variable *)
  LOCKOUT_TIME_MINUTES : option Z     (* parseInt of the variable *)
}.

Definition noEnv : Env := mkEnv None None None None None None None None None.

(** ** jsonwebtoken *)

Module Jwt.

Record Claims := mkClaims {
  tok_id : string;
  tok_email : string;
  tok_role : option string;
  tok_tokenType : string;
  tok_iat : Z;
  tok_exp : Z;
  tok_iss : string;
  tok_aud : string;
  tok_jti : string
}.

(** A bearer string is either some text that does not parse as a JWT, or a
    payload together with the secret its signature was computed with. *)
Inductive Token :=
| NotJwt (raw : string)
| Signed (secret : string) (payload : Claims).

#[export] Instance Claims_eq_dec : EqDecision Claims.
Proof. solve_decision. Defined.

#[export] Instance Token_eq_dec : EqDecision Token.
Proof. solve_decision. Defined.

Inductive JwtError := JsonWebTokenError | TokenExpiredError | NotBeforeError.

(** [if (token)]: only the empty string is a falsy string. *)
Definition truthy (t : Token) : bool :=
  match t with
  | NotJwt raw => negb (bool_decide (raw = ""))
  | Signed _ _ => true
  end.

(** [jwt.sign(payload, secret, {expiresIn, issuer, audience})]. *)
Definition sign (id email : string) (role : option string) (tokenType : string)
    (iat : Z) (jti : string) (secret : string) (expiresIn : Z)
    (issuer audience : string) : Token :=
  Signed secret
    (mkClaims id email role tokenType iat (iat + expiresIn) issuer audience jti).

(** [jwt.decode(token)]: no verification at all. *)
Definition decode (t : Token) : option Claims :=
  match t with
  | NotJwt _ => None
  | Signed _ c => Some c
  end.

(** [jwt.verify(token, secret, {issuer, audience})] at clock [now] (ms): the
    library checks, in this order, the format, the signature, the expiry
    ([floor(now/1000) >= exp] is expired), the audience and the issuer.  The
    issuer never writes a not-before claim, so [NotBeforeError] is not
    raised. *)
Definition verify (now : Z) (t : Token) (secret issuer audience : string)
    : JwtError + Claims :=
  match t with
  | NotJwt _ => inl JsonWebTokenError
  | Signed k c =>
      if negb (bool_decide (k = secret)) then inl JsonWebTokenError
      else if bool_decide (tok_exp c ≤ now / 1000) then inl TokenExpiredError
      else if negb (bool_decide (tok_aud c = audience)) then inl JsonWebTokenError
      else if negb (bool_decide (tok_iss c = issuer)) then inl JsonWebTokenError
      else inr c
  end.

End Jwt.

(** ** models/User.js *)

Module UserModel.
Import Jwt.

(** bcrypt, kept symbolic: [Bcrypt s] is a hash of [s]. *)
Inductive Secret :=
| Plain (s : string)
| Bcrypt (inner : Secret).

(** What bcrypt reads of a password: its bytes followed by a NUL byte,
    repeated cyclically, and of that the first 72 bytes.  Two passwords with
    the same key have the same hashes. *)
Definition bcryptKey (s : string) : list ascii :=
  take 72 (concat (replicate 72 (Js.chars s ++ [zero])%list)).

(** What ends a handler in its [catch] block. *)
Inductive Thrown :=
| ValidationError
| CastError
| IllegalArguments.

(** Hex digests of [crypto.createHash], kept symbolic as well. *)
Inductive Digest :=
| Sha256Token (preimage : Token)
| Sha256 (preimage : string)
| Md5Prefix16 (preimage : string).

(** An element of [refreshTokens]. *)
Record RefreshEntry := mkRefreshEntry {
  tokenHash : Digest;
  jti : string;
  createdAt : Z;
  expiresAt : Z;
  deviceInfo : string;
  lastUsed : Z;
  isRevoked : bool
}.

(** An element of [loginHistory]. *)
Record LoginEntry := mkLoginEntry {
  timestamp : Z;
  ip : string;
  userAgent : string;
  success : bool;
  location : list (string * string);
  deviceFingerprint : Digest
}.

(** An element of [passwordHistory]; [passwordHash] is [None] where the
    field is [undefined]. *)
Record PasswordEntry := mkPasswordEntry {
  passwordHash : option Secret;
  changedAt : Z
}.

(** Values stored at the paths of a document. *)
#[local] Set Warnings "-register-all".
Inductive Val :=
| VNull
| VBool (b : bool)
| VNum (n : Z)
| VStr (s : string)
| VDate (t : Z)
| VSecret (s : Secret)
| VDigest (d : Digest)
| VTokens (l : list RefreshEntry)
| VLogins (l : list LoginEntry)
| VPasswords (l : list PasswordEntry)
| VArr (l : list Val)
| VObj (o : list (string * Val)).

(** A document: a JavaScript object. *)
Abbreviation Doc := (gmap string Val).

(** *** Typed reads of the schema's paths, with the schema's defaults *)

Definition getStr (k : string) (d : Doc) : option string :=
  match d !! k with Some (VStr s) => Some s | _ => None end.

Definition getDate (k : string) (d : Doc) : option Z :=
  match d !! k with Some (VDate t) => Some t | _ => None end.

Definition docId (d : Doc) : string := default "" (getStr "_id" d).
Definition email (d : Doc) : string := default "" (getStr "email" d).
Definition fullName (d : Doc) : option string := getStr "fullName" d.
Definition profileImageUrl (d : Doc) : option string := getStr "profileImageUrl" d.
Definition status (d : Doc) : option string := getStr "status" d.
Definition role (d : Doc) : option string := getStr "role" d.

Definition password (d : Doc) : option Secret :=
  match d !! "password" with Some (VSecret s) => Some s | _ => None end.

(** [loginAttempts: { type: Number, default: 0 }] *)
Definition loginAttempts (d : Doc) : Z :=
  match d !! "loginAttempts" with Some (VNum n) => n | _ => 0 end.

(** [lockUntil: { type: Date, default: null }] *)
Definition lockUntil (d : Doc) : option Z := getDate "lockUntil" d.

(** [default: function() { return parseInt(process.env.MAX_LOGIN_ATTEMPTS) || 5; }] *)
Definition defaultMaxLoginAttempts (env : Env) : Z :=
  Js.numOr (MAX_LOGIN_ATTEMPTS env) 5.

(** [default: function() { return (parseInt(process.env.LOCKOUT_TIME_MINUTES) || 30) * 60 * 1000; }] *)
Definition defaultLockTime (env : Env) : Z :=
  Js.numOr (LOCKOUT_TIME_MINUTES env) 30 * 60 * 1000.

Definition maxLoginAttempts (env : Env) (d : Doc) : Z :=
  match d !! "maxLoginAttempts" with
  | Some (VNum n) => n
  | _ => defaultMaxLoginAttempts env
  end.

Definition lockTime (env : Env) (d : Doc) : Z :=
  match d !! "lockTime" with
  | Some (VNum n) => n
  | _ => defaultLockTime env
  end.

Definition refreshTokens (d : Doc) : list RefreshEntry :=
  match d !! "refreshTokens" with Some (VTokens l) => l | _ => [] end.

Definition loginHistory (d : Doc) : list LoginEntry :=
  match d !! "loginHistory" with Some (VLogins l) => l | _ => [] end.

Definition passwordHistory (d : Doc) : list PasswordEntry :=
  match d !! "passwordHistory" with Some (VPasswords l) => l | _ => [] end.

(** [enum: { values: ['user', 'admin', 'super-admin', 'moderator'] }] *)
Inductive RoleValue := RoleUser | RoleAdmin | RoleSuperAdmin | RoleModerator.

Definition roleName (r : RoleValue) : string :=
  match r with
  | RoleUser => "user"
  | RoleAdmin => "admin"
  | RoleSuperAdmin => "super-admin"
  | RoleModerator => "moderator"
  end.

(** *** Virtual fields *)

(** [return !!(this.lockUntil && this.lockUntil > Date.now());] *)
Definition isLocked (now : Z) (d : Doc) : bool :=
  match lockUntil d with
  | Some t => bool_decide (now < t)
  | None => false
  end.

(** [return Math.max(0, this.maxLoginAttempts - this.loginAttempts);] *)
Definition attemptsRemaining (env : Env) (d : Doc) : Z :=
  Z.max 0 (maxLoginAttempts env d - loginAttempts d).

(** *** The collection, queries and updates *)

Abbreviation DB := (list Doc).

Definition hasId (id : string) (d : Doc) : bool := bool_decide (docId d = id).

Fixpoint updateFirst (p : Doc → bool) (f : Doc → Doc) (db : DB) : DB :=
  match db with
  | [] => []
  | d :: rest => if p d then f d :: rest else d :: updateFirst p f rest
  end.

(** Paths declared [select: false]: left out of a loaded document unless the
    query asks for them with [+path]. *)
Definition hiddenPaths : list string :=
  ["password"; "twoFactorSecret"; "resetPasswordToken"; "emailVerificationToken"].

Definition dropPaths (ks : list string) (d : Doc) : Doc :=
  foldr (λ k acc, delete k acc) d ks.

(** [passwordHistory.passwordHash], [select: false] inside the elements of
    an array: the elements are loaded without it. *)
Definition hideHashes (d : Doc) : Doc :=
  match d !! "passwordHistory" with
  | Some (VPasswords l) =>
      <["passwordHistory" :=
          VPasswords ((λ e, mkPasswordEntry None (changedAt e)) <$> l)]> d
  | _ => d
  end.

(** [.select('+a +b')] / [.select('-a -b')] applied to a stored document. *)
Definition select (plus minus : list string) (d : Doc) : Doc :=
  dropPaths minus
    (dropPaths (filter (λ k, k ∉ plus) hiddenPaths)
       (if decide ("passwordHistory.passwordHash" ∈ plus) then d
        else hideHashes d)).

(** The document stored under an [_id]. *)
Definition byId (id : string) (db : DB) : option Doc :=
  find (hasId id) db.

(** The string form of an ObjectId: 24 hexadecimal digits. *)
Definition isObjectId (s : string) : bool :=
  bool_decide (Js.len s = 24) && forallb Js.isHexDigit (Js.chars s).

(** [User.findById(id)] casts [id] to an ObjectId before it queries, and
    throws a CastError when it is not one. *)
Definition findById (id : string) (db : DB) : Thrown + option Doc :=
  if isObjectId id then inr (byId id db) else inl CastError.

(** The setters of the [email] path, [lowercase: true] and [trim: true]:
    applied to a value that is assigned, and to the value in a query filter. *)
Definition emailSetters (v : string) : string := Js.trim (Js.toLowerCase v).

(** [{ email: e, status: { $ne: 'deleted' } }] *)
Definition emailNotDeleted (e : string) (d : Doc) : bool :=
  bool_decide (getStr "email" d = Some (emailSetters e))
  && negb (bool_decide (status d = Some "deleted")).

Definition findOne (p : Doc → bool) (db : DB) : option Doc := find p db.

(** [email.toLowerCase()] *)
Definition toLowerCase (s : string) : string := Js.toLowerCase s.

(** [User.findByEmail] *)
Definition findByEmail (e : string) (db : DB) : option Doc :=
  findOne (emailNotDeleted (toLowerCase e)) db.

(** MongoDB update operators. *)
Record Update := mkUpdate {
  op_unset : list string;
  op_set : list (string * Val);
  op_inc : list (string * Z)
}.

Definition incPath (kn : string * Z) (d : Doc) : Doc :=
  match d !! kn.1 with
  | Some (VNum n) => <[kn.1 := VNum (n + kn.2)]> d
  | _ => <[kn.1 := VNum kn.2]> d
  end.

Definition applyUpdate (u : Update) (d : Doc) : Doc :=
  dropPaths (op_unset u)
    (foldr (λ kv acc, <[kv.1 := kv.2]> acc)
       (foldr incPath d (op_inc u)) (op_set u)).

(** [this.updateOne(u)]: the stored document changes, the loaded one does
    not. *)
Definition updateOne (this : Doc) (u : Update) (db : DB) : DB :=
  updateFirst (hasId (docId this)) (applyUpdate u) db.

(** *** Loaded documents and [save] *)

Record Loaded := mkLoaded {
  cur : Doc;
  dirty : list string;
  isNew : bool
}.

Definition load (d : Doc) : Loaded := mkLoaded d [] false.

(** [this.k = v] *)
Definition assign (k : string) (v : Val) (m : Loaded) : Loaded :=
  mkLoaded (<[k := v]> (cur m)) (k :: dirty m) (isNew m).

Definition isModified (k : string) (m : Loaded) : bool :=
  bool_decide (k ∈ dirty m).

(** *** The validators of the schema *)

Definition lengthIn (lo hi : Z) (v : string) : bool :=
  bool_decide (lo ≤ Js.len v) && bool_decide (Js.len v ≤ hi).

(** [/^[a-zA-Z\s'-]+$/] *)
Definition fullNamePattern (v : string) : bool :=
  negb (bool_decide (v = ""))
  && forallb (λ c, Js.isLetter c || Js.isSpace c
                   || Ascii.eqb c "'" || Ascii.eqb c "-") (Js.chars v).

(** [/^[^\s@]+@[^\s@]+\.[^\s@]+$/]: one [@] with something before it, no
    white space, and after the [@] a dot that is neither the first nor the
    last character there. *)
Definition emailPattern (v : string) : bool :=
  match Js.split "@" v with
  | [a; d] =>
      negb (bool_decide (a = ""))
      && forallb (λ c, negb (Js.isSpace c)) (Js.chars v)
      && existsb (Ascii.eqb ".") (removelast (tail (Js.chars d)))
  | _ => false
  end.

(** [/^https?:\/\/.+/]: the dot matches any character that is not a line
    terminator. *)
Definition urlPattern (v : string) : bool :=
  match match Js.after "https://" v with
        | Some rest => Some rest
        | None => Js.after "http://" v
        end with
  | Some (String c _) => negb (Ascii.eqb c "010" || Ascii.eqb c "013")
  | _ => false
  end.

(** [25[0-5]|2[0-4][0-9]|[01]?[0-9][0-9]?] *)
Definition octetPattern (g : string) : bool :=
  match Js.chars g with
  | [a] => Js.isDigit a
  | [a; b] => Js.isDigit a && Js.isDigit b
  | [a; b; c] =>
      ((Ascii.eqb a "0" || Ascii.eqb a "1") && Js.isDigit b && Js.isDigit c)
      || (Ascii.eqb a "2" && Js.isDigit b && (N_of_ascii b <=? 52)%N && Js.isDigit c)
      || (Ascii.eqb a "2" && Ascii.eqb b "5" && Js.isDigit c && (N_of_ascii c <=? 53)%N)
  | _ => false
  end.

(** [[0-9a-fA-F]{1,4}] *)
Definition groupPattern (g : string) : bool :=
  lengthIn 1 4 g && forallb Js.isHexDigit (Js.chars g).

(** The validator of [lastLoginIP]: four octets between dots, or eight groups
    between colons. *)
Definition ipPattern (v : string) : bool :=
  match Js.split "." v with
  | [a; b; c; d] => octetPattern a && octetPattern b && octetPattern c && octetPattern d
  | _ => false
  end
  || (bool_decide (length (Js.split ":" v) = 8%nat)
      && forallb groupPattern (Js.split ":" v)).

(** An element of [loginHistory]: [ip] is required, [userAgent] has at most
    500 characters.  (The [deviceFingerprint] has 16.) *)
Definition loginEntryValid (e : LoginEntry) : bool :=
  negb (bool_decide (ip e = "")) && bool_decide (Js.len (userAgent e) ≤ 500).

(** An element of [refreshTokens]: [jti] is required, [deviceInfo] has at most
    200 characters.  (The hash and the expiry, required too, are there.) *)
Definition refreshEntryValid (e : RefreshEntry) : bool :=
  negb (bool_decide (jti e = "")) && bool_decide (Js.len (deviceInfo e) ≤ 200).

(** The validators, by path, of the paths the handlers write or count on; each
    takes what the document in memory has at the path.  [required] fails on
    [undefined], [null] and the empty string; the other validators are not
    run on [undefined], and pass on [null].  A [password] that is not loaded
    is not validated; one that is a hash has 60 characters. *)
Definition validators : list (string * (option Val → bool)) :=
  [("fullName", λ v, match v with
                     | Some (VStr x) => lengthIn 2 50 x && fullNamePattern x
                     | _ => false
                     end);
   ("email", λ v, match v with
                  | Some (VStr x) =>
                      negb (bool_decide (x = "")) && bool_decide (Js.len x ≤ 100)
                      && emailPattern x
                  | _ => false
                  end);
   ("password", λ v, match v with
                     | Some (VSecret (Plain x)) => lengthIn 8 128 x
                     | Some (VSecret (Bcrypt _)) => true
                     | None => true
                     | _ => false
                     end);
   ("profileImageUrl", λ v, match v with
                            | Some (VStr x) =>
                                bool_decide (Js.len x ≤ 500)
                                && (bool_decide (x = "") || urlPattern x)
                            | _ => true
                            end);
   ("status", λ v, match v with
                   | Some (VStr x) =>
                       bool_decide (x ∈ ["active"; "inactive"; "suspended";
                                         "pending"; "deleted"])
                   | _ => true
                   end);
   ("role", λ v, match v with
                 | Some (VStr x) =>
                     bool_decide (x ∈ ["user"; "admin"; "super-admin"; "moderator"])
                 | _ => true
                 end);
   ("loginAttempts", λ v, match v with
                          | Some (VNum n) => bool_decide (0 ≤ n) && bool_decide (n ≤ 50)
                          | _ => true
                          end);
   ("lastLoginIP", λ v, match v with
                        | Some (VStr x) => bool_decide (x = "") || ipPattern x
                        | _ => true
                        end);
   ("loginHistory", λ v, match v with
                         | Some (VLogins l) => forallb loginEntryValid l
                         | _ => true
                         end);
   ("refreshTokens", λ v, match v with
                          | Some (VTokens l) => forallb refreshEntryValid l
                          | _ => true
                          end)].

(** The validation [save()] starts with: on every path of the document in
    memory, loaded or assigned. *)
Definition validate (d : Doc) : bool :=
  forallb (λ kv, kv.2 (d !! kv.1)) validators.

(** The pre-save hook. *)
Definition preSave (now : Z) (m : Loaded) : Loaded :=
  if negb (isModified "password" m) then m
  else
    let m1 :=
      match password (cur m) with
      | Some pw =>
          if negb (isNew m) then
            let h := (passwordHistory (cur m) ++ [mkPasswordEntry (Some pw) now])%list in
            let h := if bool_decide (5 < Z.of_nat (length h))
                     then Js.sliceLast 5 h else h in
            assign "passwordHistory" (VPasswords h) m
          else m
      | None => m
      end in
    let m2 :=
      match password (cur m1) with
      | Some pw => assign "password" (VSecret (Bcrypt pw)) m1
      | None => m1
      end in
    assign "passwordLastChanged" (VDate now) m2.

(** Writing the assigned paths of [src] into the stored document. *)
Definition writePaths (ks : list string) (src dst : Doc) : Doc :=
  foldr (λ k acc, match src !! k with
                  | Some v => <[k := v]> acc
                  | None => delete k acc
                  end) dst ks.

(** What [save()] does once the validation has passed: it runs the hook,
    then inserts a new document or writes the assigned paths of an existing
    one.  (An array is written as it is in memory; the hook pushes onto
    [passwordHistory] only when [changePassword] has found that array empty,
    so that no stored hash is overwritten by a missing one.) *)
Definition persist (now : Z) (m : Loaded) (db : DB) : Loaded * DB :=
  let m' := preSave now m in
  let db' :=
    if isNew m' then (db ++ [cur m'])%list
    else updateFirst (hasId (docId (cur m')))
           (writePaths (dirty m') (cur m')) db in
  (mkLoaded (cur m') [] false, db').

(** [this.save()] *)
Definition save (now : Z) (m : Loaded) (db : DB) : Thrown + Loaded * DB :=
  if validate (cur m) then inr (persist now m db) else inl ValidationError.

(** *** Instance methods *)

(** [bcrypt.compare(candidate, hash)] for a hash that is a string; a string
    that is not a hash matches nothing. *)
Definition bcryptCompare (candidate : string) (h : Secret) : bool :=
  match h with
  | Bcrypt (Plain p) => bool_decide (bcryptKey candidate = bcryptKey p)
  | _ => false
  end.

Definition comparePassword (candidate : string) (this : Doc) : bool :=
  match password this with
  | Some h => bcryptCompare candidate h
  | None => false
  end.

(** The loop over [this.passwordHistory]: [bcrypt.compare] rejects when the
    hash it is given is [undefined]. *)
Fixpoint inHistory (candidate : string) (l : list PasswordEntry) : Thrown + bool :=
  match l with
  | [] => inr false
  | historicPassword :: rest =>
      match passwordHash historicPassword with
      | None => inl IllegalArguments
      | Some h =>
          if bcryptCompare candidate h then inr true
          else inHistory candidate rest
      end
  end.

Definition isPasswordInHistory (candidate : string) (this : Doc) : Thrown + bool :=
  inHistory candidate (passwordHistory this).

Definition incLoginAttempts (env : Env) (now : Z) (this : Doc) : Update :=
  if match lockUntil this with
     | Some t => bool_decide (t < now)
     | None => false
     end
  then mkUpdate ["lockUntil"] [("loginAttempts", VNum 1)] []
  else
    let updates := mkUpdate [] [] [("loginAttempts", 1)] in
    if bool_decide (maxLoginAttempts env this ≤ loginAttempts this + 1)
       && negb (isLocked now this)
    then mkUpdate (op_unset updates)
           [("lockUntil", VDate (now + lockTime env this))] (op_inc updates)
    else updates.

Definition resetLoginAttempts : Update :=
  mkUpdate ["loginAttempts"; "lockUntil"] [] [].

Definition addRefreshToken (now : Z) (h : Digest) (j : string) (exp : Z)
    (device : string) (m : Loaded) (db : DB) : Thrown + Loaded * DB :=
  let l := (refreshTokens (cur m) ++ [mkRefreshEntry h j now exp device now false])%list in
  let l := if bool_decide (5 < Z.of_nat (length l)) then Js.sliceLast 5 l else l in
  save now (assign "refreshTokens" (VTokens l) m) db.

Definition revoke (e : RefreshEntry) : RefreshEntry :=
  mkRefreshEntry (tokenHash e) (jti e) (createdAt e) (expiresAt e)
    (deviceInfo e) (lastUsed e) true.

Fixpoint revokeFirst (j : string) (l : list RefreshEntry) : list RefreshEntry :=
  match l with
  | [] => []
  | e :: rest => if decide (jti e = j) then revoke e :: rest
                 else e :: revokeFirst j rest
  end.

Definition revokeRefreshToken (now : Z) (j : string) (m : Loaded) (db : DB)
    : Thrown + Loaded * DB :=
  save now (assign "refreshTokens" (VTokens (revokeFirst j (refreshTokens (cur m)))) m) db.

Definition revokeAllRefreshTokens (now : Z) (m : Loaded) (db : DB)
    : Thrown + Loaded * DB :=
  save now (assign "refreshTokens" (VTokens (map revoke (refreshTokens (cur m)))) m) db.

Definition recordLogin (now : Z) (ipAddr ua : string) (ok : bool)
    (loc : list (string * string)) (m : Loaded) (db : DB) : Thrown + Loaded * DB :=
  let fp := Md5Prefix16 (ipAddr ++ ":" ++ ua) in
  let h := (loginHistory (cur m) ++ [mkLoginEntry now ipAddr ua ok loc fp])%list in
  let h := if bool_decide (50 < Z.of_nat (length h)) then Js.sliceLast 50 h else h in
  let m1 := assign "loginHistory" (VLogins h) m in
  let m2 := if ok
            then assign "lastActiveAt" (VDate now)
                   (assign "lastLoginIP" (VStr ipAddr)
                      (assign "lastLogin" (VDate now) m1))
            else m1 in
  save now m2 db.

Definition updateLastActive (now : Z) (m : Loaded) (db : DB)
    : Thrown + Loaded * DB :=
  save now (assign "lastActiveAt" (VDate now) m) db.

(** Returns the loaded document with the two paths assigned; nothing is saved
    here. *)
Definition generateEmailVerificationToken (now : Z) (random : string)
    (m : Loaded) : Loaded :=
  assign "emailVerificationExpires" (VDate (now + 24 * 60 * 60 * 1000))
    (assign "emailVerificationToken" (VDigest (Sha256 random)) m).

(** *** The [toJSON] transform *)

Definition toJSON (d : Doc) : Doc :=
  let ret :=
    dropPaths ["password"; "refreshTokens"; "twoFactorSecret";
               "resetPasswordToken"; "emailVerificationToken";
               "passwordHistory"; "backupCodes"; "__v"] d in
  let ret := match ret !! "_id" with
             | Some v => <["id" := v]> ret
             | None => ret
             end in
  delete "_id" ret.

(** *** [User.create]: the schema's defaults at the top-level paths *)

Definition preferencesDefault : Val :=
  VObj [("currency", VStr "USD"); ("dateFormat", VStr "DD/MM/YYYY");
        ("timeFormat", VStr "24"); ("theme", VStr "light");
        ("language", VStr "en"); ("timezone", VStr "UTC");
        ("notifications",
          VObj [("email", VObj [("enabled", VBool true); ("expenses", VBool true);
                                ("budgets", VBool true); ("weeklyReports", VBool true);
                                ("security", VBool true)]);
                ("push", VObj [("enabled", VBool false); ("budgetAlerts", VBool true);
                               ("expenses", VBool false)]);
                ("sms", VObj [("enabled", VBool false); ("security", VBool false)])]);
        ("privacy", VObj [("profileVisible", VBool false); ("dataSharing", VBool false);
                          ("analyticsOptOut", VBool false)]);
        ("security", VObj [("sessionTimeout", VNum 3600000);
                           ("requirePasswordChange", VBool false);
                           ("loginNotifications", VBool true)])].

Definition schemaDefaults (env : Env) (now : Z) : list (string * Val) :=
  [("status", VStr "active"); ("role", VStr "user");
   ("loginAttempts", VNum 0); ("lockUntil", VNull);
   ("maxLoginAttempts", VNum (defaultMaxLoginAttempts env));
   ("lockTime", VNum (defaultLockTime env));
   ("lastLogin", VNull); ("lastLoginIP", VNull);
   ("loginHistory", VLogins []); ("refreshTokens", VTokens []);
   ("twoFactorEnabled", VBool false); ("twoFactorSecret", VNull);
   ("backupCodes", VArr []);
   ("resetPasswordToken", VNull); ("resetPasswordExpires", VNull);
   ("passwordHistory", VPasswords []); ("passwordLastChanged", VDate now);
   ("emailVerified", VBool false); ("emailVerificationToken", VNull);
   ("emailVerificationExpires", VNull);
   ("preferences", preferencesDefault);
   ("monthlyBudget", VNum 0); ("budgetCategories", VArr []);
   ("savingsGoal", VObj [("target", VNum 0); ("achieved", VBool false);
                         ("achievedAt", VNull)]);
   ("createdBy", VNull); ("suspendedBy", VNull); ("suspendedAt", VNull);
   ("suspensionReason", VNull); ("adminNotes", VArr []);
   ("dataProcessingConsent",
      VObj [("given", VBool false); ("givenAt", VNull); ("ipAddress", VNull)]);
   ("marketingConsent", VObj [("given", VBool false); ("givenAt", VNull)]);
   ("lastActiveAt", VDate now); ("deletedAt", VNull);
   ("createdAt", VDate now); ("updatedAt", VDate now); ("__v", VNum 0)].

(** The setters of the schema: [trim: true] on [fullName], [lowercase: true]
    and [trim: true] on [email]. *)
Definition setter (kv : string * Val) : string * Val :=
  match kv.2 with
  | VStr x =>
      if String.eqb kv.1 "fullName" then (kv.1, VStr (Js.trim x))
      else if String.eqb kv.1 "email" then (kv.1, VStr (emailSetters x))
      else kv
  | _ => kv
  end.

(** [User.create(fields)] with a fresh [_id]: defaults first, then the given
    fields through their setters, then [save] of the new document (which
    validates it and hashes the password). *)
Definition create (env : Env) (now : Z) (newId : string)
    (fields : list (string * Val)) (db : DB) : Thrown + Loaded * DB :=
  let d : Doc :=
    list_to_map ((setter <$> fields) ++ ("_id", VStr newId) :: schemaDefaults env now)%list in
  save now (mkLoaded d (fields.*1) true) db.

End UserModel.

(** ** HTTP answers *)

Module Http.

Record Response := mkResponse {
  status : Z;
  message : string;
  (** the [user] object of the body, when there is one *)
  user : option (gmap string UserModel.Val);
  (** the access and the refresh token of the body, when there are any *)
  tokens : option (Jwt.Token * Jwt.Token)
}.

Definition reply (code : Z) (msg : string) : Response :=
  mkResponse code msg None None.

End Http.

(** ** middleware/authMiddleware.js *)

Module AuthMiddleware.
Import Jwt UserModel Http.

(** An entry of the in-memory [refreshTokens] map. *)
Record TokenInfo := mkTokenInfo {
  userId : string;
  infoEmail : string;
  infoCreatedAt : Z;
  infoLastUsed : Z
}.

(** The state of the server: the two module-level containers and the users
    collection. *)
Record World := mkWorld {
  tokenBlacklist : list Token;
  refreshTokens : gmap string TokenInfo;
  users : DB
}.

Definition emptyWorld : World := mkWorld [] ∅ [].

Definition withUsers (db : DB) (w : World) : World :=
  mkWorld (tokenBlacklist w) (refreshTokens w) db.

Definition getCurrentJWTSecret (env : Env) : string :=
  Js.strOr (JWT_SECRET env)
    "3de45819a68860e577acbd9d2b28fa6f5e8672755afd5f43e3ef1ae15b67d809".

Definition getRefreshSecret (env : Env) : string :=
  Js.strOr (JWT_REFRESH_SECRET env)
    "7b8c9d0e1f2a3b4c5d6e7f8a9b0c1d2e3f4a5b6c7d8e9f0a1b2c3d4e5f6a7b8c_refresh_token_secret".

Definition issuer (env : Env) : string := Js.strOr (JWT_ISSUER env) "expense-tracker".
Definition audience (env : Env) : string :=
  Js.strOr (JWT_AUDIENCE env) "expense-tracker-users".

(** ['1h'] and ['7d'] in seconds. *)
Definition accessLifetime (env : Env) : Z := default 3600 (JWT_EXPIRES_IN env).
Definition refreshLifetime (env : Env) : Z := default 604800 (JWT_REFRESH_EXPIRES_IN env).

(** The argument of the two generators. *)
Record Identity := mkIdentity {
  id : string;
  identEmail : string;
  identRole : option string
}.

(** [uuid] is the value [crypto.randomUUID()] returns. *)
Definition generateToken (env : Env) (now : Z) (uuid : string) (payload : Identity)
    : Token :=
  sign (id payload) (identEmail payload)
    (Some (Js.strOr (identRole payload) "user")) "access"
    (now / 1000) uuid (getCurrentJWTSecret env) (accessLifetime env)
    (issuer env) (audience env).

Definition generateRefreshToken (env : Env) (now : Z) (uuid : string)
    (payload : Identity) (w : World) : Token * World :=
  let refreshToken :=
    sign (id payload) (identEmail payload) None "refresh"
      (now / 1000) uuid (getRefreshSecret env) (refreshLifetime env)
      (issuer env) (audience env) in
  (refreshToken,
   mkWorld (tokenBlacklist w)
     (<[uuid := mkTokenInfo (id payload) (identEmail payload) now now]>
        (refreshTokens w))
     (users w)).

Definition blacklistToken (token : option Token) (w : World) : World :=
  match token with
  | Some t =>
      if truthy t then
        let bl := Js.setAdd t (tokenBlacklist w) in
        let rt :=
          match decode t with
          | Some decoded =>
              if decide (tok_jti decoded = "") then refreshTokens w
              else delete (tok_jti decoded) (refreshTokens w)
          | None => refreshTokens w
          end in
        let bl :=
          if bool_decide (10000 < Z.of_nat (length bl)) then
            let tokensArray := bl in
            let tokensToKeep := Js.sliceLast 5000 tokensArray in
            foldl (λ s t, Js.setAdd t s) [] tokensToKeep
          else bl in
        mkWorld bl rt (users w)
      else w
  | None => w
  end.

Definition isTokenBlacklisted (token : Token) (w : World) : bool :=
  Js.setHas token (tokenBlacklist w).

(** [parseInt(process.env.JWT_REFRESH_EXPIRES_IN?.replace(/\D/g, '') || '7')
     * 24 * 60 * 60 * 1000] *)
Definition refreshExpiry (env : Env) : Z :=
  default 7 (JWT_REFRESH_EXPIRES_IN_digits env) * 24 * 60 * 60 * 1000.

(** Run by [setInterval] every hour. *)
Definition cleanupExpiredTokens (env : Env) (now : Z) (w : World) : World :=
  let rt :=
    filter (λ kv, ¬ (refreshExpiry env < now - infoCreatedAt kv.2))
      (refreshTokens w) in
  let bl :=
    if bool_decide (20000 < Z.of_nat (length (tokenBlacklist w))) then
      let tokensArray := tokenBlacklist w in
      let tokensToKeep := Js.sliceLast 10000 tokensArray in
      foldl (λ s t, Js.setAdd t s) [] tokensToKeep
    else tokenBlacklist w in
  mkWorld bl rt (users w).

(** [req.user] as the middleware sets it. *)
Record ReqUser := mkReqUser {
  reqId : string;
  reqEmail : string;
  reqRole : string;
  tokenId : string;
  reqFullName : option string;
  reqProfileImageUrl : option string
}.

Inductive Outcome :=
| Respond (r : Response)
| Next (reqUser : ReqUser) (reqToken : Token).

(** [user.status && user.status !== 'active'] *)
Definition notActive (d : Doc) : bool :=
  match UserModel.status d with
  | Some s => negb (bool_decide (s = "")) && negb (bool_decide (s = "active"))
  | None => false
  end.

(** [authorization] holds the pieces of the Authorization header between
    spaces, [None] when the header is absent:
    [authHeader && authHeader.split(' ')[1]]. *)
Definition bearer (authorization : option (list Token)) : option Token :=
  match authorization with
  | Some pieces => pieces !! 1%nat
  | None => None
  end.

Definition authenticateToken (env : Env) (now : Z)
    (authorization : option (list Token)) (w : World) : Outcome * World :=
  match bearer authorization with
  | None => (Respond (reply 401 "Access token is required"), w)
  | Some token =>
    if negb (truthy token) then
      (Respond (reply 401 "Access token is required"), w)
    else if isTokenBlacklisted token w then
      (Respond (reply 401 "Token has been revoked"), w)
    else
      match verify now token (getCurrentJWTSecret env) (issuer env) (audience env) with
      | inl JsonWebTokenError => (Respond (reply 401 "Invalid token format"), w)
      | inl TokenExpiredError =>
          (Respond (reply 401 "Token has expired. Please login again."), w)
      | inl NotBeforeError => (Respond (reply 401 "Token not active yet"), w)
      | inr decoded =>
        if negb (bool_decide (tok_tokenType decoded = "access")) then
          (Respond (reply 401 "Invalid token type"), w)
        else
          match findById (tok_id decoded) (users w) with
          | inl _ => (Respond (reply 500 "Authentication failed"), w)
          | inr found =>
            match select [] ["password"] <$> found with
            | None =>
                (Respond (reply 401 "User no longer exists"),
                 blacklistToken (Some token) w)
            | Some u =>
              if notActive u then
                (Respond (reply 401 "Account has been deactivated"), w)
              else if isLocked now u then
                let lockTimeRemaining :=
                  Js.ceilDiv (default 0 (lockUntil u) - now) (1000 * 60) in
                (Respond (reply 423
                   ("Account is temporarily locked. Try again in "
                    ++ pretty lockTimeRemaining ++ " minutes.")), w)
              else
                (Next
                   (mkReqUser (tok_id decoded) (tok_email decoded)
                      (Js.strOr (tok_role decoded) "user") (tok_jti decoded)
                      (fullName u) (profileImageUrl u))
                   token, w)
            end
          end
      end
  end.

(** [uuidA] and [uuidR] are the identifiers drawn for the new access and the
    new refresh token. *)
Definition refreshAccessToken (env : Env) (now : Z) (uuidA uuidR : string)
    (body : option Token) (w : World) : Response * World :=
  match body with
  | None => (reply 401 "Refresh token is required", w)
  | Some refreshToken =>
    if negb (truthy refreshToken) then
      (reply 401 "Refresh token is required", w)
    else if isTokenBlacklisted refreshToken w then
      (reply 401 "Refresh token has been revoked", w)
    else
      match verify now refreshToken (getRefreshSecret env) (issuer env) (audience env) with
      | inl JsonWebTokenError | inl TokenExpiredError =>
          (reply 401 "Invalid or expired refresh token", w)
      | inl NotBeforeError => (reply 500 "Token refresh failed", w)
      | inr decoded =>
        if negb (bool_decide (tok_tokenType decoded = "refresh")) then
          (reply 401 "Invalid refresh token type", w)
        else
          match refreshTokens w !! tok_jti decoded with
          | None => (reply 401 "Refresh token not found or expired", w)
          | Some tokenInfo =>
            let rejectUser :=
              let w1 := blacklistToken (Some refreshToken) w in
              (reply 401 "User no longer exists or account is inactive",
               mkWorld (tokenBlacklist w1)
                 (delete (tok_jti decoded) (refreshTokens w1)) (users w1)) in
            match findById (tok_id decoded) (users w) with
            | inl _ => (reply 500 "Token refresh failed", w)
            | inr found =>
              match select [] ["password"] <$> found with
              | None => rejectUser
              | Some u =>
                if notActive u then rejectUser
                else
                  let newAccessToken :=
                    generateToken env now uuidA
                      (mkIdentity (docId u) (UserModel.email u) (role u)) in
                  let '(newRefreshToken, w1) :=
                    generateRefreshToken env now uuidR
                      (mkIdentity (docId u) (UserModel.email u) None) w in
                  let w2 := blacklistToken (Some refreshToken) w1 in
                  let rt := delete (tok_jti decoded) (refreshTokens w2) in
                  let rt :=
                    match decode newRefreshToken with
                    | Some d =>
                        match rt !! tok_jti d with
                        | Some newTokenInfo =>
                            <[tok_jti d := mkTokenInfo (userId newTokenInfo)
                                             (infoEmail newTokenInfo)
                                             (infoCreatedAt newTokenInfo) now]> rt
                        | None => rt
                        end
                    | None => rt
                    end in
                  (mkResponse 200 "Token refreshed successfully"
                     (Some (Js.object
                              [("id", Some (VStr (docId u)));
                               ("fullName", VStr <$> fullName u);
                               ("email", Some (VStr (UserModel.email u)));
                               ("role", VStr <$> role u)]))
                     (Some (newAccessToken, newRefreshToken)),
                   mkWorld (tokenBlacklist w2) rt (users w2))
              end
            end
          end
      end
  end.

End AuthMiddleware.

(** ** controllers/authController.js *)

Module AuthController.
Import Jwt UserModel AuthMiddleware Http.

(** What the handlers read of the connection and of the request headers. *)
Record Client := mkClient {
  clientIP : string;
  userAgentHeader : option string;   (* req.get('User-Agent') *)
  cfCountry : option string;         (* req.get('CF-IPCountry') *)
  cfTimezone : option string         (* req.get('CF-Timezone') *)
}.

Definition userAgentOf (c : Client) : string := Js.strOr (userAgentHeader c) "Unknown".

Definition locationOf (c : Client) : list (string * string) :=
  [("country", Js.strOr (cfCountry c) "Unknown"); ("city", "Unknown");
   ("timezone", Js.strOr (cfTimezone c) "UTC")].

(** The token pair for [u], with the refresh token recorded in the in-memory
    map and its descriptor appended to the document.  When the descriptor is
    refused the map keeps the entry. *)
Definition issuePair (env : Env) (now : Z) (uuidA uuidR : string) (device : string)
    (m : Loaded) (w : World) : (Thrown + Token * Token * Loaded) * World :=
  let tokenPayload :=
    mkIdentity (docId (cur m)) (UserModel.email (cur m)) (role (cur m)) in
  let accessToken := generateToken env now uuidA tokenPayload in
  let '(refreshToken, w1) := generateRefreshToken env now uuidR tokenPayload w in
  let refreshTokenHash := Sha256Token refreshToken in
  match decode refreshToken with
  | Some decoded =>
      match addRefreshToken now refreshTokenHash (tok_jti decoded)
              (tok_exp decoded * 1000) device m (users w1) with
      | inl e => (inl e, w1)
      | inr (m1, db1) => (inr (accessToken, refreshToken, m1), withUsers db1 w1)
      end
  | None => (inr (accessToken, refreshToken, m), w1)
  end.

(** The [catch] block of [registerUser]. *)
Definition registrationFailed (e : Thrown) : Response :=
  match e with
  | ValidationError => reply 400 "Validation failed"
  | _ => reply 500 "Registration failed. Please try again later."
  end.

(** [newId] is the ObjectId of the new document, [random] the 32 random bytes
    of the e-mail verification token. *)
Definition registerUser (env : Env) (now : Z) (newId uuidA uuidR random : string)
    (c : Client) (fullNameIn emailIn passwordIn : string)
    (profileImageUrlIn : option string) (w : World) : Response * World :=
  match findByEmail emailIn (users w) with
  | Some existingUser =>
      (reply 409 "An account with this email already exists", w)
  | None =>
      let fields :=
        ([("fullName", VStr (Js.trim fullNameIn));
          ("email", VStr (Js.toLowerCase emailIn));
          ("password", VSecret (Plain passwordIn))]
         ++ match profileImageUrlIn with
            | Some url => [("profileImageUrl", VStr url)]
            | None => []
            end
         ++ [("status", VStr "active"); ("role", VStr "user");
             ("emailVerified", VBool false);
             ("dataProcessingConsent",
                VObj [("given", VBool true); ("givenAt", VDate now);
                      ("ipAddress", VStr (clientIP c))]);
             ("lastActiveAt", VDate now)])%list in
      match create env now newId fields (users w) with
      | inl e => (registrationFailed e, w)
      | inr (m, db1) =>
        match recordLogin now (clientIP c) (userAgentOf c) true (locationOf c)
                m db1 with
        | inl e => (registrationFailed e, withUsers db1 w)
        | inr (m, db2) =>
          let device :=
            default "undefined" (userAgentHeader c) ++ " - " ++ clientIP c in
          match issuePair env now uuidA uuidR device m (withUsers db2 w) with
          | (inl e, w1) => (registrationFailed e, w1)
          | (inr (accessToken, refreshToken, m), w1) =>
            let m := generateEmailVerificationToken now random m in
            (mkResponse 201 "Account created successfully"
               (Some (Js.object
                        [("id", cur m !! "_id");
                         ("fullName", cur m !! "fullName");
                         ("email", cur m !! "email");
                         ("profileImageUrl", cur m !! "profileImageUrl");
                         ("role", cur m !! "role");
                         ("status", cur m !! "status");
                         ("emailVerified", cur m !! "emailVerified");
                         ("createdAt", cur m !! "createdAt")]))
               (Some (accessToken, refreshToken)),
             w1)
          end
        end
      end
  end.

Definition loginUser (env : Env) (now : Z) (uuidA uuidR : string)
    (c : Client) (emailIn passwordIn : string) (w : World) : Response * World :=
  match select ["password"] [] <$>
        findOne (emailNotDeleted (Js.toLowerCase emailIn)) (users w) with
  | None => (reply 401 "Invalid credentials", w)
  | Some u =>
    let m := load u in
    let failed := reply 500 "Login failed. Please try again later." in
    if negb (bool_decide (UserModel.status u = Some "active")) then
      match recordLogin now (clientIP c) (userAgentOf c) false [] m (users w) with
      | inl _ => (failed, w)
      | inr (_, db1) =>
        (reply 403 (if bool_decide (UserModel.status u = Some "suspended")
                    then "Account suspended. Contact support."
                    else "Account inactive. Contact support."),
         withUsers db1 w)
      end
    else if isLocked now u then
      let lockTimeRemaining :=
        Js.ceilDiv (default 0 (lockUntil u) - now) (1000 * 60) in
      match recordLogin now (clientIP c) (userAgentOf c) false [] m (users w) with
      | inl _ => (failed, w)
      | inr (_, db1) =>
        (reply 423 ("Account temporarily locked. Try again in "
                    ++ pretty lockTimeRemaining ++ " minutes."),
         withUsers db1 w)
      end
    else if negb (comparePassword passwordIn u) then
      match recordLogin now (clientIP c) (userAgentOf c) false [] m (users w) with
      | inl _ => (failed, w)
      | inr (m1, db1) =>
        let db2 := updateOne (cur m1) (incLoginAttempts env now (cur m1)) db1 in
        let remainingAttempts := attemptsRemaining env (cur m1) in
        (reply 401 (if bool_decide (0 < remainingAttempts)
                    then "Invalid credentials. " ++ pretty remainingAttempts
                         ++ " attempts remaining."
                    else "Invalid credentials. Account will be temporarily locked."),
         withUsers db2 w)
      end
    else
      match isPasswordInHistory passwordIn u with
      | inl _ => (failed, w)
      | inr _ =>
        (* what it returns only decides whether a warning is logged *)
        let db1 := updateOne (cur m) resetLoginAttempts (users w) in
        match recordLogin now (clientIP c) (userAgentOf c) true (locationOf c)
                m db1 with
        | inl _ => (failed, withUsers db1 w)
        | inr (m1, db2) =>
          match updateLastActive now m1 db2 with
          | inl _ => (failed, withUsers db2 w)
          | inr (m2, db3) =>
            let device := userAgentOf c ++ " - " ++ clientIP c in
            match issuePair env now uuidA uuidR device m2 (withUsers db3 w) with
            | (inl _, w1) => (failed, w1)
            | (inr (accessToken, refreshToken, m3), w1) =>
              let userResponse :=
                delete "lockUntil" (delete "loginAttempts" (toJSON (cur m3))) in
              (mkResponse 200 "Login successful" (Some userResponse)
                 (Some (accessToken, refreshToken)),
               w1)
            end
          end
        end
      end
  end.

(** Of the body only the [user] object is kept; [profileStats] and
    [securityInfo] are counts, dates and flags computed from the loaded
    document. *)
Definition getUserInfo (now : Z) (ru : ReqUser) (w : World) : Response * World :=
  let failed := reply 500 "Failed to retrieve user information" in
  match findById (reqId ru) (users w) with
  | inl _ => (failed, w)
  | inr found =>
    match select [] ["password"; "refreshTokens"; "twoFactorSecret";
                     "resetPasswordToken"; "emailVerificationToken";
                     "passwordHistory"] <$> found with
    | None => (reply 404 "User profile not found", w)
    | Some u =>
      if negb (bool_decide (UserModel.status u = Some "active")) then
        (reply 403 "Account access restricted", w)
      else
        match updateLastActive now (load u) (users w) with
        | inl _ => (failed, w)
        | inr (m, db1) =>
          (mkResponse 200 "" (Some (toJSON (cur m))) None, withUsers db1 w)
        end
    end
  end.

(** [tokenToBlacklist] is what [validateTokenForLogout] left on the request,
    [authorization] the header. *)
Definition logoutUser (now : Z) (ru : ReqUser) (tokenToBlacklist : option Token)
    (authorization : option (list Token)) (w : World) : Response * World :=
  let token :=
    match tokenToBlacklist with
    | Some t => if truthy t then Some t else bearer authorization
    | None => bearer authorization
    end in
  let answer := reply 200 "Logged out successfully" in
  let failed := reply 500 "Logout failed" in
  match token with
  | Some t =>
      if truthy t then
        let w1 := blacklistToken (Some t) w in
        match decode t with
        | Some decoded =>
            if decide (tok_jti decoded = "") then (answer, w1)
            else
              match findById (reqId ru) (users w1) with
              | inl _ => (failed, w1)
              | inr found =>
                match select [] [] <$> found with
                | Some u =>
                    match revokeRefreshToken now (tok_jti decoded) (load u)
                            (users w1) with
                    | inl _ => (failed, w1)
                    | inr (_, db1) => (answer, withUsers db1 w1)
                    end
                | None => (answer, w1)
                end
              end
        | None => (answer, w1)
        end
      else (answer, w)
  | None => (answer, w)
  end.

Definition logoutAllDevices (now : Z) (ru : ReqUser) (w : World) : Response * World :=
  let failed := reply 500 "Failed to logout from all devices" in
  match findById (reqId ru) (users w) with
  | inl _ => (failed, w)
  | inr found =>
    match select [] [] <$> found with
    | None => (reply 404 "User not found", w)
    | Some u =>
        match revokeAllRefreshTokens now (load u) (users w) with
        | inl _ => (failed, w)
        | inr (_, db1) =>
          (reply 200 "Logged out from all devices successfully", withUsers db1 w)
        end
    end
  end.

Definition changePassword (now : Z) (ru : ReqUser)
    (currentPassword newPassword : string) (w : World) : Response * World :=
  let failed := reply 500 "Failed to change password" in
  match findById (reqId ru) (users w) with
  | inl _ => (failed, w)
  | inr found =>
    match select ["password"; "passwordHistory"] [] <$> found with
    | None => (reply 404 "User not found", w)
    | Some u =>
      if negb (comparePassword currentPassword u) then
        (reply 400 "Current password is incorrect", w)
      else
        match isPasswordInHistory newPassword u with
        | inl _ => (failed, w)
        | inr true => (reply 400 "Cannot reuse a previous password", w)
        | inr false =>
          let m := assign "passwordLastChanged" (VDate now)
                     (assign "password" (VSecret (Plain newPassword)) (load u)) in
          match revokeAllRefreshTokens now m (users w) with
          | inl _ => (failed, w)
          | inr (m1, db1) =>
            match save now m1 db1 with
            | inl _ => (failed, withUsers db1 w)
            | inr (m2, db2) =>
              (reply 200
                 "Password changed successfully. Please login again with your new password.",
               withUsers db2 w)
            end
          end
        end
    end
  end.

End AuthController.

(** ** The server as a transition system

    One event per call that reaches the shared state: the handlers, a direct
    call of [blacklistToken], and the hourly clean-up.  The random identifiers
    a handler draws are part of its event. *)

Module Server.
Import Jwt UserModel AuthMiddleware AuthController.

Inductive Event :=
| Cleanup (now : Z)
| Blacklist (token : option Token)
| Authenticate (now : Z) (authorization : option (list Token))
| Refresh (now : Z) (uuidA uuidR : string) (body : option Token)
| Register (now : Z) (newId uuidA uuidR random : string) (c : Client)
    (fullNameIn emailIn passwordIn : string) (profileImageUrlIn : option string)
| Login (now : Z) (uuidA uuidR : string) (c : Client) (emailIn passwordIn : string)
| GetUser (now : Z) (ru : ReqUser)
| Logout (now : Z) (ru : ReqUser) (tokenToBlacklist : option Token)
    (authorization : option (list Token))
| LogoutAll (now : Z) (ru : ReqUser)
| ChangePassword (now : Z) (ru : ReqUser) (currentPassword newPassword : string).

Definition step (env : Env) (w : World) (e : Event) : World :=
  match e with
  | Cleanup now => cleanupExpiredTokens env now w
  | Blacklist t => blacklistToken t w
  | Authenticate now a => (authenticateToken env now a w).2
  | Refresh now ua ur b => (refreshAccessToken env now ua ur b w).2
  | Register now i ua ur rnd c f e p img =>
      (registerUser env now i ua ur rnd c f e p img w).2
  | Login now ua ur c e p => (loginUser env now ua ur c e p w).2
  | GetUser now ru => (getUserInfo now ru w).2
  | Logout now ru t a => (logoutUser now ru t a w).2
  | LogoutAll now ru => (logoutAllDevices now ru w).2
  | ChangePassword now ru c n => (changePassword now ru c n w).2
  end.

Definition run (env : Env) (w : World) (es : list Event) : World :=
  foldl (step env) w es.

(** The identifier an event gives to a refresh token it issues, if it issues
    one. *)
Definition refreshUuid (e : Event) : option string :=
  match e with
  | Refresh _ _ ur _ => Some ur
  | Register _ _ _ ur _ _ _ _ _ _ => Some ur
  | Login _ _ ur _ _ _ => Some ur
  | _ => None
  end.

(** A login attempt, apart from the address it is made on. *)
Record Attempt := mkAttempt {
  at_now : Z;
  at_uuidA : string;
  at_uuidR : string;
  at_client : Client;
  at_password : string
}.

Definition attemptOn (emailIn : string) (a : Attempt) : Event :=
  Login (at_now a) (at_uuidA a) (at_uuidR a) (at_client a) emailIn (at_password a).

Definition answerTo (env : Env) (emailIn : string) (a : Attempt) (w : World)
    : Http.Response * World :=
  loginUser env (at_now a) (at_uuidA a) (at_uuidR a) (at_client a) emailIn
    (at_password a) w.

End Server.

(** ** JavaScript strings, continued *)

Module JsText.

(** [s.toUpperCase()] on the ASCII letters. *)
Definition upperAscii (c : ascii) : ascii :=
  let n := N_of_ascii c in
  if ((97 <=? n) && (n <=? 122))%N then ascii_of_N (n - 32) else c.

Fixpoint toUpperCase (s : string) : string :=
  match s with
  | EmptyString => EmptyString
  | String c rest => String (upperAscii c) (toUpperCase rest)
  end.

(** [arr.join(sep)] *)
Fixpoint join (sep : string) (l : list string) : string :=
  match l with
  | [] => ""
  | [x] => x
  | x :: rest => x ++ sep ++ join sep rest
  end.

End JsText.

(** ** models/User.js, continued: methods and statics the handlers do not call *)

Module UserMethods.
Import Jwt UserModel.

#[export] Instance Digest_eq_dec : EqDecision Digest.
Proof. solve_decision. Defined.

(** The digest stored at a path. *)
Definition getDigest (k : string) (d : Doc) : option Digest :=
  match d !! k with Some (VDigest h) => Some h | _ => None end.

(** [random] is the hex string of the 32 random bytes, which the method
    returns; nothing is saved here. *)
Definition generatePasswordResetToken (now : Z) (random : string) (m : Loaded)
    : Loaded :=
  assign "resetPasswordExpires" (VDate (now + 60 * 60 * 1000))
    (assign "resetPasswordToken" (VDigest (Sha256 random)) m).

(** An element of [backupCodes], and its shape as a stored value. *)
Record BackupCode := mkBackupCode {
  code : Digest;
  used : bool;
  usedAt : option Z
}.

Definition ofBackupCode (bc : BackupCode) : Val :=
  VObj [("code", VDigest (code bc)); ("used", VBool (used bc));
        ("usedAt", match usedAt bc with Some t => VDate t | None => VNull end)].

Definition field (k : string) (o : list (string * Val)) : option Val :=
  snd <$> find (λ kv, bool_decide (kv.1 = k)) o.

(** [bc.code] and [bc.used] of an element; an element without a code matches
    no digest. *)
Definition toBackupCode (v : Val) : option BackupCode :=
  match v with
  | VObj o =>
      match field "code" o with
      | Some (VDigest c) =>
          Some (mkBackupCode c
                  (match field "used" o with Some (VBool true) => true | _ => false end)
                  (match field "usedAt" o with Some (VDate t) => Some t | _ => None end))
      | _ => None
      end
  | _ => None
  end.

(** [random i] is the hex string of the four random bytes drawn in round [i]
    of the loop.  Returns the ten codes; nothing is saved here. *)
Definition generateBackupCodes (random : nat → string) (m : Loaded)
    : list string * Loaded :=
  let codes := (λ i, JsText.toUpperCase (random i)) <$> seq 0 10 in
  (codes,
   assign "backupCodes"
     (VArr ((λ c, ofBackupCode (mkBackupCode (Sha256 c) false None)) <$> codes)) m).

(** [this.backupCodes.find(bc => bc.code === hashedCode && !bc.used)], with
    the element found marked as used. *)
Fixpoint useCode (hashedCode : Digest) (now : Z) (l : list Val) : option (list Val) :=
  match l with
  | [] => None
  | v :: rest =>
      if match toBackupCode v with
         | Some bc => bool_decide (code bc = hashedCode) && negb (used bc)
         | None => false
         end
      then Some (ofBackupCode (mkBackupCode hashedCode true (Some now)) :: rest)
      else (v ::.) <$> useCode hashedCode now rest
  end.

(** Marks the code in the loaded document; nothing is saved here. *)
Definition verifyBackupCode (now : Z) (codeIn : string) (m : Loaded) : bool * Loaded :=
  let hashedCode := Sha256 (JsText.toUpperCase codeIn) in
  match cur m !! "backupCodes" with
  | Some (VArr l) =>
      match useCode hashedCode now l with
      | Some l' => (true, assign "backupCodes" (VArr l') m)
      | None => (false, m)
      end
  | _ => (false, m)
  end.

End UserMethods.

Module UserStatics.
Import Jwt UserModel UserMethods.

(** [status: { $ne: 'deleted' }] *)
Definition notDeleted (d : Doc) : bool :=
  negb (bool_decide (status d = Some "deleted")).

(** [k: { $gt: Date.now() }] on a date path: a missing date and [null] match
    nothing. *)
Definition dateAfter (k : string) (now : Z) (d : Doc) : bool :=
  match getDate k d with
  | Some t => bool_decide (now < t)
  | None => false
  end.

(** The statics return the query; what it finds is given here as the stored
    document, before any projection. *)
Definition findByVerificationToken (token : string) (now : Z) (db : DB) : option Doc :=
  let hashedToken := Sha256 token in
  findOne (λ d, bool_decide (getDigest "emailVerificationToken" d = Some hashedToken)
                && dateAfter "emailVerificationExpires" now d
                && notDeleted d) db.

Definition findByResetToken (token : string) (now : Z) (db : DB) : option Doc :=
  let hashedToken := Sha256 token in
  findOne (λ d, bool_decide (getDigest "resetPasswordToken" d = Some hashedToken)
                && dateAfter "resetPasswordExpires" now d
                && notDeleted d) db.

(** [$pull: { refreshTokens: cond }] *)
Definition pull (cond : RefreshEntry → bool) (d : Doc) : Doc :=
  match d !! "refreshTokens" with
  | Some (VTokens l) => <["refreshTokens" := VTokens (filter (λ e, cond e = false) l)]> d
  | _ => d
  end.

(** [User.cleanupExpiredTokens()]: one [updateMany] over the whole
    collection. *)
Definition cleanupExpiredTokens (now : Z) (db : DB) : DB :=
  (λ d, dropPaths ["resetPasswordToken"; "resetPasswordExpires";
                   "emailVerificationToken"; "emailVerificationExpires"]
          (pull (λ e, bool_decide (expiresAt e < now) || isRevoked e) d)) <$> db.

(** [$push: { loginHistory: { $each: [], $slice: -50 } }] *)
Definition sliceLoginHistory (d : Doc) : Doc :=
  <["loginHistory" := VLogins (Js.sliceLast 50 (loginHistory d))]> d.

Definition performMaintenance (now : Z) (db : DB) : DB :=
  sliceLoginHistory <$> cleanupExpiredTokens now db.

End UserStatics.

(** ** middleware/authMiddleware.js, continued: the guards behind the session
    middleware *)

Module Guards.
Import Jwt UserModel AuthMiddleware Http.

(** A middleware answers the request or calls [next()]. *)
Inductive Verdict :=
| Reject (r : Response)
| Pass.

(** The argument of [requireRole]: one role, or an array of roles. *)
Inductive Roles :=
| OneRole (r : string)
| RoleArray (rs : list string).

Definition requireRole (roles : Roles) (reqUser : option ReqUser) : Verdict :=
  let userRole := Js.strOr (reqRole <$> reqUser) "user" in
  let allowedRoles :=
    match roles with
    | RoleArray rs => rs
    | OneRole r => [r]
    end in
  if negb (bool_decide (userRole ∈ allowedRoles)) then
    Reject (reply 403
              ("Access denied. Required role(s): " ++ JsText.join ", " allowedRoles))
  else Pass.

Definition requireAdmin : option ReqUser → Verdict :=
  requireRole (RoleArray ["admin"; "super-admin"]).

(** Answers, or leaves the token on the request as [req.tokenToBlacklist]. *)
Definition validateTokenForLogout (authorization : option (list Token))
    : Response + Token :=
  match bearer authorization with
  | Some token =>
      if negb (truthy token) then inl (reply 400 "No token provided for logout")
      else inr token
  | None => inl (reply 400 "No token provided for logout")
  end.

End Guards.

(** ** routes/authRoutes.js: the chain behind [POST /logout]

    The rate limiter in front of the chain is taken to let the request
    through. *)

Module AuthRoutes.
Import Jwt UserModel AuthMiddleware AuthController Guards Http.

Definition logout (env : Env) (now : Z) (authorization : option (list Token))
    (w : World) : Response * World :=
  match authenticateToken env now authorization w with
  | (Respond r, w1) => (r, w1)
  | (Next reqUser _, w1) =>
      match validateTokenForLogout authorization with
      | inl r => (r, w1)
      | inr tokenToBlacklist =>
          logoutUser now reqUser (Some tokenToBlacklist) authorization w1
      end
  end.

End AuthRoutes.

(** ** middleware/validation.js: the date-range check of the listing routes *)

Module Validation.
Import Http Guards.

(** A date parameter of the query string: [None] when it is absent or empty,
    [Some None] when [new Date] of it is an invalid date, [Some (Some t)] when
    it is the instant [t]. *)
Definition validateDateRange (startDate endDate : option (option Z)) : Verdict :=
  match startDate, endDate with
  | Some start, Some end_ =>
      match start, end_ with
      | Some s, Some e =>
          if bool_decide (e ≤ s) then
            Reject (reply 400 "Start date must be before end date")
          else
            let daysDiff := (inject_Z (e - s) / inject_Z (1000 * 60 * 60 * 24))%Q in
            if negb (Qle_bool daysDiff (inject_Z 365)) then
              Reject (reply 400 "Date range cannot exceed 365 days")
            else Pass
      | _, _ => Reject (reply 400 "Invalid date format provided")
      end
  | _, _ => Pass
  end.

End Validation.

(** ** The specification's wording, for comparison with the code *)

Module Spec.
Import Jwt UserModel AuthMiddleware.

(** The checks of the session middleware, in the order the specification
    gives them. *)
Inductive Check :=
| MissingToken
| Blacklisted
| SignatureExpiry
| TokenType
| SubjectExists
| AccountActive
| NotLocked.

Definition pipeline : list Check :=
  [MissingToken; Blacklisted; SignatureExpiry; TokenType; SubjectExists;
   AccountActive; NotLocked].

(** Every failing check answers 401, the account-locked check 423. *)
Definition statusOf (c : Check) : Z :=
  match c with
  | NotLocked => 423
  | _ => 401
  end.

(** The subject a presented token names. *)
Definition subject (authorization : option (list Token)) (w : World) : option Doc :=
  c ← bearer authorization ≫= decode; byId (tok_id c) (users w).

(** Whether a check, taken on its own, fails for a request. *)
Definition fails (env : Env) (now : Z) (authorization : option (list Token))
    (w : World) (c : Check) : bool :=
  match c with
  | MissingToken =>
      match bearer authorization with
      | Some t => negb (truthy t)
      | None => true
      end
  | Blacklisted =>
      match bearer authorization with
      | Some t => isTokenBlacklisted t w
      | None => false
      end
  | SignatureExpiry =>
      match bearer authorization with
      | Some t =>
          match verify now t (getCurrentJWTSecret env) (issuer env) (audience env) with
          | inl _ => true
          | inr _ => false
          end
      | None => false
      end
  | TokenType =>
      match bearer authorization ≫= decode with
      | Some c => negb (bool_decide (tok_tokenType c = "access"))
      | None => false
      end
  | SubjectExists =>
      match bearer authorization ≫= decode with
      | Some c => bool_decide (byId (tok_id c) (users w) = None)
      | None => false
      end
  | AccountActive =>
      match subject authorization w with
      | Some u => notActive u
      | None => false
      end
  | NotLocked =>
      match subject authorization w with
      | Some u => isLocked now u
      | None => false
      end
  end.

Definition firstFailure (env : Env) (now : Z) (authorization : option (list Token))
    (w : World) : option Check :=
  find (fails env now authorization w) pipeline.

(** The message by which the middleware names the check that failed.  The
    signature/expiry check has one message for a token that has expired and
    one for every other failure; the locked check tells the minutes left. *)
Definition blames (c : Check) (msg : string) : Prop :=
  match c with
  | MissingToken => msg = "Access token is required"
  | Blacklisted => msg = "Token has been revoked"
  | SignatureExpiry =>
      msg = "Invalid token format" ∨ msg = "Token has expired. Please login again."
  | TokenType => msg = "Invalid token type"
  | SubjectExists => msg = "User no longer exists"
  | AccountActive => msg = "Account has been deactivated"
  | NotLocked =>
      ∃ n : Z, msg = "Account is temporarily locked. Try again in "
                     ++ pretty n ++ " minutes."
  end.

(** The requests on which the look-up of the subject throws: none of the
    checks before it fails, and the subject the token names is not an
    ObjectId. *)
Definition lookupThrows (env : Env) (now : Z) (authorization : option (list Token))
    (w : World) : bool :=
  match find (fails env now authorization w)
          [MissingToken; Blacklisted; SignatureExpiry; TokenType],
        bearer authorization ≫= decode with
  | None, Some c => negb (isObjectId (tok_id c))
  | _, _ => false
  end.

(** The only side effect of a rejection: a token whose subject is gone is
    blacklisted. *)
Definition sideEffect (c : Check) (authorization : option (list Token))
    (w : World) : World :=
  match c with
  | SubjectExists => blacklistToken (bearer authorization) w
  | _ => w
  end.

(** "A refresh token is valid iff its signature verifies and its unique id
    exists in the owning user's active-token list and is not marked revoked
    and has not passed its expiry." *)
Definition refreshValid (env : Env) (now : Z) (t : Token) (w : World) : bool :=
  match t with
  | Signed k c =>
      bool_decide (k = getRefreshSecret env)
      && match byId (tok_id c) (users w) with
         | Some owner =>
             existsb (λ e, bool_decide (jti e = tok_jti c)
                           && negb (isRevoked e)
                           && bool_decide (now < expiresAt e))
               (UserModel.refreshTokens owner)
         | None => false
         end
  | NotJwt _ => false
  end.

(** The fields the responses must never carry. *)
Definition sensitive : list string :=
  ["password"; "refreshTokens"; "twoFactorSecret"; "passwordHistory";
   "backupCodes"; "resetPasswordToken"; "emailVerificationToken"].

End Spec.

(** ** Vocabulary of the invariants *)

Module Invariants.
Import Jwt UserModel AuthMiddleware AuthController Server.

(** A controller leaves the blacklist alone and adds at most one entry to the
    refresh-token map, under the identifier it draws. *)
Definition upToInsert (ur : string) (w w' : World) : Prop :=
  tokenBlacklist w' = tokenBlacklist w
  ∧ ∀ j, j ≠ ur → refreshTokens w !! j = None → refreshTokens w' !! j = None.

(** The blacklist is a set of at most 10,000 tokens. *)
Definition bounded (w : World) : Prop :=
  NoDup (tokenBlacklist w) ∧ Z.of_nat (length (tokenBlacklist w)) ≤ 10000.

(** Every event keeps the blacklist bounded, and adds no entry to the
    refresh-token map except under the identifier it draws for a new refresh
    token. *)
Definition evolves (ur : option string) (w w' : World) : Prop :=
  (bounded w → bounded w')
  ∧ ∀ j, Some j ≠ ur → refreshTokens w !! j = None →
         refreshTokens w' !! j = None.

(** An event puts at most one token on a blacklist that is not full, and
    takes none off it. *)
Definition keepsRevoked (w w' : World) : Prop :=
  Z.of_nat (length (tokenBlacklist w)) < 10000 →
  Z.of_nat (length (tokenBlacklist w')) ≤ Z.of_nat (length (tokenBlacklist w)) + 1
  ∧ ∀ x, x ∈ tokenBlacklist w → x ∈ tokenBlacklist w'.

(** The typed reads depend on one path each. *)
Definition agreeOn (ks : list string) (d d' : Doc) : Prop :=
  Forall (λ k, d !! k = d' !! k) ks.

(** The conditions the handler tests before it mints, in its own order. *)
Definition refreshGates (env : Env) (now : Z) (body : option Token) (w : World)
    : Prop :=
  ∃ t c info u,
    body = Some t
    ∧ truthy t = true
    ∧ isTokenBlacklisted t w = false
    ∧ verify now t (getRefreshSecret env) (issuer env) (audience env) = inr c
    ∧ tok_tokenType c = "refresh"
    ∧ refreshTokens w !! tok_jti c = Some info
    ∧ findById (tok_id c) (users w) = inr (Some u)
    ∧ notActive (select [] ["password"] u) = false.

(** The requests on which the look-up of the subject throws: the tests before
    it pass, and the subject the token names is not an ObjectId. *)
Definition refreshThrows (env : Env) (now : Z) (body : option Token) (w : World)
    : Prop :=
  ∃ t c info,
    body = Some t
    ∧ truthy t = true
    ∧ isTokenBlacklisted t w = false
    ∧ verify now t (getRefreshSecret env) (issuer env) (audience env) = inr c
    ∧ tok_tokenType c = "refresh"
    ∧ refreshTokens w !! tok_jti c = Some info
    ∧ isObjectId (tok_id c) = false.

(** The paths the login decision reads.  No [save] of the login handler writes
    any of them; [updateOne] writes the last two. *)
Definition guarded : list string :=
  ["_id"; "email"; "status"; "password"; "maxLoginAttempts"; "lockTime";
   "loginAttempts"; "lockUntil"].

Definition credentials : list string :=
  ["_id"; "email"; "status"; "password"; "maxLoginAttempts"; "lockTime"].

(** What a [save]-based method of the login handler does, when its [save]
    goes through, to the document in memory [c] and to the stored one [s]:
    both keep the guarded paths, the document in memory is one that has
    passed the validation, and the stored one stays valid and keeps its
    password history. *)
Definition keepsGuarded (c s : Doc) (pre post : DB) (r : Loaded * DB) : Prop :=
  ∃ c' s', r = (mkLoaded c' [] false, (pre ++ s' :: post)%list)
           ∧ agreeOn guarded c c' ∧ agreeOn guarded s s'
           ∧ validate c' = true
           ∧ (validate s = true → validate s' = true)
           ∧ s' !! "passwordHistory" = s !! "passwordHistory".

(** The document [s] is the one a login with address [e] finds, and the first
    one with its [_id]. *)
Definition storedAt (e : string) (db pre post : DB) (s : Doc) : Prop :=
  db = (pre ++ s :: post)%list
  ∧ Forall (λ d, emailNotDeleted e d = false ∧ hasId (docId s) d = false) pre
  ∧ emailNotDeleted e s = true.

(** The account as it is stored in [w]: a valid document with the credentials
    and the password history of [s0], [k] failures on the counter and the
    lock [lk]. *)
Definition account (emailIn : string) (s0 : Doc) (w : World) (k : Z)
    (lk : option Z) : Prop :=
  ∃ pre post s,
    storedAt (Js.toLowerCase emailIn) (users w) pre post s
    ∧ agreeOn credentials s0 s
    ∧ loginAttempts s = k ∧ lockUntil s = lk
    ∧ validate s = true
    ∧ s !! "passwordHistory" = s0 !! "passwordHistory".

(** A client whose address and user agent pass the validators of an element
    of [loginHistory] ... *)
Definition recordable (c : Client) : bool :=
  negb (bool_decide (clientIP c = ""))
  && bool_decide (Js.len (userAgentOf c) ≤ 500).

(** ... and one that can log in: its address passes the validator of
    [lastLoginIP] as well, and the device description made of the two that
    of [refreshTokens.deviceInfo]. *)
Definition admissible (c : Client) : bool :=
  recordable c
  && ipPattern (clientIP c)
  && bool_decide (Js.len (userAgentOf c ++ " - " ++ clientIP c) ≤ 200).

(** Two worlds the refresh endpoint cannot tell apart: the same containers,
    and under every [_id] a document with the same [status]. *)
Definition sameForRefresh (w w' : World) : Prop :=
  tokenBlacklist w' = tokenBlacklist w
  ∧ refreshTokens w' = refreshTokens w
  ∧ ∀ ident, (λ d, d !! "status") <$> byId ident (users w')
             = (λ d, d !! "status") <$> byId ident (users w).

End Invariants.

(** ** Concrete requests and worlds, used to exercise the statements below *)

Module Scenario.
Import Jwt UserModel AuthMiddleware AuthController Server Http.

(** Ten thousand distinct access tokens, all blacklisted. *)
Definition fillerToken (i : Z) : Token :=
  generateToken noEnv (i * 1000) "0b9c1f0e-7d1c-4d55-9a57-3a4df1a6c001"
    (mkIdentity "64f0c0ffee0000000000a11c" "alice@example.com" (Some "user")).

Definition fullBlacklist : list Token := fillerToken <$> seqZ 0 10000.

Definition fullWorld : World := mkWorld fullBlacklist ∅ [].

(** Alice registers, then logs in from a second device. *)
Definition laptop : Client :=
  mkClient "203.0.113.7" (Some "Mozilla/5.0 (X11; Linux x86_64)") None None.

Definition phone : Client :=
  mkClient "198.51.100.23" (Some "Mozilla/5.0 (Android 14; Mobile)")
    (Some "DE") (Some "Europe/Berlin").

Definition t0 : Z := 1700000000000.

Definition registered : Response * World :=
  registerUser noEnv t0 "64f0c0ffee0000000000a11c"
    "0b9c1f0e-7d1c-4d55-9a57-3a4df1a6c001" "5e0f6a51-2c13-4a8e-b1a0-6d2f0c9e7b02"
    "9f3c2a" laptop "Alice Liddell" "Alice@Example.com" "Passw0rd!" None
    emptyWorld.

Definition loggedIn : Response * World :=
  loginUser noEnv (t0 + 60000)
    "a3d1e9c4-8f21-4b0a-9c43-1f7e5d2b8a03" "c7b2f4d6-3e58-4c9d-8a14-2b6f9e0d1c04"
    phone "alice@example.com" "Passw0rd!" registered.2.

(** The refresh token the login handed out. *)
Definition loginRefreshToken : Token :=
  Signed (getRefreshSecret noEnv)
    (mkClaims "64f0c0ffee0000000000a11c" "alice@example.com" None "refresh"
       1700000060 1700604860 "expense-tracker" "expense-tracker-users"
       "c7b2f4d6-3e58-4c9d-8a14-2b6f9e0d1c04").

(** [req.user] for Alice, as the session middleware sets it. *)
Definition aliceReq : ReqUser :=
  mkReqUser "64f0c0ffee0000000000a11c" "alice@example.com" "user"
    "a3d1e9c4-8f21-4b0a-9c43-1f7e5d2b8a03" (Some "Alice Liddell") None.

(** The phone rotates its refresh token an hour later. *)
Definition rotated : Response * World :=
  refreshAccessToken noEnv (t0 + 3600000)
    "d1a7c3e5-6b40-4f2e-9d81-7c5a3f1e0b05" "e9f8b7a6-5c4d-4e3f-8a2b-1c0d9e8f7a06"
    (Some loginRefreshToken) loggedIn.2.

(** The refresh token the rotation handed out. *)
Definition rotatedRefreshToken : Token :=
  Signed (getRefreshSecret noEnv)
    (mkClaims "64f0c0ffee0000000000a11c" "alice@example.com" None "refresh"
       1700003600 1700608400 "expense-tracker" "expense-tracker-users"
       "e9f8b7a6-5c4d-4e3f-8a2b-1c0d9e8f7a06").

(** Instead of rotating, Alice logs out from all devices, or changes her
    password, two minutes after the login. *)
Definition loggedOutEverywhere : Response * World :=
  logoutAllDevices (t0 + 120000) aliceReq loggedIn.2.

Definition passwordChanged : Response * World :=
  changePassword (t0 + 120000) aliceReq "Passw0rd!" "N3w-Passw0rd!" loggedIn.2.

(** She logs out on the phone instead; the access token of the login goes on
    the blacklist.  Two hours later that token has expired as well. *)
Definition loginAccessToken : Token :=
  generateToken noEnv (t0 + 60000) "a3d1e9c4-8f21-4b0a-9c43-1f7e5d2b8a03"
    (mkIdentity "64f0c0ffee0000000000a11c" "alice@example.com" (Some "user")).

Definition loggedOut : Response * World :=
  logoutUser (t0 + 120000) aliceReq (Some loginAccessToken) None loggedIn.2.

Definition bearerHeader (t : Token) : option (list Token) :=
  Some [NotJwt "Bearer"; t].

(** Somebody tries four wrong passwords on Alice's account, a minute apart,
    starting a day after her login. *)
Definition guess (n : Z) (pw : string) : Event :=
  Login (t0 + 86400000 + n * 60000) "f00dfeed-0000-4000-8000-0000000000a1"
    "f00dfeed-0000-4000-8000-0000000000a2" laptop "alice@example.com" pw.

Definition fourGuesses : list Event :=
  [guess 1 "password"; guess 2 "123456"; guess 3 "alice"; guess 4 "Passw0rd"].

Definition afterFourGuesses : World := run noEnv loggedIn.2 fourGuesses.

(** Five wrong guesses, then Alice herself: once ten minutes after the last
    guess, once an hour after it. *)
Definition guessing (n : Z) (pw : string) : Attempt :=
  mkAttempt (t0 + 86400000 + n * 60000) "f00dfeed-0000-4000-8000-0000000000a1"
    "f00dfeed-0000-4000-8000-0000000000a2" laptop pw.

Definition fiveGuesses : list Attempt :=
  [guessing 1 "password"; guessing 2 "123456"; guessing 3 "alice";
   guessing 4 "Passw0rd"; guessing 5 "passw0rd!"].

Definition aliceSoon : Attempt :=
  mkAttempt (t0 + 86400000 + 15 * 60000) "f00dfeed-0000-4000-8000-0000000000b1"
    "f00dfeed-0000-4000-8000-0000000000b2" phone "Passw0rd!".

Definition aliceSoonAgain : Attempt :=
  mkAttempt (t0 + 86400000 + 25 * 60000) "f00dfeed-0000-4000-8000-0000000000d1"
    "f00dfeed-0000-4000-8000-0000000000d2" phone "Passw0rd!".

Definition aliceLater : Attempt :=
  mkAttempt (t0 + 86400000 + 65 * 60000) "f00dfeed-0000-4000-8000-0000000000c1"
    "f00dfeed-0000-4000-8000-0000000000c2" phone "Passw0rd!".

(** Alice an hour after the last guess, on the machine the server runs on:
    the address of the connection is the IPv6 loop-back address. *)
Definition aliceLoopback : Attempt :=
  mkAttempt (t0 + 86400000 + 65 * 60000) "f00dfeed-0000-4000-8000-0000000000e1"
    "f00dfeed-0000-4000-8000-0000000000e2"
    (mkClient "::1" (Some "Mozilla/5.0 (X11; Linux x86_64)") None None) "Passw0rd!".

(** The world after the five guesses and Alice's first try. *)
Abbreviation lockedOut :=
  (run noEnv
     (run noEnv loggedIn.2 (attemptOn "alice@example.com" <$> fiveGuesses))
     (attemptOn "alice@example.com" <$> [aliceSoon])).

Abbreviation aliceByEmail w := (findByEmail "alice@example.com" (users w)).

(** Alice's stored document. *)
Abbreviation aliceIn w := (byId "64f0c0ffee0000000000a11c" (users w)).

End Scenario.

(** ** Vocabulary of the account properties *)

Module Upkeep.
Import Jwt UserModel AuthMiddleware AuthController Server.

(** [passwordHistory] after the pre-save hook has pushed an entry: the last
    five. *)
Definition lastFive (h : list PasswordEntry) : list PasswordEntry :=
  if bool_decide (5 < Z.of_nat (length h)) then Js.sliceLast 5 h else h.

(** The three lists of a user document that the model's methods cap. *)
Definition capped (d : Doc) : Prop :=
  Z.of_nat (length (UserModel.refreshTokens d)) ≤ 5
  ∧ Z.of_nat (length (loginHistory d)) ≤ 50
  ∧ Z.of_nat (length (passwordHistory d)) ≤ 5.

(** The paths [capped] reads. *)
Definition kept : list string := ["refreshTokens"; "loginHistory"; "passwordHistory"].

(** What a [save]-based method does, when its [save] goes through, to the
    document in memory [c] that is stored as [s]: outside the paths [ks] both
    stay as they are, the document in memory is one that has passed the
    validation, and the stored one stays valid. *)
Definition leavesAlone (ks : list string) (c s : Doc) (pre post : DB)
    (r : Loaded * DB) : Prop :=
  ∃ c' s', r = (mkLoaded c' [] false, (pre ++ s' :: post)%list)
           ∧ (∀ k, k ∉ ks → c' !! k = c !! k)
           ∧ (∀ k, k ∉ ks → s' !! k = s !! k)
           ∧ validate c' = true
           ∧ (validate s = true → validate s' = true).

(** The paths a registration or a login writes after the document exists. *)
Definition sessionPaths : list string :=
  ["lastActiveAt"; "lastLoginIP"; "lastLogin"; "loginHistory"; "refreshTokens"].

(** The entry [loginUser] has [recordLogin] push for a request of client [c]:
    failures are recorded without a location. *)
Definition loginRecord (now : Z) (c : Client) (ok : bool) : LoginEntry :=
  mkLoginEntry now (clientIP c) (userAgentOf c) ok
    (if ok then locationOf c else [])
    (Md5Prefix16 (clientIP c ++ ":" ++ userAgentOf c)).

End Upkeep.

(** ** Further requests and worlds *)

Module Cases.
Import Jwt UserModel AuthMiddleware AuthController Server Http Scenario.

(** A token that names Alice but carries the role admin; her stored role is
    user. *)
Definition adminToken : Token :=
  generateToken noEnv (t0 + 60000) "b5c6d7e8-1a2b-4c3d-9e4f-5a6b7c8d9e0f"
    (mkIdentity "64f0c0ffee0000000000a11c" "alice@example.com" (Some "admin")).

Definition adminReq : ReqUser :=
  mkReqUser "64f0c0ffee0000000000a11c" "alice@example.com" "admin"
    "b5c6d7e8-1a2b-4c3d-9e4f-5a6b7c8d9e0f" (Some "Alice Liddell") None.

(** The access token the rotation handed out. *)
Definition rotatedAccessToken : Token :=
  generateToken noEnv (t0 + 3600000) "d1a7c3e5-6b40-4f2e-9d81-7c5a3f1e0b05"
    (mkIdentity "64f0c0ffee0000000000a11c" "alice@example.com" (Some "user")).

(** The four random bytes drawn in round [i] of [generateBackupCodes], in
    hex. *)
Definition draw (i : nat) : string := "c0ffee0" ++ pretty i.

(** Alice's document as a plain query loads it. *)
Definition aliceLoaded : Loaded := load (select [] [] (default ∅ (aliceIn loggedIn.2))).

(** An access token minted for Alice a day after her login, just before the
    wrong guesses start. *)
Definition dayTwoToken : Token :=
  generateToken noEnv (t0 + 86400000) "f00dfeed-0000-4000-8000-0000000000f1"
    (mkIdentity "64f0c0ffee0000000000a11c" "alice@example.com" (Some "user")).

End Cases.

(** * Properties *)

#[local] Arguments AuthMiddleware.blacklistToken : simpl never.
#[local] Arguments AuthMiddleware.generateToken : simpl never.
#[local] Arguments UserModel.select : simpl never.
#[local] Arguments UserModel.persist : simpl never.
#[local] Arguments UserModel.validate : simpl never.

(** ** Sets kept as insertion-ordered lists *)

Section SetLemmas.
Context {A : Type} `{EqDecision A}.
Implicit Types (x y : A) (s l : list A).

Lemma setAdd_elem x y s : y ∈ Js.setAdd x s ↔ y = x ∨ y ∈ s.
Proof.
  unfold Js.setAdd. case_decide.
  - split; [by right | by intros [-> | ?]].
  - rewrite elem_of_app, list_elem_of_singleton. tauto.
Qed.

Lemma setAdd_NoDup x s : NoDup s → NoDup (Js.setAdd x s).
Proof.
  intros Hs. unfold Js.setAdd. case_decide; [done |].
  apply NoDup_app. split_and!; [done | | apply NoDup_singleton].
  intros y Hy ->%list_elem_of_singleton. done.
Qed.

Lemma setAdd_length x s :
  (length s ≤ length (Js.setAdd x s) ≤ S (length s))%nat.
Proof.
  unfold Js.setAdd. case_decide; [lia |]. rewrite length_app. simpl. lia.
Qed.

Lemma setAdd_fresh x s : x ∉ s → Js.setAdd x s = (s ++ [x])%list.
Proof. intros. unfold Js.setAdd. by case_decide. Qed.

Lemma setHas_true x s : Js.setHas x s = true ↔ x ∈ s.
Proof. unfold Js.setHas. by rewrite bool_decide_eq_true. Qed.

Lemma setHas_false x s : Js.setHas x s = false ↔ x ∉ s.
Proof. unfold Js.setHas. by rewrite bool_decide_eq_false. Qed.

(** Filling an empty set from a duplicate-free array gives the array back. *)
Lemma refill_app s l :
  NoDup (s ++ l) → foldl (λ acc t, Js.setAdd t acc) s l = (s ++ l)%list.
Proof.
  revert s. induction l as [| y l IH]; intros s Hnd; simpl.
  - by rewrite app_nil_r.
  - assert (y ∉ s) as Hy.
    { apply NoDup_app in Hnd as (_ & Hd & _). intros Hin.
      apply (Hd y Hin). by left. }
    rewrite (setAdd_fresh _ _ Hy), IH; rewrite <- app_assoc; done.
Qed.

Lemma refill l : NoDup l → foldl (λ acc t, Js.setAdd t acc) [] l = l.
Proof. intros. by rewrite refill_app. Qed.

Lemma refill_length s l :
  (length (foldl (λ acc t, Js.setAdd t acc) s l) ≤ length s + length l)%nat.
Proof.
  revert s. induction l as [| y l IH]; intros s; simpl; [lia |].
  specialize (IH (Js.setAdd y s)). pose proof (setAdd_length y s). lia.
Qed.

Lemma refill_NoDup s l :
  NoDup s → NoDup (foldl (λ acc t, Js.setAdd t acc) s l).
Proof.
  revert s. induction l as [| y l IH]; intros s Hs; simpl; [done |].
  by apply IH, setAdd_NoDup.
Qed.

Lemma refill_elem s l y :
  y ∈ foldl (λ acc t, Js.setAdd t acc) s l ↔ y ∈ s ∨ y ∈ l.
Proof.
  revert s. induction l as [| z l IH]; intros s; simpl.
  - rewrite elem_of_nil. tauto.
  - rewrite IH, setAdd_elem, elem_of_cons. tauto.
Qed.

Lemma sliceLast_length (n : Z) l :
  0 ≤ n → length (Js.sliceLast n l) = Nat.min (Z.to_nat n) (length l).
Proof. intros. unfold Js.sliceLast. rewrite length_drop. lia. Qed.

Lemma sliceLast_NoDup (n : Z) l : NoDup l → NoDup (Js.sliceLast n l).
Proof.
  intros Hl. unfold Js.sliceLast.
  rewrite <- (take_drop (Z.to_nat (Z.of_nat (length l) - n)) l) in Hl.
  by apply NoDup_app in Hl as (_ & _ & ?).
Qed.

Lemma sliceLast_last (n : Z) l x : 0 < n → x ∈ Js.sliceLast n (l ++ [x]).
Proof.
  intros Hn. unfold Js.sliceLast. rewrite length_app. simpl.
  rewrite drop_app_le by lia. apply elem_of_app. right. by left.
Qed.

Lemma sliceLast_subset (n : Z) l x : x ∈ Js.sliceLast n l → x ∈ l.
Proof.
  unfold Js.sliceLast. intros Hx.
  rewrite <- (take_drop (Z.to_nat (Z.of_nat (length l) - n)) l).
  apply elem_of_app. by right.
Qed.

End SetLemmas.

(** ** The access-token blacklist *)

Section Blacklist.
Import Jwt UserModel AuthMiddleware Invariants.

Lemma blacklistToken_falsy t w :
  truthy t = false → blacklistToken (Some t) w = w.
Proof. intros Ht. unfold blacklistToken. by rewrite Ht. Qed.

Lemma blacklistToken_list t w :
  truthy t = true →
  tokenBlacklist (blacklistToken (Some t) w) =
    let inserted := Js.setAdd t (tokenBlacklist w) in
    if bool_decide (10000 < Z.of_nat (length inserted))
    then foldl (λ s t, Js.setAdd t s) [] (Js.sliceLast 5000 inserted)
    else inserted.
Proof. intros Ht. unfold blacklistToken. by rewrite Ht. Qed.

Lemma blacklistToken_NoDup t w :
  NoDup (tokenBlacklist w) → NoDup (tokenBlacklist (blacklistToken t w)).
Proof.
  intros Hnd. destruct t as [t |]; [| done].
  destruct (truthy t) eqn:Ht; [| by rewrite blacklistToken_falsy].
  rewrite blacklistToken_list by done. simpl. case_bool_decide.
  - apply refill_NoDup. constructor.
  - by apply setAdd_NoDup.
Qed.

Lemma blacklistToken_le t w :
  truthy t = true →
  Z.of_nat (length (tokenBlacklist (blacklistToken (Some t) w))) ≤ 10000.
Proof.
  intros Ht. rewrite blacklistToken_list by done. simpl. case_bool_decide.
  - pose proof (refill_length [] (Js.sliceLast 5000 (Js.setAdd t (tokenBlacklist w)))) as Hr.
    rewrite sliceLast_length in Hr by lia. cbn [length] in Hr. lia.
  - lia.
Qed.

(** A token that was not blacklisted is blacklisted once [blacklistToken]
    returns: it enters last, and the last 5,000 survive an eviction. *)
Lemma blacklistToken_member t w :
  truthy t = true → t ∉ tokenBlacklist w →
  t ∈ tokenBlacklist (blacklistToken (Some t) w).
Proof.
  intros Ht Hnot. rewrite blacklistToken_list by done. simpl.
  rewrite (setAdd_fresh _ _ Hnot). case_bool_decide.
  - apply refill_elem. right. by apply sliceLast_last.
  - apply elem_of_app. right. by left.
Qed.

End Blacklist.

(** ** What each handler does to the two in-memory containers *)

Section Containers.
Import Jwt UserModel AuthMiddleware AuthController Server Invariants.

Lemma blacklistToken_map_none t w j :
  refreshTokens w !! j = None → refreshTokens (blacklistToken t w) !! j = None.
Proof.
  intros Hj. unfold blacklistToken. destruct t as [t |]; [| done].
  destruct (truthy t); [| done]. simpl.
  destruct (decode t) as [c |]; [| done]. case_decide; [done |].
  rewrite lookup_delete. by case_decide.
Qed.

Lemma issuePair_containers env now ua ur device m w :
  let w' := (issuePair env now ua ur device m w).2 in
  tokenBlacklist w' = tokenBlacklist w
  ∧ refreshTokens w' =
      <[ur := mkTokenInfo (docId (cur m)) (UserModel.email (cur m)) now now]>
        (refreshTokens w).
Proof.
  unfold issuePair, generateRefreshToken, sign. cbn [decode].
  by destruct (addRefreshToken _ _ _ _ _ _ _) as [? | [? ?]].
Qed.

Lemma upToInsert_refl ur w : upToInsert ur w w.
Proof. by split. Qed.

Lemma upToInsert_users ur w db : upToInsert ur w (withUsers db w).
Proof. by split. Qed.

Lemma upToInsert_issuePair env now ua ur device m w db :
  upToInsert ur w (issuePair env now ua ur device m (withUsers db w)).2.
Proof.
  destruct (issuePair_containers env now ua ur device m (withUsers db w)) as [Hb Hr].
  split; [done |]. intros j Hj Hnone. rewrite Hr. simpl.
  by rewrite lookup_insert_ne.
Qed.

Lemma registerUser_containers env now i ua ur rnd c f e p img w :
  upToInsert ur w (registerUser env now i ua ur rnd c f e p img w).2.
Proof.
  unfold registerUser. destruct (findByEmail e (users w)); [apply upToInsert_refl |].
  destruct (create _ _ _ _ _) as [? | [m db1]]; [apply upToInsert_refl |].
  destruct (recordLogin _ _ _ _ _ _ _) as [? | [m2 db2]]; [apply upToInsert_users |].
  pose proof (upToInsert_issuePair env now ua ur
    (default "undefined" (userAgentHeader c) ++ " - " ++ clientIP c) m2 w db2) as H.
  by destruct (issuePair _ _ _ _ _ _ _) as [[? | [[? ?] ?]] ?].
Qed.

Lemma loginUser_containers env now ua ur c e p w :
  upToInsert ur w (loginUser env now ua ur c e p w).2.
Proof.
  unfold loginUser.
  destruct (select _ _ <$> findOne _ _) as [u |]; [| apply upToInsert_refl].
  repeat case_match; simplify_eq/=;
    try apply upToInsert_users; try apply upToInsert_refl.
  all: match goal with
       | H : issuePair ?env ?now ?ua ?ur ?dev ?m (withUsers ?db ?w) = _ |- _ =>
           pose proof (upToInsert_issuePair env now ua ur dev m w db) as Hi;
           by rewrite H in Hi
       end.
Qed.

Lemma getUserInfo_containers now ru w ur :
  upToInsert ur w (getUserInfo now ru w).2.
Proof.
  unfold getUserInfo. repeat case_match; simplify_eq/=;
    first [apply upToInsert_refl | apply upToInsert_users].
Qed.

Lemma logoutAllDevices_containers now ru w ur :
  upToInsert ur w (logoutAllDevices now ru w).2.
Proof.
  unfold logoutAllDevices. repeat case_match; simplify_eq/=;
    first [apply upToInsert_refl | apply upToInsert_users].
Qed.

Lemma changePassword_containers now ru cp np w ur :
  upToInsert ur w (changePassword now ru cp np w).2.
Proof.
  unfold changePassword. repeat case_match; simplify_eq/=;
    first [apply upToInsert_refl | apply upToInsert_users].
Qed.

Lemma evolves_refl ur w : evolves ur w w.
Proof. by split. Qed.

Lemma bounded_blacklistToken t w w0 :
  tokenBlacklist w0 = tokenBlacklist w →
  bounded w → bounded (blacklistToken t w0).
Proof.
  intros Heq [Hnd Hle]. split.
  - apply blacklistToken_NoDup. by rewrite Heq.
  - destruct t as [t |];
      [| change (blacklistToken None w0) with w0; by rewrite Heq].
    destruct (truthy t) eqn:Hty; [by apply blacklistToken_le |].
    by rewrite blacklistToken_falsy, Heq.
Qed.

Lemma upToInsert_evolves ur w w' : upToInsert ur w w' → evolves (Some ur) w w'.
Proof.
  intros [Hb Hr]. split; [unfold bounded; by rewrite Hb |].
  intros j Hj. apply Hr. congruence.
Qed.

Lemma string_cons_ne (a : ascii) (j : string) : j ≠ String a j.
Proof. induction j as [| b j IH]; [done |]. intros [= -> ?]. done. Qed.

Lemma upToInsert_evolves_none w w' :
  (∀ ur : string, upToInsert ur w w') → evolves None w w'.
Proof.
  intros H. split; [unfold bounded; by rewrite (proj1 (H "")) |].
  intros j _ Hj. destruct (H (String "x" j)) as [_ Hr]. apply Hr; [| done].
  apply string_cons_ne.
Qed.

Lemma blacklistToken_evolves ur t w : evolves ur w (blacklistToken t w).
Proof.
  split; [by apply bounded_blacklistToken |].
  intros j _. apply blacklistToken_map_none.
Qed.

Lemma cleanupExpiredTokens_evolves ur env now w :
  evolves ur w (cleanupExpiredTokens env now w).
Proof.
  split.
  - intros [Hnd Hle]. unfold cleanupExpiredTokens, bounded. cbn [tokenBlacklist].
    by rewrite bool_decide_false by lia.
  - intros j _ Hj. unfold cleanupExpiredTokens. cbn [refreshTokens].
    apply map_lookup_filter_None. by left.
Qed.

Lemma authenticateToken_evolves env now a w :
  evolves None w (authenticateToken env now a w).2.
Proof.
  unfold authenticateToken.
  repeat case_match; simplify_eq/=;
    first [apply evolves_refl | apply blacklistToken_evolves].
Qed.

Lemma logoutUser_evolves now ru t a w :
  evolves None w (logoutUser now ru t a w).2.
Proof.
  unfold logoutUser. simpl.
  repeat case_match; simplify_eq/=;
    first [apply evolves_refl | apply blacklistToken_evolves
          | (split; [by apply bounded_blacklistToken |];
             intros j _; apply blacklistToken_map_none)].
Qed.

Lemma refreshAccessToken_evolves env now ua ur b w :
  evolves (Some ur) w (refreshAccessToken env now ua ur b w).2.
Proof.
  unfold refreshAccessToken, generateRefreshToken, sign.
  repeat case_match; simplify_eq/=; try apply evolves_refl.
  all: split; [by apply bounded_blacklistToken |].
  all: intros j Hj Hnone; cbn [refreshTokens].
  all: rewrite ?lookup_insert_ne by congruence.
  all: rewrite lookup_delete; destruct (decide (_ = j)); [done |].
  all: apply blacklistToken_map_none; cbn [refreshTokens].
  all: rewrite ?lookup_insert_ne by congruence; done.
Qed.

Lemma step_evolves env w e : evolves (refreshUuid e) w (step env w e).
Proof.
  destruct e; cbn [step refreshUuid].
  - apply cleanupExpiredTokens_evolves.
  - apply blacklistToken_evolves.
  - apply authenticateToken_evolves.
  - apply refreshAccessToken_evolves.
  - apply upToInsert_evolves, registerUser_containers.
  - apply upToInsert_evolves, loginUser_containers.
  - apply upToInsert_evolves_none. intros. apply getUserInfo_containers.
  - apply logoutUser_evolves.
  - apply upToInsert_evolves_none. intros. apply logoutAllDevices_containers.
  - apply upToInsert_evolves_none. intros. apply changePassword_containers.
Qed.

(** An identifier that is absent from the refresh-token map stays absent as
    long as no event draws it again. *)
Lemma run_map_none env es w j :
  Forall (λ e, refreshUuid e ≠ Some j) es →
  refreshTokens w !! j = None →
  refreshTokens (run env w es) !! j = None.
Proof.
  unfold run. revert w. induction es as [| e es IH]; intros w Hes Hj; [done |].
  inversion_clear Hes as [| ? ? He Hes']. simpl. apply IH; [done |].
  destruct (step_evolves env w e) as [_ Hm]. apply Hm; [congruence | done].
Qed.

(** In every world the server can reach, the blacklist is a set of at most
    10,000 tokens. *)
Lemma run_bounded env es w : bounded w → bounded (run env w es).
Proof.
  unfold run. revert w. induction es as [| e es IH]; intros w Hw; [done |].
  simpl. apply IH. by apply (step_evolves env w e).
Qed.

Lemma reachable_bounded env es : bounded (run env emptyWorld es).
Proof. apply run_bounded. split; [constructor | simpl; lia]. Qed.

End Containers.

(** ** C9: the blacklist is bounded *)

Section BlacklistBound.
Import Jwt UserModel AuthMiddleware Scenario Invariants.

(** C9.  The blacklist is a set, kept in insertion order.  After
    [blacklistToken] has been called with a token, the blacklist holds at most
    10,000 entries; when the insertion takes the set past 10,000, exactly the
    5,000 most recently inserted entries (the new one among them) are kept,
    and otherwise nothing is evicted. *)
Theorem C9_blacklist_bounded (t : Token) (w : World) :
  NoDup (tokenBlacklist w) →
  truthy t = true →
  let inserted := Js.setAdd t (tokenBlacklist w) in
  let after := tokenBlacklist (blacklistToken (Some t) w) in
  Z.of_nat (length after) ≤ 10000
  ∧ NoDup after
  ∧ (10000 < Z.of_nat (length inserted) →
       after = Js.sliceLast 5000 inserted
       ∧ Z.of_nat (length after) = 5000
       ∧ (t ∉ tokenBlacklist w → t ∈ after))
  ∧ (Z.of_nat (length inserted) ≤ 10000 → after = inserted).
Proof.
  intros Hnd Ht inserted after.
  split_and!.
  - by apply blacklistToken_le.
  - by apply blacklistToken_NoDup.
  - intros Hover. unfold after. rewrite blacklistToken_list by done.
    cbn zeta. fold inserted. rewrite bool_decide_true by done.
    assert (NoDup (Js.sliceLast 5000 inserted)) as Hs
      by by apply sliceLast_NoDup, setAdd_NoDup.
    rewrite (refill _ Hs). split_and!; [done | |].
    + rewrite sliceLast_length by lia. lia.
    + intros Hfresh. unfold inserted. rewrite (setAdd_fresh _ _ Hfresh).
      by apply sliceLast_last.
  - intros Hle. unfold after. rewrite blacklistToken_list by done.
    cbn zeta. fold inserted. by rewrite bool_decide_false by lia.
Qed.

Lemma fillerToken_inj : Inj (=) (=) fillerToken.
Proof.
  intros i j [= H]. rewrite !Z.div_mul in H by lia. done.
Qed.

Lemma fullBlacklist_NoDup : NoDup fullBlacklist.
Proof.
  unfold fullBlacklist. apply NoDup_fmap_2; [apply fillerToken_inj |].
  apply NoDup_seqZ.
Qed.

Lemma fullBlacklist_fresh : fillerToken 10000 ∉ fullBlacklist.
Proof.
  unfold fullBlacklist.
  intros (i & Hi%fillerToken_inj & Hin%elem_of_seqZ)%list_elem_of_fmap. lia.
Qed.

Lemma fullBlacklist_length : length fullBlacklist = Z.to_nat 10000.
Proof. unfold fullBlacklist. by rewrite length_fmap, length_seqZ. Qed.

Lemma fullWorld_over :
  10000 < Z.of_nat (length (Js.setAdd (fillerToken 10000) (tokenBlacklist fullWorld))).
Proof.
  change (tokenBlacklist fullWorld) with fullBlacklist.
  pose proof (setAdd_fresh _ _ fullBlacklist_fresh) as E.
  rewrite E, length_app, fullBlacklist_length. cbn [length]. lia.
Qed.

(** With 10,000 tokens blacklisted, one more insertion leaves 5,000. *)
Lemma C9_blacklist_bounded_witness :
  Z.of_nat (length (tokenBlacklist
    (blacklistToken (Some (fillerToken 10000)) fullWorld))) = 5000
  ∧ fillerToken 10000 ∈
      tokenBlacklist (blacklistToken (Some (fillerToken 10000)) fullWorld).
Proof.
  pose proof (C9_blacklist_bounded (fillerToken 10000) fullWorld
                fullBlacklist_NoDup eq_refl) as H.
  cbv zeta in H. destruct H as (_ & _ & Hover & _).
  destruct (Hover fullWorld_over) as (_ & Hlen & Hin).
  split; [exact Hlen | exact (Hin fullBlacklist_fresh)].
Defined.

End BlacklistBound.

(** ** Paths of a document *)

(** Closes a goal [k ∉ [k1; ...; kn]] between literal path names. *)
Ltac path_not_in :=
  by repeat (apply not_elem_of_cons; split; [done |]); apply not_elem_of_nil.

(** Closes [k1 ≠ k] or [k ≠ k1] when [Hk] lists the literal paths [k] is among
    and [k1] is not one of them. *)
Ltac other_path Hk :=
  let E := fresh in intros E; subst; revert Hk; path_not_in.

Ltac path_in := by repeat (first [apply list_elem_of_here | apply list_elem_of_further]).

(** A query that is known to find something finds it. *)
Lemma found_default {A} (x : option A) (d : A) :
  (if x is Some _ then true else false) = true → x = Some (default d x).
Proof. by destruct x. Qed.

Section Documents.
Import UserModel Invariants.

Lemma dropPaths_lookup (ks : list string) (d : Doc) (k : string) :
  dropPaths ks d !! k = if decide (k ∈ ks) then None else d !! k.
Proof.
  unfold dropPaths. induction ks as [| a ks IH]; cbn [foldr].
  - case_decide as H; [by apply elem_of_nil in H | done].
  - rewrite lookup_delete, IH. repeat case_decide; try done; set_solver.
Qed.

Lemma hideHashes_lookup (d : Doc) (k : string) :
  k ≠ "passwordHistory" → hideHashes d !! k = d !! k.
Proof.
  intros Hk. unfold hideHashes. repeat case_match; try done.
  by rewrite lookup_insert_ne.
Qed.

Lemma hideHashes_history (d : Doc) :
  passwordHistory (hideHashes d)
  = (λ e, mkPasswordEntry None (changedAt e)) <$> passwordHistory d.
Proof.
  unfold hideHashes, passwordHistory.
  destruct (d !! "passwordHistory") as [[] |] eqn:E; rewrite ?E; try done.
  by rewrite lookup_insert_eq.
Qed.

(** The paths other than [passwordHistory] are loaded as they are stored,
    unless they are hidden or deselected. *)
Lemma select_lookup (plus minus : list string) (d : Doc) (k : string) :
  k ∉ hiddenPaths → k ∉ minus → k ≠ "passwordHistory" →
  select plus minus d !! k = d !! k.
Proof.
  intros Hh Hm Hk. unfold select. rewrite !dropPaths_lookup.
  destruct (decide (k ∈ minus)); [done |].
  destruct (decide (k ∈ _)) as [[_ ?]%list_elem_of_filter |]; [done |].
  case_decide; [done | by apply hideHashes_lookup].
Qed.

Lemma select_lookup_plus (plus minus : list string) (d : Doc) (k : string) :
  k ∈ plus → k ∉ minus → k ≠ "passwordHistory" →
  select plus minus d !! k = d !! k.
Proof.
  intros Hp Hm Hk. unfold select. rewrite !dropPaths_lookup.
  destruct (decide (k ∈ minus)); [done |].
  destruct (decide (k ∈ _)) as [[? _]%list_elem_of_filter |]; [done |].
  case_decide; [done | by apply hideHashes_lookup].
Qed.

(** No query of the handlers asks for the hashes of the password history:
    what is loaded of it has none. *)
Lemma select_history (plus minus : list string) (d : Doc) :
  "passwordHistory" ∉ minus → "passwordHistory.passwordHash" ∉ plus →
  passwordHistory (select plus minus d)
  = (λ e, mkPasswordEntry None (changedAt e)) <$> passwordHistory d.
Proof.
  intros Hm Hp. rewrite <- hideHashes_history.
  unfold passwordHistory at 1 2, select. rewrite !dropPaths_lookup.
  rewrite decide_False by done.
  rewrite decide_False
    by (intros [_ H]%list_elem_of_filter; revert H; unfold hiddenPaths; path_not_in).
  by rewrite decide_False by done.
Qed.

(** So the loop over the history rejects at its first element, and finds
    nothing only in an empty history. *)
Lemma isPasswordInHistory_select (plus minus : list string) (pw : string) (d : Doc) :
  "passwordHistory" ∉ minus → "passwordHistory.passwordHash" ∉ plus →
  isPasswordInHistory pw (select plus minus d)
  = match passwordHistory d with
    | [] => inr false
    | _ :: _ => inl IllegalArguments
    end.
Proof.
  intros Hm Hp. unfold isPasswordInHistory. rewrite select_history by done.
  by destruct (passwordHistory d).
Qed.

Lemma writePaths_lookup (ks : list string) (src dst : Doc) (k : string) :
  writePaths ks src dst !! k = if decide (k ∈ ks) then src !! k else dst !! k.
Proof.
  unfold writePaths. induction ks as [| a ks IH]; cbn [foldr].
  - case_decide as H; [by apply elem_of_nil in H | done].
  - destruct (src !! a) as [v |] eqn:E.
    + rewrite lookup_insert, IH. repeat case_decide; subst; try done; set_solver.
    + rewrite lookup_delete, IH. repeat case_decide; subst; try done; set_solver.
Qed.

Lemma agreeOn_refl ks d : agreeOn ks d d.
Proof. by apply Forall_forall. Qed.

Lemma agreeOn_trans ks d1 d2 d3 :
  agreeOn ks d1 d2 → agreeOn ks d2 d3 → agreeOn ks d1 d3.
Proof.
  unfold agreeOn. rewrite !Forall_forall. intros H1 H2 k Hk.
  by rewrite H1, H2.
Qed.

Lemma getStr_agree k d d' : d !! k = d' !! k → getStr k d = getStr k d'.
Proof. unfold getStr. by intros ->. Qed.

Lemma status_select plus minus d :
  "status" ∉ minus → status (select plus minus d) = status d.
Proof.
  intros. apply getStr_agree, select_lookup; [| done | done].
  unfold hiddenPaths. path_not_in.
Qed.

Lemma notActive_select plus minus d :
  "status" ∉ minus →
  AuthMiddleware.notActive (select plus minus d) = AuthMiddleware.notActive d.
Proof. intros. unfold AuthMiddleware.notActive. by rewrite status_select. Qed.

End Documents.

(** ** The refresh endpoint *)

Section RefreshEndpoint.
Import Jwt UserModel AuthMiddleware AuthController Server Scenario Invariants.

Lemma verify_inr now t secret iss aud c :
  verify now t secret iss aud = inr c →
  t = Signed secret c ∧ now / 1000 < tok_exp c
  ∧ tok_aud c = aud ∧ tok_iss c = iss.
Proof.
  unfold verify. destruct t as [raw | k c']; [done |].
  repeat case_bool_decide; simpl; intros [= ->]; subst. split_and!; [done | lia | done..].
Qed.

Lemma verify_never_not_before now t secret iss aud :
  verify now t secret iss aud ≠ inl NotBeforeError.
Proof.
  unfold verify. destruct t; [done |]. by repeat case_bool_decide.
Qed.

Lemma verify_inr_iff now t secret iss aud c :
  verify now t secret iss aud = inr c
  ↔ t = Signed secret c ∧ now / 1000 < tok_exp c
    ∧ tok_aud c = aud ∧ tok_iss c = iss.
Proof.
  split; [apply verify_inr |]. intros (-> & Hexp & <- & <-). unfold verify.
  rewrite (bool_decide_true (secret = secret)) by done.
  rewrite (bool_decide_false (_ ≤ _)) by lia.
  by rewrite !bool_decide_true by done.
Qed.

Lemma findById_inr ident db r :
  findById ident db = inr r ↔ isObjectId ident = true ∧ r = byId ident db.
Proof.
  unfold findById. destruct (isObjectId ident); split;
    [by intros [= <-] | by intros [_ ->] | done | by intros [? _]].
Qed.

Lemma findById_inl ident db e :
  findById ident db = inl e → isObjectId ident = false.
Proof. unfold findById. by destruct (isObjectId ident). Qed.

(** The three answers of the endpoint. *)
Lemma refreshAccessToken_status env now ua ur body w :
  (Http.status (refreshAccessToken env now ua ur body w).1 = 200
   ∧ is_Some (Http.tokens (refreshAccessToken env now ua ur body w).1)
   ∧ refreshGates env now body w
   ∧ ¬ refreshThrows env now body w)
  ∨ (Http.status (refreshAccessToken env now ua ur body w).1 = 401
     ∧ Http.tokens (refreshAccessToken env now ua ur body w).1 = None
     ∧ ¬ refreshGates env now body w
     ∧ ¬ refreshThrows env now body w)
  ∨ (Http.status (refreshAccessToken env now ua ur body w).1 = 500
     ∧ Http.tokens (refreshAccessToken env now ua ur body w).1 = None
     ∧ ¬ refreshGates env now body w
     ∧ refreshThrows env now body w
     ∧ (refreshAccessToken env now ua ur body w).2 = w).
Proof.
  unfold refreshAccessToken, generateRefreshToken.
  destruct body as [t |];
    [| right; left; split_and!; [done.. | |];
       [by intros (? & ? & ? & ? & ? & _) | by intros (? & ? & ? & ? & _)]].
  destruct (truthy t) eqn:Hty; simpl;
    [| right; left; split_and!; [done.. | |];
       [intros (? & ? & ? & ? & [= <-] & ? & _); congruence
       | intros (? & ? & ? & [= <-] & ? & _); congruence]].
  destruct (isTokenBlacklisted t w) eqn:Hbl;
    [right; left; split_and!; [done.. | |];
     [intros (? & ? & ? & ? & [= <-] & ? & ? & _); congruence
     | intros (? & ? & ? & [= <-] & ? & ? & _); congruence] |].
  destruct (verify _ _ _ _ _) as [[] | c] eqn:Hv;
    [right; left; split_and!; [done.. | |];
     [intros (? & ? & ? & ? & [= <-] & ? & ? & ? & _); congruence
     | intros (? & ? & ? & [= <-] & ? & ? & ? & _); congruence] ..
    | by apply verify_never_not_before in Hv |].
  case_bool_decide as Hty'; simpl;
    [| right; left; split_and!; [done.. | |];
       [intros (? & ? & ? & ? & [= <-] & ? & ? & ? & ? & _); congruence
       | intros (? & ? & ? & [= <-] & ? & ? & ? & ? & _); congruence]].
  destruct (refreshTokens w !! tok_jti c) as [info |] eqn:Hinfo;
    [| right; left; split_and!; [done.. | |];
       [intros (? & ? & ? & ? & [= <-] & ? & ? & ? & ? & ? & _); congruence
       | intros (? & ? & ? & [= <-] & ? & ? & ? & ? & ? & _); congruence]].
  destruct (findById (tok_id c) (users w)) as [e | found] eqn:Hfound.
  { apply findById_inl in Hfound.
    right; right. split_and!; [done | done | | by exists t, c, info | done].
    intros (? & ? & ? & ? & [= <-] & ? & ? & ? & ? & ? & Hf & _).
    rewrite Hv in *. simplify_eq. apply findById_inr in Hf as [? _]. congruence. }
  pose proof Hfound as [Hoid ->]%findById_inr.
  assert (¬ refreshThrows env now (Some t) w) as Hnt.
  { intros (? & ? & ? & [= <-] & ? & ? & Hv' & ? & ? & ?).
    rewrite Hv in Hv'. simplify_eq. congruence. }
  destruct (byId (tok_id c) (users w)) as [u |] eqn:Hu; simpl;
    [| right; left; split_and!; [done.. | | done];
       intros (? & ? & ? & ? & [= <-] & ? & ? & Hv' & ? & ? & Hf & _);
       rewrite Hv in Hv'; simplify_eq; rewrite Hfound in Hf; simplify_eq].
  destruct (notActive (select [] ["password"] u)) eqn:Hact;
    [right; left; split_and!; [done.. | | done];
     intros (? & ? & ? & ? & [= <-] & ? & ? & Hv' & ? & ? & Hf & ?);
     rewrite Hv in Hv'; simplify_eq; rewrite Hfound in Hf; simplify_eq; congruence |].
  left. split_and!; [done | by eexists | by exists t, c, info, u | done].
Qed.

(** After a successful refresh the identifier of the presented token is gone
    from the refresh-token map. *)
Lemma refreshAccessToken_forgets env now ua ur t w c :
  decode t = Some c →
  Http.status (refreshAccessToken env now ua ur (Some t) w).1 = 200 →
  refreshTokens (refreshAccessToken env now ua ur (Some t) w).2 !! tok_jti c = None.
Proof.
  intros Hdec. unfold refreshAccessToken, generateRefreshToken, sign.
  repeat case_match; simplify_eq/=; try done.
  all: intros _.
  all: match goal with
       | H : verify _ _ _ _ _ = inr ?c' |- _ =>
           apply verify_inr in H as (-> & _); simpl in Hdec; simplify_eq
       end.
  all: try (rewrite lookup_insert_ne
              by (intros ->; rewrite lookup_delete_eq in *; done)).
  all: by rewrite lookup_delete_eq.
Qed.

(** ... and the presented token is on the blacklist. *)
Lemma refreshAccessToken_blacklists env now ua ur t w :
  Http.status (refreshAccessToken env now ua ur (Some t) w).1 = 200 →
  isTokenBlacklisted t (refreshAccessToken env now ua ur (Some t) w).2 = true.
Proof.
  unfold refreshAccessToken, generateRefreshToken, sign.
  repeat case_match; simplify_eq/=; try done.
  all: intros _; apply setHas_true, blacklistToken_member;
    [by destruct (truthy t) | by apply setHas_false].
Qed.

(** C4.  A refresh token that has once been exchanged for a new pair is refused
    with 401 whenever it is presented again, whatever the server has done in
    between, provided no later refresh token was issued under the very same
    identifier. *)
Theorem C4_used_refresh_token_is_refused (env : Env) (now : Z) (ua ur : string)
    (t : Token) (w : World) (es : list Event) (now' : Z) (ua' ur' : string) :
  Http.status (refreshAccessToken env now ua ur (Some t) w).1 = 200 →
  Forall (λ e, refreshUuid e ≠ (tok_jti <$> decode t)) es →
  let w1 := (refreshAccessToken env now ua ur (Some t) w).2 in
  let replay := (refreshAccessToken env now' ua' ur' (Some t) (run env w1 es)).1 in
  Http.status replay = 401 ∧ Http.tokens replay = None
  ∧ refreshAccessToken env now' ua' ur' (Some t) w1 =
      (Http.reply 401 "Refresh token has been revoked", w1).
Proof.
  intros Hok Hes w1 replay.
  destruct (refreshAccessToken_status env now ua ur (Some t) w)
    as [(_ & _ & Hg & _) | [(Hs & _) | (Hs & _)]]; [| rewrite Hok in Hs; done ..].
  destruct Hg as (t' & c & info & u & [= <-] & Hty & Hbl & Hv & Htype & Hinfo & Hu & Hact).
  apply verify_inr in Hv as (Ht & _).
  assert (decode t = Some c) as Hdec by by subst t.
  assert (refreshTokens (run env w1 es) !! tok_jti c = None) as Hgone.
  { apply run_map_none.
    - rewrite Hdec in Hes. exact Hes.
    - by apply refreshAccessToken_forgets. }
  assert (Http.status replay = 401 ∧ Http.tokens replay = None) as [? ?].
  { destruct (refreshAccessToken_status env now' ua' ur' (Some t) (run env w1 es))
      as [(_ & _ & Hg & _) | [(? & ? & _) | (_ & _ & _ & Hg & _)]]; [| done |].
    - destruct Hg as (t' & c' & info' & u' & [= <-] & _ & _ & Hv' & _ & Hinfo' & _).
      apply verify_inr in Hv' as (Ht' & _). rewrite Ht in Ht'. simplify_eq.
    - destruct Hg as (t' & c' & info' & [= <-] & _ & _ & Hv' & _ & Hinfo' & _).
      apply verify_inr in Hv' as (Ht' & _). rewrite Ht in Ht'. simplify_eq. }
  split_and!; [done | done |].
  - pose proof (refreshAccessToken_blacklists env now ua ur t w Hok) as Hin.
    fold w1 in Hin. unfold refreshAccessToken at 1. by rewrite Hty, Hin.
Qed.

(** Alice's phone rotates its refresh token; the old one is then refused, also
    after she has logged in again and another token has been blacklisted. *)
Lemma C4_used_refresh_token_is_refused_witness :
  Http.status
    (refreshAccessToken noEnv (t0 + 7200000) "f00dfeed-0000-4000-8000-000000000007"
       "f00dfeed-0000-4000-8000-000000000008" (Some loginRefreshToken)
       (run noEnv rotated.2
          [Login (t0 + 5400000) "f00dfeed-0000-4000-8000-000000000009"
             "f00dfeed-0000-4000-8000-00000000000a" laptop "alice@example.com"
             "Passw0rd!";
           Blacklist (Some (fillerToken 1))])).1 = 401.
Proof.
  refine (proj1 (C4_used_refresh_token_is_refused noEnv (t0 + 3600000)
    "d1a7c3e5-6b40-4f2e-9d81-7c5a3f1e0b05" "e9f8b7a6-5c4d-4e3f-8a2b-1c0d9e8f7a06"
    loginRefreshToken loggedIn.2 _ _ _ _ _ _)).
  - vm_compute. reflexivity.
  - repeat constructor; vm_compute; discriminate.
Defined.

(** The scenario is what it says: the login hands out the two tokens, and the
    rotation hands out the new refresh token. *)
Lemma scenario_tokens :
  Http.tokens loggedIn.1 = Some (loginAccessToken, loginRefreshToken)
  ∧ snd <$> Http.tokens rotated.1 = Some rotatedRefreshToken.
Proof. vm_compute. by split. Qed.

(** The token the rotation issued has no descriptor in Alice's persisted list,
    yet the endpoint accepts it. *)
Lemma rotated_token_is_accepted :
  Spec.refreshValid noEnv (t0 + 7200000) rotatedRefreshToken rotated.2 = false
  ∧ Http.status
      (refreshAccessToken noEnv (t0 + 7200000)
         "f00dfeed-0000-4000-8000-000000000007"
         "f00dfeed-0000-4000-8000-000000000008"
         (Some rotatedRefreshToken) rotated.2).1 = 200.
Proof. vm_compute. by split. Qed.




(** C2 fails on the code.  Two minutes after her login Alice logs out from all
    devices: the handler answers 200 and every descriptor in her persisted
    list is marked revoked, but the refresh token of that login still mints a
    new pair.  The same happens after a successful change of password. *)
Theorem C2_revoked_refresh_token_still_mints :
  (Http.status loggedOutEverywhere.1 = 200
   ∧ ((forallb isRevoked ∘ UserModel.refreshTokens)
        <$> aliceIn loggedOutEverywhere.2) = Some true
   ∧ Http.status
       (refreshAccessToken noEnv (t0 + 3600000)
          "d1a7c3e5-6b40-4f2e-9d81-7c5a3f1e0b05"
          "e9f8b7a6-5c4d-4e3f-8a2b-1c0d9e8f7a06"
          (Some loginRefreshToken) loggedOutEverywhere.2).1 = 200)
  ∧ (Http.status passwordChanged.1 = 200
     ∧ ((forallb isRevoked ∘ UserModel.refreshTokens)
          <$> aliceIn passwordChanged.2) = Some true
     ∧ Http.status
         (refreshAccessToken noEnv (t0 + 3600000)
            "d1a7c3e5-6b40-4f2e-9d81-7c5a3f1e0b05"
            "e9f8b7a6-5c4d-4e3f-8a2b-1c0d9e8f7a06"
            (Some loginRefreshToken) passwordChanged.2).1 = 200).
Proof. vm_compute. split_and!; done. Qed.

End RefreshEndpoint.

(** ** The session middleware *)

Section SessionMiddleware.
Import Jwt UserModel AuthMiddleware Scenario Invariants.

Lemma lockUntil_select plus minus d :
  "lockUntil" ∉ minus → lockUntil (select plus minus d) = lockUntil d.
Proof.
  intros. unfold lockUntil, getDate. rewrite select_lookup; [done | | done | done].
  unfold hiddenPaths. path_not_in.
Qed.

Lemma isLocked_select now plus minus d :
  "lockUntil" ∉ minus → isLocked now (select plus minus d) = isLocked now d.
Proof. intros. unfold isLocked. by rewrite lockUntil_select. Qed.

(** A look-up that is known to find something finds it. *)
Lemma findById_default ident db (d : Doc) :
  isObjectId ident = true →
  (if byId ident db is Some _ then true else false) = true →
  findById ident db = inr (Some (default d (byId ident db))).
Proof.
  intros Hoid Hfound. unfold findById. rewrite Hoid.
  by destruct (byId ident db).
Qed.

Lemma verify_decode now t secret iss aud c :
  verify now t secret iss aud = inr c → decode t = Some c.
Proof. by intros (-> & _)%verify_inr. Qed.

Ltac walk :=
  repeat progress
    (cbn [find Spec.fails negb mbind option_bind fmap option_fmap option_map
          Spec.statusOf Spec.sideEffect Spec.blames Http.status Http.message
          Http.reply];
     unfold Spec.subject).

Ltac settled := split_and!; first [done | by intros [=] | by left | by right].

(** An access token signed for a subject that is not an ObjectId. *)
Lemma C5_counterexample :
  ¬ (∀ env now authorization w,
       match Spec.firstFailure env now authorization w,
             authenticateToken env now authorization w with
       | Some c, (Respond r, w') =>
           Http.status r = Spec.statusOf c
           ∧ w' = Spec.sideEffect c authorization w
       | None, (Next ru t, w') => w' = w
       | _, _ => False
       end).
Proof.
  intros H.
  specialize (H noEnv (t0 + 60000)
                (bearerHeader
                   (generateToken noEnv (t0 + 60000)
                      "a3d1e9c4-8f21-4b0a-9c43-1f7e5d2b8a03"
                      (mkIdentity "alice" "alice@example.com" (Some "user"))))
                emptyWorld).
  vm_compute in H. destruct H as [H _]. discriminate H.
Qed.

(** C5, amended.  The middleware answers as the first failing check of the
    pipeline missing-token, blacklisted, signature/expiry, token type, subject
    exists, account active, account not locked prescribes: 401 for each of
    them except 423 for a locked account, with the message that names the
    check; the world is left as it was, except that a token whose subject is
    gone ends up on the blacklist; and when no check fails the request goes on
    with the presented token.  The one exception: when the first four checks
    pass and the subject the token names is not an ObjectId, the look-up
    throws, and the answer is 500 with the world as it was. *)
Theorem C5_first_failing_check_decides (env : Env) (now : Z)
    (authorization : option (list Token)) (w : World) :
  if Spec.lookupThrows env now authorization w
  then authenticateToken env now authorization w
       = (Respond (Http.reply 500 "Authentication failed"), w)
  else
    match Spec.firstFailure env now authorization w,
          authenticateToken env now authorization w with
    | Some c, (Respond r, w') =>
        Http.status r = Spec.statusOf c
        ∧ Spec.blames c (Http.message r)
        ∧ w' = Spec.sideEffect c authorization w
        ∧ (c = Spec.SubjectExists →
           ∃ t, bearer authorization = Some t ∧ isTokenBlacklisted t w' = true)
    | None, (Next ru t, w') => w' = w ∧ bearer authorization = Some t
    | _, _ => False
    end.
Proof.
  unfold Spec.lookupThrows, Spec.firstFailure, Spec.pipeline, authenticateToken.
  walk.
  destruct (bearer authorization) as [t |] eqn:Hb; walk; [| settled].
  destruct (truthy t) eqn:Hty; walk; [| settled].
  destruct (isTokenBlacklisted t w) eqn:Hbl; walk; [settled |].
  destruct (verify now t _ _ _) as [e | c] eqn:Hv; walk;
    [destruct e; [settled | settled | by apply verify_never_not_before in Hv] |].
  rewrite (verify_decode _ _ _ _ _ _ Hv). walk.
  destruct (bool_decide (tok_tokenType c = "access")) eqn:Htype; walk;
    [| settled].
  unfold findById. destruct (isObjectId (tok_id c)); walk; [| done].
  destruct (byId (tok_id c) (users w)) as [u |] eqn:Hu; walk.
  - rewrite bool_decide_false by done.
    rewrite notActive_select, isLocked_select by path_not_in.
    destruct (notActive u); walk; [settled |].
    destruct (isLocked now u); walk; [| settled].
    split_and!; [done | by eexists | done | by intros [=]].
  - rewrite bool_decide_true by done. walk. rewrite Hb. split_and!; [done.. |].
    intros _. exists t. split; [done |].
    apply setHas_true, blacklistToken_member; [done | by apply setHas_false].
Qed.

(** C7, as the specification states it, does not hold: Alice's access token is
    on the blacklist and, two hours after the login, past its expiry; the
    middleware does not answer that it has expired. *)
Lemma C7_counterexample :
  ¬ (∀ env now authorization w t,
       bearer authorization = Some t →
       isTokenBlacklisted t w = true →
       verify now t (getCurrentJWTSecret env) (issuer env) (audience env)
         = inl TokenExpiredError →
       (authenticateToken env now authorization w).1
         = Respond (Http.reply 401 "Token has expired. Please login again.")).
Proof.
  intros H.
  specialize (H noEnv (t0 + 7200000) (bearerHeader loginAccessToken) loggedOut.2
                loginAccessToken eq_refl).
  assert (isTokenBlacklisted loginAccessToken loggedOut.2 = true) as Hbl
    by (vm_compute; reflexivity).
  specialize (H Hbl eq_refl). clear Hbl.
  vm_compute in H. discriminate H.
Qed.

(** C7, amended.  The blacklist is consulted before the token is verified: a
    blacklisted token is answered 401 "Token has been revoked" whether or not
    it has expired, and a token that has expired and is not blacklisted is
    answered 401 "Token has expired".  Either way the request is rejected and
    the world is left as it was. *)
Theorem C7_blacklist_checked_before_expiry (env : Env) (now : Z)
    (authorization : option (list Token)) (w : World) (t : Token) :
  bearer authorization = Some t →
  truthy t = true →
  (isTokenBlacklisted t w = true →
   authenticateToken env now authorization w
     = (Respond (Http.reply 401 "Token has been revoked"), w))
  ∧ (isTokenBlacklisted t w = false →
     verify now t (getCurrentJWTSecret env) (issuer env) (audience env)
       = inl TokenExpiredError →
     authenticateToken env now authorization w
       = (Respond (Http.reply 401 "Token has expired. Please login again."), w)).
Proof.
  intros Hb Hty. unfold authenticateToken. rewrite Hb, Hty. cbn [negb].
  split.
  - by intros ->.
  - by intros -> ->.
Qed.

Lemma C7_blacklist_checked_before_expiry_witness :
  authenticateToken noEnv (t0 + 7200000) (bearerHeader loginAccessToken) loggedOut.2
    = (Respond (Http.reply 401 "Token has been revoked"), loggedOut.2)
  ∧ authenticateToken noEnv (t0 + 7200000) (bearerHeader loginAccessToken) loggedIn.2
    = (Respond (Http.reply 401 "Token has expired. Please login again."), loggedIn.2).
Proof.
  split.
  - apply (C7_blacklist_checked_before_expiry noEnv (t0 + 7200000)
             (bearerHeader loginAccessToken) loggedOut.2 loginAccessToken
             eq_refl eq_refl).
    vm_compute. reflexivity.
  - apply (C7_blacklist_checked_before_expiry noEnv (t0 + 7200000)
             (bearerHeader loginAccessToken) loggedIn.2 loginAccessToken
             eq_refl eq_refl).
    + vm_compute. reflexivity.
    + vm_compute. reflexivity.
Defined.

(** C8.  An access token minted for an identity and presented to the session
    middleware before it expires, while it is not blacklisted and its subject
    exists, is active and is not locked, lets the request through, annotated
    with the very id, e-mail address and role the token was minted for (and
    with the identifier drawn for the token). *)
Theorem C8_mint_then_verify (env : Env) (now now' : Z) (uuid ident addr : string)
    (r : RoleValue) (w : World) (u : Doc) :
  let t := generateToken env now uuid (mkIdentity ident addr (Some (roleName r))) in
  now' / 1000 < now / 1000 + accessLifetime env →
  isTokenBlacklisted t w = false →
  findById ident (users w) = inr (Some u) →
  notActive u = false →
  isLocked now' u = false →
  ∃ ru,
    authenticateToken env now' (Some [NotJwt "Bearer"; t]) w = (Next ru t, w)
    ∧ reqId ru = ident ∧ reqEmail ru = addr ∧ reqRole ru = roleName r
    ∧ tokenId ru = uuid.
Proof.
  intros t Hexp Hbl Hu Hact Hlock.
  unfold authenticateToken. cbn [bearer lookup list_lookup].
  change (truthy t) with true. cbn [negb]. rewrite Hbl.
  assert (verify now' t (getCurrentJWTSecret env) (issuer env) (audience env)
          = inr (mkClaims ident addr (Some (Js.strOr (Some (roleName r)) "user"))
                   "access" (now / 1000) (now / 1000 + accessLifetime env)
                   (issuer env) (audience env) uuid)) as ->.
  { unfold t, generateToken, sign, verify. cbn [id identEmail identRole].
    cbn [tok_exp tok_aud tok_iss].
    rewrite (bool_decide_true (getCurrentJWTSecret env = _)) by done.
    rewrite (bool_decide_false (_ ≤ _)) by lia.
    by rewrite (bool_decide_true (audience env = _)),
         (bool_decide_true (issuer env = _)) by done. }
  cbn [tok_tokenType tok_id]. rewrite bool_decide_true by done. cbn [negb].
  rewrite Hu. cbn [fmap option_fmap option_map].
  rewrite notActive_select, isLocked_select by path_not_in.
  rewrite Hact, Hlock. eexists. split; [reflexivity |].
  cbn [reqId reqEmail reqRole tokenId tok_id tok_email tok_role tok_jti].
  split_and!; [done | done | by destruct r | done].
Qed.

(** The access token of Alice's login, presented half an hour later. *)
Lemma C8_mint_then_verify_witness :
  ∃ ru,
    authenticateToken noEnv (t0 + 1860000) (bearerHeader loginAccessToken) loggedIn.2
      = (Next ru loginAccessToken, loggedIn.2)
    ∧ reqId ru = "64f0c0ffee0000000000a11c"
    ∧ reqEmail ru = "alice@example.com"
    ∧ reqRole ru = "user".
Proof.
  destruct (C8_mint_then_verify noEnv (t0 + 60000) (t0 + 1860000)
              "a3d1e9c4-8f21-4b0a-9c43-1f7e5d2b8a03"
              "64f0c0ffee0000000000a11c" "alice@example.com" RoleUser
              loggedIn.2 (default ∅ (aliceIn loggedIn.2)))
    as (ru & Hrun & Hid & Hmail & Hrole & _).
  - vm_compute. reflexivity.
  - vm_compute. reflexivity.
  - apply findById_default; vm_compute; reflexivity.
  - vm_compute. reflexivity.
  - vm_compute. reflexivity.
  - exists ru. split_and!; assumption.
Defined.

End SessionMiddleware.

(** ** The users collection *)

Section Collection.
Import UserModel Invariants.

Lemma find_app_hit (p : Doc → bool) (pre post : DB) (s : Doc) :
  Forall (λ d, p d = false) pre → p s = true →
  find p (pre ++ s :: post) = Some s.
Proof.
  intros Hpre Hs. induction Hpre as [| d pre Hd _ IH]; simpl.
  - by rewrite Hs.
  - by rewrite Hd.
Qed.

Lemma updateFirst_app_hit (p : Doc → bool) (f : Doc → Doc) (pre post : DB) (s : Doc) :
  Forall (λ d, p d = false) pre → p s = true →
  updateFirst p f (pre ++ s :: post) = (pre ++ f s :: post)%list.
Proof.
  intros Hpre Hs. induction Hpre as [| d pre Hd _ IH]; simpl.
  - by rewrite Hs.
  - by rewrite Hd, IH.
Qed.

Lemma find_split (p : Doc → bool) (db : DB) (s : Doc) :
  find p db = Some s →
  ∃ pre post, db = (pre ++ s :: post)%list ∧ Forall (λ d, p d = false) pre
              ∧ p s = true.
Proof.
  induction db as [| d db IH]; [done |]. simpl.
  destruct (p d) eqn:Hd.
  - intros [= ->]. by exists [], db.
  - intros (pre & post & -> & Hpre & Hs)%IH.
    exists (d :: pre), post. split_and!; [done | by constructor | done].
Qed.

(** A document found by a query in a collection with unique [_id]s is the
    first one with its [_id]. *)
Lemma found_is_first (p : Doc → bool) (db : DB) (s : Doc) :
  NoDup (docId <$> db) → find p db = Some s →
  ∃ pre post, db = (pre ++ s :: post)%list
              ∧ Forall (λ d, p d = false ∧ hasId (docId s) d = false) pre
              ∧ p s = true.
Proof.
  intros Hnd (pre & post & -> & Hpre & Hs)%find_split.
  exists pre, post. split_and!; [done | | done].
  rewrite fmap_app, fmap_cons in Hnd.
  apply NoDup_app in Hnd as (_ & Hdis & _).
  rewrite Forall_forall in *. intros d Hd. split; [by apply Hpre |].
  unfold hasId. apply bool_decide_eq_false. intros Heq.
  apply (Hdis (docId d)); [by apply list_elem_of_fmap_2 |].
  rewrite Heq. by left.
Qed.

Lemma docId_agree (d d' : Doc) : d !! "_id" = d' !! "_id" → docId d = docId d'.
Proof. intros H. unfold docId. f_equal. by apply getStr_agree. Qed.

Lemma hasId_self (d : Doc) : hasId (docId d) d = true.
Proof. unfold hasId. by apply bool_decide_eq_true. Qed.

End Collection.

(** ** The validators *)

(** Goes through the validators one by one: leaves a goal for each that can
    be the validator of the path. *)
Ltac validator_at Hf :=
  unfold UserModel.validators in Hf;
  repeat (apply elem_of_cons in Hf as [Hf | Hf];
          [first [discriminate Hf | injection Hf as -> -> | injection Hf as ->] |]);
  try (by apply elem_of_nil in Hf).

Section Validators.
Import UserModel Invariants.

Lemma validate_pointwise (d : Doc) :
  validate d = true ↔ ∀ k f, (k, f) ∈ validators → f (d !! k) = true.
Proof.
  unfold validate. rewrite forallb_forall. split.
  - intros H k f Hin. apply (H (k, f)). by apply list_elem_of_In.
  - intros H [k f] Hin. apply H. by apply list_elem_of_In.
Qed.

(** A document that has, at every path, what one of two valid documents
    has there. *)
Lemma validate_mix (d1 d2 d : Doc) :
  validate d1 = true → validate d2 = true →
  (∀ k, d !! k = d1 !! k ∨ d !! k = d2 !! k) →
  validate d = true.
Proof.
  rewrite !validate_pointwise. intros H1 H2 H k f Hin.
  destruct (H k) as [-> | ->]; auto.
Qed.

Lemma validate_insert (k : string) (v : Val) (d : Doc) :
  validate d = true →
  (∀ f, (k, f) ∈ validators → f (Some v) = true) →
  validate (<[k := v]> d) = true.
Proof.
  rewrite !validate_pointwise. intros Hd Hv k' f Hin.
  destruct (decide (k' = k)) as [-> | Hne].
  - rewrite lookup_insert_eq. by apply Hv.
  - rewrite lookup_insert_ne by done. by apply Hd.
Qed.

Lemma validate_delete (k : string) (d : Doc) :
  validate d = true →
  (∀ f, (k, f) ∈ validators → f None = true) →
  validate (delete k d) = true.
Proof.
  rewrite !validate_pointwise. intros Hd Hv k' f Hin.
  destruct (decide (k' = k)) as [-> | Hne].
  - rewrite lookup_delete_eq. by apply Hv.
  - rewrite lookup_delete_ne by done. by apply Hd.
Qed.

Lemma valid_loginHistory (d : Doc) :
  validate d = true → forallb loginEntryValid (loginHistory d) = true.
Proof.
  intros H. rewrite validate_pointwise in H.
  specialize (H "loginHistory" _ ltac:(unfold validators; path_in)).
  unfold loginHistory. by destruct (d !! "loginHistory") as [[] |].
Qed.

Lemma valid_refreshTokens (d : Doc) :
  validate d = true → forallb refreshEntryValid (refreshTokens d) = true.
Proof.
  intros H. rewrite validate_pointwise in H.
  specialize (H "refreshTokens" _ ltac:(unfold validators; path_in)).
  unfold refreshTokens. by destruct (d !! "refreshTokens") as [[] |].
Qed.

Lemma valid_loginAttempts (d : Doc) :
  validate d = true → 0 ≤ loginAttempts d ≤ 50.
Proof.
  intros H. rewrite validate_pointwise in H.
  specialize (H "loginAttempts" _ ltac:(unfold validators; path_in)).
  unfold loginAttempts. cbn beta in H.
  destruct (d !! "loginAttempts") as [[] |]; try lia.
  apply andb_true_iff in H as [?%bool_decide_eq_true ?%bool_decide_eq_true]. lia.
Qed.

Lemma forallb_sliceLast {A} (f : A → bool) (n : Z) (l : list A) :
  forallb f l = true → forallb f (Js.sliceLast n l) = true.
Proof.
  rewrite !forallb_forall. intros H x Hx. apply H.
  apply list_elem_of_In. apply list_elem_of_In in Hx.
  unfold Js.sliceLast in Hx. by eapply subseteq_drop.
Qed.

(** The list a method keeps after it has pushed an element and cut the list
    back to its last [n]. *)
Lemma forallb_pushed {A} (f : A → bool) (n : Z) (l : list A) (x : A) :
  forallb f l = true → f x = true →
  forallb f (if bool_decide (n < Z.of_nat (length (l ++ [x])))
             then Js.sliceLast n (l ++ [x]) else (l ++ [x])%list) = true.
Proof.
  intros Hl Hx.
  assert (forallb f (l ++ [x]) = true) as H
    by (rewrite forallb_app, Hl; cbn; by rewrite Hx).
  case_bool_decide; [by apply forallb_sliceLast | done].
Qed.

Lemma forallb_pushed_inv {A} (f : A → bool) (n : Z) (l : list A) (x : A) :
  0 < n →
  forallb f (if bool_decide (n < Z.of_nat (length (l ++ [x])))
             then Js.sliceLast n (l ++ [x]) else (l ++ [x])%list) = true →
  f x = true.
Proof.
  intros Hn H. rewrite forallb_forall in H. apply H.
  apply list_elem_of_In. case_bool_decide as Hlen.
  - unfold Js.sliceLast. rewrite length_app in *. cbn [length] in *.
    rewrite drop_app_le by lia.
    apply elem_of_app. right. by left.
  - apply elem_of_app. right. by left.
Qed.

(** What is loaded of a valid document is valid, unless the query leaves out
    a required path. *)
Lemma validate_select (plus minus : list string) (d : Doc) :
  validate d = true → "fullName" ∉ minus → "email" ∉ minus →
  validate (select plus minus d) = true.
Proof.
  rewrite !validate_pointwise. intros Hd Hn He k f Hin.
  assert (k ≠ "passwordHistory") as Hk
    by (intros ->; validator_at Hin).
  assert (select plus minus d !! k = d !! k
          ∨ select plus minus d !! k = None ∧ (k ∈ minus ∨ k ∈ hiddenPaths))
    as [-> | [-> Hcase]].
  { unfold select. rewrite !dropPaths_lookup.
    destruct (decide (k ∈ minus)); [by right; split; [| left] |].
    destruct (decide (k ∈ _)) as [[_ ?]%list_elem_of_filter |];
      [by right; split; [| right] |].
    left. case_decide; [done | by apply hideHashes_lookup]. }
  - by apply Hd.
  - validator_at Hin; try done; exfalso;
      destruct Hcase as [Hc | Hc]; try done;
      revert Hc; unfold hiddenPaths; path_not_in.
Qed.

Lemma validate_writePaths (ks : list string) (src dst : Doc) :
  validate src = true → validate dst = true →
  validate (writePaths ks src dst) = true.
Proof.
  intros Hs Hd. apply (validate_mix src dst); [done | done |].
  intros k. rewrite writePaths_lookup. case_decide; auto.
Qed.

(** The hook replaces a password that has passed the validation by its hash,
    and writes no other validated path. *)
Lemma validate_preSave (now : Z) (m : Loaded) :
  validate (cur m) = true → validate (cur (preSave now m)) = true.
Proof.
  intros H. unfold preSave. destruct (negb (isModified "password" m)); [done |].
  unfold assign. cbn [cur dirty isNew].
  apply validate_insert; [| intros f Hf; validator_at Hf].
  repeat case_match; cbn [cur dirty isNew];
    repeat (apply validate_insert; [| intros f Hf; by validator_at Hf]);
    done.
Qed.

Lemma save_inr (now : Z) (m : Loaded) (db : DB) (r : Loaded * DB) :
  save now m db = inr r ↔ validate (cur m) = true ∧ r = persist now m db.
Proof.
  unfold save. destruct (validate (cur m)); split.
  - by intros [= <-].
  - by intros [_ ->].
  - done.
  - by intros [].
Qed.

Lemma save_inl (now : Z) (m : Loaded) (db : DB) (e : Thrown) :
  save now m db = inl e ↔ validate (cur m) = false ∧ e = ValidationError.
Proof.
  unfold save. destruct (validate (cur m)); split.
  - done.
  - by intros [].
  - by intros [= <-].
  - by intros [_ ->].
Qed.

Lemma save_valid (now : Z) (m : Loaded) (db : DB) :
  validate (cur m) = true → save now m db = inr (persist now m db).
Proof. intros H. by apply save_inr. Qed.

(** The two updates of the lockout bookkeeping keep a document valid, as long
    as the counter stays within the 50 of its validator. *)
Lemma validate_reset (d : Doc) :
  validate d = true → validate (applyUpdate resetLoginAttempts d) = true.
Proof.
  intros H. unfold applyUpdate, resetLoginAttempts.
  cbn [op_unset op_set op_inc foldr dropPaths].
  repeat (apply validate_delete; [| intros f Hf; by validator_at Hf]). done.
Qed.

Lemma validate_incLoginAttempts (env : Env) (now : Z) (this d : Doc) :
  validate d = true → loginAttempts d < 50 →
  validate (applyUpdate (incLoginAttempts env now this) d) = true.
Proof.
  intros H Hlt. pose proof (valid_loginAttempts d H) as Hla.
  assert (validate (incPath ("loginAttempts", 1) d) = true) as Hinc.
  { unfold incPath. cbn [fst snd]. unfold loginAttempts in Hla, Hlt.
    destruct (d !! "loginAttempts") as [[] |];
      (apply validate_insert; [done |]); intros f Hf; validator_at Hf;
      try done.
    apply andb_true_iff. split; apply bool_decide_eq_true; lia. }
  unfold incLoginAttempts, applyUpdate.
  repeat case_match; cbn [op_unset op_set op_inc foldr dropPaths fst snd];
    try done;
    repeat first
      [ apply validate_delete; [| intros f Hf; by validator_at Hf]
      | apply validate_insert; [| intros f Hf; by validator_at Hf] ];
    done.
Qed.

End Validators.

(** ** Login and lockout *)

Section Lockout.
Import Jwt UserModel AuthMiddleware AuthController Server Scenario Invariants.

Lemma agreeOn_lookup ks d d' k : agreeOn ks d d' → k ∈ ks → d !! k = d' !! k.
Proof. unfold agreeOn. rewrite Forall_forall. auto. Qed.

Lemma agreeOn_weaken ks ks' d d' : ks' ⊆ ks → agreeOn ks d d' → agreeOn ks' d d'.
Proof. unfold agreeOn. rewrite !Forall_forall. auto. Qed.

Lemma credentials_guarded : credentials ⊆ guarded.
Proof. unfold credentials, guarded. set_solver. Qed.

Lemma agreeOn_insert ks d k v : k ∉ ks → agreeOn ks d (<[k := v]> d).
Proof.
  intros Hk. apply Forall_forall. intros k' Hk'.
  rewrite lookup_insert_ne; [done |]. by intros ->.
Qed.

Lemma agreeOn_writePaths ks ws src dst :
  (∀ k, k ∈ ws → k ∉ ks) → agreeOn ks dst (writePaths ws src dst).
Proof.
  intros Hdis. apply Forall_forall. intros k Hk.
  rewrite writePaths_lookup. case_decide as Hin; [| done].
  by apply Hdis in Hin.
Qed.

Lemma agreeOn_select ks plus minus d :
  (∀ k, k ∈ ks → (k ∉ minus) ∧ (k ∈ plus ∨ k ∉ hiddenPaths)) →
  "passwordHistory" ∉ ks →
  agreeOn ks d (select plus minus d).
Proof.
  intros H Hh. apply Forall_forall. intros k Hk.
  assert (k ≠ "passwordHistory") by (by intros ->).
  destruct (H k Hk) as [Hm [Hp | Hhid]]; symmetry.
  - by apply select_lookup_plus.
  - by apply select_lookup.
Qed.

Lemma withUsers_self w : withUsers (users w) w = w.
Proof. by destruct w. Qed.

(** What [save] writes of an existing document whose password was not
    assigned. *)
Lemma persist_existing now c ks pre s post :
  "password" ∉ ks →
  docId c = docId s →
  Forall (λ d, hasId (docId s) d = false) pre →
  persist now (mkLoaded c ks false) (pre ++ s :: post)
    = (mkLoaded c [] false, (pre ++ writePaths ks c s :: post)%list).
Proof.
  intros Hpw Hid Hpre. unfold persist, preSave, isModified. cbn [dirty cur isNew].
  rewrite bool_decide_false by done. cbn [negb cur isNew dirty].
  rewrite Hid, updateFirst_app_hit; [done | done | apply hasId_self].
Qed.

Lemma updateOne_existing this u pre s post :
  docId this = docId s →
  Forall (λ d, hasId (docId s) d = false) pre →
  updateOne this u (pre ++ s :: post) = (pre ++ applyUpdate u s :: post)%list.
Proof.
  intros Hid Hpre. unfold updateOne.
  rewrite Hid, updateFirst_app_hit; [done | done | apply hasId_self].
Qed.

Lemma keepsGuarded_save now c c' ks pre s post r :
  (∀ k, k ∈ ks → (k ∉ guarded) ∧ k ≠ "passwordHistory") →
  agreeOn guarded c c' →
  docId c = docId s →
  Forall (λ d, hasId (docId s) d = false) pre →
  save now (mkLoaded c' ks false) (pre ++ s :: post) = inr r →
  keepsGuarded c s pre post r.
Proof.
  intros Hks Hc Hid Hpre [Hv ->]%save_inr. cbn [cur] in Hv.
  exists c', (writePaths ks c' s).
  split_and!; [| done | | done | |].
  - apply persist_existing; [| | done].
    + intros [Hin _]%Hks. apply Hin. unfold guarded. path_in.
    + rewrite <- Hid. symmetry. apply docId_agree.
      apply (agreeOn_lookup _ _ _ _ Hc). unfold guarded. path_in.
  - apply agreeOn_writePaths. intros k Hk. by apply Hks.
  - intros. by apply validate_writePaths.
  - rewrite writePaths_lookup. rewrite decide_False; [done |].
    by intros [_ ?]%Hks.
Qed.

(** The paths the methods of the login handler assign are not guarded. *)
Ltac session_paths :=
  let k := fresh "k" in
  let Hk := fresh "Hk" in
  intros k Hk; unfold guarded;
  repeat (apply elem_of_cons in Hk as [-> | Hk]; [split; [path_not_in | done] |]);
  by apply elem_of_nil in Hk.

Lemma recordLogin_keeps now ipAddr ua ok loc c pre s post r :
  docId c = docId s →
  Forall (λ d, hasId (docId s) d = false) pre →
  recordLogin now ipAddr ua ok loc (mkLoaded c [] false) (pre ++ s :: post) = inr r →
  keepsGuarded c s pre post r.
Proof.
  intros Hid Hpre. unfold recordLogin, assign. cbn [cur dirty isNew].
  destruct ok; cbn [cur dirty isNew].
  - apply keepsGuarded_save; [session_paths | | done | done].
    repeat (eapply agreeOn_trans;
              [| apply agreeOn_insert; unfold guarded; path_not_in]).
    apply agreeOn_refl.
  - apply keepsGuarded_save; [session_paths | | done | done].
    apply agreeOn_insert. unfold guarded. path_not_in.
Qed.

Lemma updateLastActive_keeps now c pre s post r :
  docId c = docId s →
  Forall (λ d, hasId (docId s) d = false) pre →
  updateLastActive now (mkLoaded c [] false) (pre ++ s :: post) = inr r →
  keepsGuarded c s pre post r.
Proof.
  intros Hid Hpre. unfold updateLastActive, assign. cbn [cur dirty isNew].
  apply keepsGuarded_save; [session_paths | | done | done].
  apply agreeOn_insert. unfold guarded. path_not_in.
Qed.

Lemma addRefreshToken_keeps now h j exp device c pre s post r :
  docId c = docId s →
  Forall (λ d, hasId (docId s) d = false) pre →
  addRefreshToken now h j exp device (mkLoaded c [] false) (pre ++ s :: post) = inr r →
  keepsGuarded c s pre post r.
Proof.
  intros Hid Hpre. unfold addRefreshToken, assign. cbn [cur dirty isNew].
  apply keepsGuarded_save; [session_paths | | done | done].
  apply agreeOn_insert. unfold guarded. path_not_in.
Qed.

(** *** When the saves of the login handler go through *)

Lemma recordLogin_valid now ipAddr ua ok loc c db :
  validate c = true →
  ipAddr ≠ "" → Js.len ua ≤ 500 →
  (ok = true → ipPattern ipAddr = true) →
  ∃ r, recordLogin now ipAddr ua ok loc (mkLoaded c [] false) db = inr r.
Proof.
  intros Hc Hip Hua Hpat. unfold recordLogin. cbn zeta. eexists. apply save_valid.
  set (h := if bool_decide _ then _ else _).
  assert (validate (<["loginHistory" := VLogins h]> c) = true) as H1.
  { apply validate_insert; [done |]. intros f Hf. validator_at Hf.
    apply forallb_pushed; [by apply valid_loginHistory |].
    unfold loginEntryValid. cbn [ip userAgent].
    rewrite bool_decide_false, bool_decide_true by done. done. }
  destruct ok; unfold assign; cbn [cur dirty isNew]; [| done].
  apply validate_insert; [| intros f Hf; by validator_at Hf].
  apply validate_insert.
  - by apply validate_insert; [| intros f Hf; validator_at Hf].
  - intros f Hf. validator_at Hf. rewrite Hpat by done. apply orb_true_r.
Qed.

Lemma recordLogin_invalid now ipAddr ua ok loc c db :
  ipAddr = "" ∨ 500 < Js.len ua →
  recordLogin now ipAddr ua ok loc (mkLoaded c [] false) db = inl ValidationError.
Proof.
  intros Hbad. unfold recordLogin. cbn zeta.
  apply save_inl. split; [| done].
  apply not_true_is_false. intros Hv%valid_loginHistory.
  unfold loginHistory in Hv at 1.
  destruct ok; unfold assign in Hv; cbn [cur dirty isNew] in Hv;
    rewrite ?lookup_insert_ne in Hv by done;
    rewrite lookup_insert_eq in Hv;
    (apply forallb_pushed_inv in Hv; [| done]);
    unfold loginEntryValid in Hv; cbn [ip userAgent] in Hv;
    apply andb_true_iff in Hv as [Hip%negb_true_iff%bool_decide_eq_false
                                    Hlen%bool_decide_eq_true];
    (destruct Hbad; [done | lia]).
Qed.

Lemma updateLastActive_valid now c db :
  validate c = true →
  ∃ r, updateLastActive now (mkLoaded c [] false) db = inr r.
Proof.
  intros Hc. unfold updateLastActive. eexists. apply save_valid.
  unfold assign. cbn [cur].
  by apply validate_insert; [| intros f Hf; validator_at Hf].
Qed.

Lemma addRefreshToken_valid now h j exp device c db :
  validate c = true → j ≠ "" → Js.len device ≤ 200 →
  ∃ r, addRefreshToken now h j exp device (mkLoaded c [] false) db = inr r.
Proof.
  intros Hc Hj Hdev. unfold addRefreshToken. eexists. apply save_valid.
  unfold assign. cbn [cur].
  apply validate_insert; [done |]. intros f Hf. validator_at Hf.
  apply forallb_pushed; [by apply valid_refreshTokens |].
  unfold refreshEntryValid. cbn [jti deviceInfo].
  by rewrite bool_decide_false, bool_decide_true by done.
Qed.

(** Everything the login decision reads is determined by the guarded paths. *)
Lemma guarded_reads env now pw e d d' :
  agreeOn guarded d d' →
  docId d = docId d'
  ∧ UserModel.status d = UserModel.status d'
  ∧ password d = password d'
  ∧ loginAttempts d = loginAttempts d'
  ∧ lockUntil d = lockUntil d'
  ∧ maxLoginAttempts env d = maxLoginAttempts env d'
  ∧ lockTime env d = lockTime env d'
  ∧ isLocked now d = isLocked now d'
  ∧ comparePassword pw d = comparePassword pw d'
  ∧ emailNotDeleted e d = emailNotDeleted e d'
  ∧ incLoginAttempts env now d = incLoginAttempts env now d'.
Proof.
  intros H.
  assert (∀ k, k ∈ guarded → d !! k = d' !! k) as Hk
    by (intros; by apply (agreeOn_lookup guarded)).
  pose proof (Hk "_id" ltac:(unfold guarded; path_in)) as Hid.
  pose proof (Hk "email" ltac:(unfold guarded; path_in)) as Hem.
  pose proof (Hk "status" ltac:(unfold guarded; path_in)) as Hst.
  pose proof (Hk "password" ltac:(unfold guarded; path_in)) as Hpw.
  pose proof (Hk "maxLoginAttempts" ltac:(unfold guarded; path_in)) as Hmax.
  pose proof (Hk "lockTime" ltac:(unfold guarded; path_in)) as Hlt.
  pose proof (Hk "loginAttempts" ltac:(unfold guarded; path_in)) as Hla.
  pose proof (Hk "lockUntil" ltac:(unfold guarded; path_in)) as Hlu.
  unfold incLoginAttempts, emailNotDeleted, comparePassword, isLocked, docId,
    UserModel.status, password, loginAttempts, lockUntil, maxLoginAttempts,
    lockTime, getStr, getDate.
  rewrite Hid, Hem, Hst, Hpw, Hmax, Hlt, Hla, Hlu. by split_and!.
Qed.

Lemma select_password_guarded s : agreeOn guarded s (select ["password"] [] s).
Proof.
  apply agreeOn_select; [| unfold guarded; path_not_in].
  intros k Hk. split; [apply not_elem_of_nil |].
  unfold guarded in Hk. unfold hiddenPaths.
  repeat (apply elem_of_cons in Hk as [-> | Hk];
          [first [left; path_in | right; path_not_in] |]).
  by apply elem_of_nil in Hk.
Qed.

(** *** The two updates of the lockout bookkeeping *)

Lemma applyUpdate_reset d :
  agreeOn credentials d (applyUpdate resetLoginAttempts d)
  ∧ loginAttempts (applyUpdate resetLoginAttempts d) = 0
  ∧ lockUntil (applyUpdate resetLoginAttempts d) = None.
Proof.
  unfold applyUpdate, resetLoginAttempts. cbn [op_unset op_set op_inc foldr].
  split_and!.
  - apply Forall_forall. intros k Hk. rewrite dropPaths_lookup.
    rewrite decide_False; [done |]. unfold credentials in Hk.
    repeat (apply elem_of_cons in Hk as [-> | Hk]; [path_not_in |]).
    by apply elem_of_nil in Hk.
  - unfold loginAttempts. rewrite dropPaths_lookup.
    by rewrite decide_True by path_in.
  - unfold lockUntil, getDate. rewrite dropPaths_lookup.
    by rewrite decide_True by path_in.
Qed.

Lemma loginAttempts_incPath d :
  loginAttempts (incPath ("loginAttempts", 1) d) = loginAttempts d + 1
  ∧ ∀ k, k ≠ "loginAttempts" → incPath ("loginAttempts", 1) d !! k = d !! k.
Proof.
  unfold incPath, loginAttempts. cbn [fst snd].
  destruct (d !! "loginAttempts") as [[] |] eqn:E;
    rewrite ?lookup_insert_eq; (split; [done |]);
    intros k Hk; by rewrite lookup_insert_ne.
Qed.

(** What [incLoginAttempts] makes of the stored document. *)
Lemma applyUpdate_incLoginAttempts env now this s :
  s !! "loginAttempts" = this !! "loginAttempts" →
  let after := applyUpdate (incLoginAttempts env now this) s in
  agreeOn credentials s after
  ∧ ((∃ t, lockUntil this = Some t ∧ t < now) →
     loginAttempts after = 1 ∧ lockUntil after = None)
  ∧ (¬ (∃ t, lockUntil this = Some t ∧ t < now) →
     loginAttempts after = loginAttempts this + 1
     ∧ (maxLoginAttempts env this ≤ loginAttempts this + 1 →
        isLocked now this = false →
        lockUntil after = Some (now + lockTime env this))
     ∧ (loginAttempts this + 1 < maxLoginAttempts env this
        ∨ isLocked now this = true →
        lockUntil after = lockUntil s)).
Proof.
  intros Hsame after.
  assert (loginAttempts s = loginAttempts this) as Hla
    by (unfold loginAttempts; by rewrite Hsame).
  destruct (loginAttempts_incPath s) as [Hinc Hother].
  unfold after, incLoginAttempts, applyUpdate.
  destruct (lockUntil this) as [t |] eqn:Hlu;
    [destruct (bool_decide (t < now)) eqn:Hexp |].
  - (* a lock that has expired *)
    apply bool_decide_eq_true in Hexp.
    cbn [op_unset op_set op_inc foldr dropPaths fst snd].
    split_and!.
    + apply Forall_forall. intros k Hk. unfold credentials in Hk.
      rewrite lookup_delete_ne, lookup_insert_ne; [done | |];
        other_path Hk.
    + intros _. split.
      * unfold loginAttempts.
        by rewrite lookup_delete_ne, lookup_insert_eq.
      * unfold lockUntil, getDate. by rewrite lookup_delete_eq.
    + intros []. by exists t.
  - (* a lock that has not expired *)
    apply bool_decide_eq_false in Hexp.
    destruct (bool_decide (maxLoginAttempts env this ≤ loginAttempts this + 1)
              && negb (isLocked now this)) eqn:Hlock;
      cbn [op_unset op_set op_inc foldr dropPaths fst snd].
    + apply andb_true_iff in Hlock as [Hmax%bool_decide_eq_true Hnl%negb_true_iff].
      split_and!.
      * apply Forall_forall. intros k Hk. unfold credentials in Hk.
        rewrite lookup_insert_ne, Hother; [done | |];
          other_path Hk.
      * intros (t' & [= <-] & ?). lia.
      * intros _. split_and!.
        -- unfold loginAttempts. rewrite lookup_insert_ne by done.
           fold (loginAttempts (incPath ("loginAttempts", 1) s)).
           by rewrite Hinc, Hla.
        -- intros _ _. unfold lockUntil, getDate. by rewrite lookup_insert_eq.
        -- intros [? | ?]; [lia | congruence].
    + apply andb_false_iff in Hlock.
      split_and!.
      * apply Forall_forall. intros k Hk. unfold credentials in Hk.
        rewrite Hother; [done |]. other_path Hk.
      * intros (t' & [= <-] & ?). lia.
      * intros _. split_and!.
        -- by rewrite Hinc, Hla.
        -- intros Hmax Hnl. destruct Hlock as [H%bool_decide_eq_false | H%negb_false_iff];
             [done | congruence].
        -- intros _. unfold lockUntil, getDate. by rewrite Hother.
  - (* no lock *)
    destruct (bool_decide (maxLoginAttempts env this ≤ loginAttempts this + 1)
              && negb (isLocked now this)) eqn:Hlock;
      cbn [op_unset op_set op_inc foldr dropPaths fst snd].
    + apply andb_true_iff in Hlock as [Hmax%bool_decide_eq_true Hnl%negb_true_iff].
      split_and!.
      * apply Forall_forall. intros k Hk. unfold credentials in Hk.
        rewrite lookup_insert_ne, Hother; [done | |];
          other_path Hk.
      * by intros (t' & [=] & ?).
      * intros _. split_and!.
        -- unfold loginAttempts. rewrite lookup_insert_ne by done.
           fold (loginAttempts (incPath ("loginAttempts", 1) s)).
           by rewrite Hinc, Hla.
        -- intros _ _. unfold lockUntil, getDate. by rewrite lookup_insert_eq.
        -- intros [? | ?]; [lia | congruence].
    + apply andb_false_iff in Hlock.
      split_and!.
      * apply Forall_forall. intros k Hk. unfold credentials in Hk.
        rewrite Hother; [done |]. other_path Hk.
      * by intros (t' & [=] & ?).
      * intros _. split_and!.
        -- by rewrite Hinc, Hla.
        -- intros Hmax Hnl. destruct Hlock as [H%bool_decide_eq_false | H%negb_false_iff];
             [done | congruence].
        -- intros _. unfold lockUntil, getDate. by rewrite Hother.
Qed.

Lemma byId_updateFirst ident f db s :
  byId ident db = Some s → docId (f s) = docId s →
  byId ident (updateFirst (hasId ident) f db) = Some (f s).
Proof.
  unfold byId. intros (pre & post & -> & Hpre & Hs)%find_split Hid.
  rewrite updateFirst_app_hit by done.
  apply find_app_hit; [done |]. unfold hasId in *.
  apply bool_decide_eq_true. apply bool_decide_eq_true in Hs. congruence.
Qed.

(** C6.  [incLoginAttempts] on a loaded document whose counter is current:
    when the document carries a lock that has expired, the stored record ends
    with counter 1 and no lock; otherwise the counter grows by one, and the
    lock is set to now plus the lock time exactly when the new count reaches
    the maximum while the account is not locked.  Without configuration the
    maximum is 5 and the lock time 30 minutes. *)
Theorem C6_recordFailure (env : Env) (now : Z) (this stored : Doc) (db : DB) :
  byId (docId this) db = Some stored →
  stored !! "loginAttempts" = this !! "loginAttempts" →
  let after := applyUpdate (incLoginAttempts env now this) stored in
  byId (docId this) (updateOne this (incLoginAttempts env now this) db)
    = Some after
  ∧ ((∃ t, lockUntil this = Some t ∧ t < now) →
     loginAttempts after = 1 ∧ lockUntil after = None)
  ∧ (¬ (∃ t, lockUntil this = Some t ∧ t < now) →
     loginAttempts after = loginAttempts this + 1
     ∧ (maxLoginAttempts env this ≤ loginAttempts this + 1 →
        isLocked now this = false →
        lockUntil after = Some (now + lockTime env this))
     ∧ (loginAttempts this + 1 < maxLoginAttempts env this
        ∨ isLocked now this = true →
        lockUntil after = lockUntil stored))
  ∧ defaultMaxLoginAttempts noEnv = 5
  ∧ defaultLockTime noEnv = 30 * 60 * 1000.
Proof.
  intros Hfound Hsame after.
  destruct (applyUpdate_incLoginAttempts env now this stored Hsame)
    as (Hcred & Hexpired & Hother).
  split_and!; [| done | done | done | done].
  unfold updateOne. apply byId_updateFirst; [done |].
  symmetry. apply docId_agree.
  apply (agreeOn_lookup _ _ _ _ Hcred). unfold credentials. path_in.
Qed.

(** The fifth wrong guess on Alice's account: the counter goes from 4 to 5 and
    the lock is set for thirty minutes. *)
Lemma C6_recordFailure_witness :
  let this := default ∅ (aliceIn afterFourGuesses) in
  let now := t0 + 86400000 + 5 * 60000 in
  let after := applyUpdate (incLoginAttempts noEnv now this) this in
  loginAttempts after = 5 ∧ lockUntil after = Some (now + 1800000).
Proof.
  intros this now after. subst after this.
  destruct (C6_recordFailure noEnv now (default ∅ (aliceIn afterFourGuesses))
              (default ∅ (aliceIn afterFourGuesses)) (users afterFourGuesses))
    as (_ & _ & Hother & _).
  - replace (docId (default ∅ (aliceIn afterFourGuesses)))
      with "64f0c0ffee0000000000a11c" by (vm_compute; reflexivity).
    apply found_default. vm_compute. reflexivity.
  - reflexivity.
  - destruct Hother as (Hcount & Hlock & _).
    + intros (t & Ht & _). vm_compute in Ht. discriminate Ht.
    + split.
      * rewrite Hcount. vm_compute. reflexivity.
      * rewrite Hlock; [vm_compute; reflexivity | vm_compute; discriminate
                        | vm_compute; reflexivity].
Defined.

(** *** The login handler on one account *)

Lemma storedAt_find e db pre post s :
  storedAt e db pre post s → findOne (emailNotDeleted e) db = Some s.
Proof.
  intros (-> & Hpre & Hs). apply find_app_hit; [| done].
  eapply Forall_impl; [exact Hpre |]. by intros ? [? _].
Qed.

Lemma storedAt_ids e db pre post s :
  storedAt e db pre post s → Forall (λ d, hasId (docId s) d = false) pre.
Proof.
  intros (_ & Hpre & _). eapply Forall_impl; [exact Hpre |]. by intros ? [_ ?].
Qed.

Lemma storedAt_found e db s :
  NoDup (docId <$> db) → findOne (emailNotDeleted e) db = Some s →
  ∃ pre post, storedAt e db pre post s.
Proof.
  intros Hnd Hf. destruct (found_is_first _ _ _ Hnd Hf) as (pre & post & ? & ? & ?).
  by exists pre, post.
Qed.

Lemma credentials_reads env e pw d d' :
  agreeOn credentials d d' →
  docId d = docId d' ∧ emailNotDeleted e d = emailNotDeleted e d'
  ∧ UserModel.status d = UserModel.status d' ∧ password d = password d'
  ∧ maxLoginAttempts env d = maxLoginAttempts env d'
  ∧ lockTime env d = lockTime env d'
  ∧ comparePassword pw d = comparePassword pw d'.
Proof.
  intros H.
  assert (∀ k, k ∈ credentials → d !! k = d' !! k) as Hk
    by (intros; by apply (agreeOn_lookup credentials)).
  pose proof (Hk "_id" ltac:(unfold credentials; path_in)) as Hid.
  pose proof (Hk "email" ltac:(unfold credentials; path_in)) as Hem.
  pose proof (Hk "status" ltac:(unfold credentials; path_in)) as Hst.
  pose proof (Hk "password" ltac:(unfold credentials; path_in)) as Hpw.
  pose proof (Hk "maxLoginAttempts" ltac:(unfold credentials; path_in)) as Hmax.
  pose proof (Hk "lockTime" ltac:(unfold credentials; path_in)) as Hlt.
  unfold comparePassword, emailNotDeleted, docId, UserModel.status, password,
    maxLoginAttempts, lockTime, getStr.
  rewrite Hid, Hem, Hst, Hpw, Hmax, Hlt. by split_and!.
Qed.

Lemma storedAt_replace e db pre post s s' :
  storedAt e db pre post s → agreeOn credentials s s' →
  storedAt e (pre ++ s' :: post) pre post s'.
Proof.
  intros (_ & Hpre & Hs) Hagree.
  destruct (credentials_reads noEnv e "" _ _ Hagree) as (Hid & Hem & _).
  split_and!; [done | by rewrite <- Hid | by rewrite <- Hem].
Qed.

Lemma recordable_fields c :
  recordable c = true ↔ clientIP c ≠ "" ∧ Js.len (userAgentOf c) ≤ 500.
Proof.
  unfold recordable. rewrite andb_true_iff, negb_true_iff,
    bool_decide_eq_false, bool_decide_eq_true. done.
Qed.

Lemma unrecordable_fields c :
  recordable c = false → clientIP c = "" ∨ 500 < Js.len (userAgentOf c).
Proof.
  intros H. destruct (decide (clientIP c = "")); [by left |].
  destruct (decide (Js.len (userAgentOf c) ≤ 500)); [| right; lia].
  rewrite (proj2 (recordable_fields c)) in H; done.
Qed.

Lemma validate_select_password s :
  validate s = true → validate (select ["password"] [] s) = true.
Proof. intros. apply validate_select; [done | apply not_elem_of_nil..]. Qed.

(** A login on a locked account: recorded and answered 423 when the client
    can be recorded, answered 500 and not recorded otherwise. *)
Lemma loginUser_locked env now ua ur c emailIn pwIn w pre post s :
  storedAt (Js.toLowerCase emailIn) (users w) pre post s →
  UserModel.status s = Some "active" →
  isLocked now s = true →
  validate s = true →
  ∃ s' r,
    loginUser env now ua ur c emailIn pwIn w
      = (r, withUsers (pre ++ s' :: post) w)
    ∧ agreeOn guarded s s'
    ∧ validate s' = true
    ∧ s' !! "passwordHistory" = s !! "passwordHistory"
    ∧ Http.status r = (if recordable c then 423 else 500).
Proof.
  intros Hst Hactive Hlocked Hv. unfold loginUser.
  rewrite (storedAt_find _ _ _ _ _ Hst). cbn [fmap option_fmap option_map].
  destruct (guarded_reads env now pwIn "" _ _ (select_password_guarded s))
    as (Hid & Hstatus & _ & _ & _ & _ & _ & Hlock & _).
  rewrite <- Hstatus, Hactive, bool_decide_true by done. cbn [negb].
  rewrite <- Hlock, Hlocked.
  pose proof (storedAt_ids _ _ _ _ _ Hst) as Hids.
  pose proof (validate_select_password s Hv) as Hvc.
  destruct Hst as (Hdb & Hpre & Hs). unfold load.
  destruct (recordable c) eqn:Hrec.
  - apply recordable_fields in Hrec as [Hip Hua].
    destruct (recordLogin_valid now (clientIP c) (userAgentOf c) false []
                (select ["password"] [] s) (users w) Hvc Hip Hua ltac:(done))
      as [r Hr].
    rewrite Hr. rewrite Hdb in Hr.
    apply recordLogin_keeps in Hr as (c' & s' & -> & _ & Hs' & _ & Hvs & Hh);
      [| by symmetry | done].
    exists s'. eexists. by split_and!; [reflexivity | | apply Hvs | |].
  - rewrite recordLogin_invalid by (by apply unrecordable_fields).
    exists s. eexists. rewrite <- Hdb, withUsers_self.
    by split_and!; [reflexivity | apply agreeOn_refl | | |].
Qed.

(** The two updates write [loginAttempts] and [lockUntil] only. *)
Lemma applyUpdate_reset_other d k :
  k ≠ "loginAttempts" → k ≠ "lockUntil" →
  applyUpdate resetLoginAttempts d !! k = d !! k.
Proof.
  intros H1 H2. unfold applyUpdate, resetLoginAttempts.
  cbn [op_unset op_set op_inc foldr dropPaths].
  by rewrite !lookup_delete_ne.
Qed.

Lemma applyUpdate_inc_other env now this d k :
  k ≠ "loginAttempts" → k ≠ "lockUntil" →
  applyUpdate (incLoginAttempts env now this) d !! k = d !! k.
Proof.
  intros H1 H2. destruct (loginAttempts_incPath d) as [_ Hother].
  unfold incLoginAttempts, applyUpdate.
  repeat case_match; cbn [op_unset op_set op_inc foldr dropPaths fst snd];
    rewrite ?lookup_delete_ne, ?lookup_insert_ne by done;
    first [done | by apply Hother].
Qed.

(** A wrong password on an unlocked account, from a client that can be
    recorded. *)
Lemma loginUser_failed env now ua ur c emailIn pwIn w pre post s :
  storedAt (Js.toLowerCase emailIn) (users w) pre post s →
  UserModel.status s = Some "active" →
  isLocked now s = false →
  comparePassword pwIn s = false →
  validate s = true →
  recordable c = true →
  ∃ s1,
    loginUser env now ua ur c emailIn pwIn w
      = (Http.reply 401
           (if bool_decide (0 < attemptsRemaining env s)
            then "Invalid credentials. " ++ pretty (attemptsRemaining env s)
                 ++ " attempts remaining."
            else "Invalid credentials. Account will be temporarily locked."),
         withUsers (pre ++ applyUpdate (incLoginAttempts env now s) s1 :: post) w)
    ∧ agreeOn guarded s s1
    ∧ validate s1 = true
    ∧ s1 !! "passwordHistory" = s !! "passwordHistory".
Proof.
  intros Hst Hactive Hlocked Hpw Hv [Hip Hua]%recordable_fields. unfold loginUser.
  rewrite (storedAt_find _ _ _ _ _ Hst). cbn [fmap option_fmap option_map].
  destruct (guarded_reads env now pwIn "" _ _ (select_password_guarded s))
    as (Hid & Hstatus & _ & _ & _ & _ & _ & Hlock & Hcmp & _).
  rewrite <- Hstatus, Hactive, bool_decide_true by done. cbn [negb].
  rewrite <- Hlock, Hlocked, <- Hcmp, Hpw. cbn [negb].
  pose proof (storedAt_ids _ _ _ _ _ Hst) as Hids.
  pose proof (validate_select_password s Hv) as Hvc.
  destruct Hst as (Hdb & Hpre & Hs). unfold load.
  destruct (recordLogin_valid now (clientIP c) (userAgentOf c) false []
              (select ["password"] [] s) (users w) Hvc Hip Hua ltac:(done))
    as [r Hr].
  rewrite Hr. rewrite Hdb in Hr.
  apply recordLogin_keeps in Hr as (c' & s1 & -> & Hc' & Hs1 & _ & Hvs & Hh);
    [| by symmetry | done].
  cbn [cur].
  assert (agreeOn guarded s c') as Hsc
    by (eapply agreeOn_trans; [apply select_password_guarded | done]).
  destruct (guarded_reads env now pwIn "" _ _ Hsc)
    as (Hid' & _ & _ & Hla & _ & Hmax & _ & _ & _ & _ & Hinc).
  destruct (guarded_reads env now pwIn "" _ _ Hs1) as (Hid1 & _).
  rewrite updateOne_existing; [| congruence | by rewrite <- Hid1].
  rewrite <- Hinc. unfold attemptsRemaining. rewrite <- Hla, <- Hmax.
  exists s1. by split_and!; [| | apply Hvs |].
Qed.

(** Whatever the password, a client that cannot be recorded is answered
    500. *)
Lemma loginUser_unrecordable env now ua ur c emailIn pwIn w s :
  findOne (emailNotDeleted (Js.toLowerCase emailIn)) (users w) = Some s →
  recordable c = false →
  Http.status (loginUser env now ua ur c emailIn pwIn w).1 = 500.
Proof.
  intros Hf Hrec%unrecordable_fields. unfold loginUser. rewrite Hf.
  cbn [fmap option_fmap option_map]. unfold load.
  rewrite !recordLogin_invalid by done.
  by repeat case_match.
Qed.

Lemma issuePair_keeps env now ua ur device c pre s post w :
  docId c = docId s →
  Forall (λ d, hasId (docId s) d = false) pre →
  validate c = true → ur ≠ "" → Js.len device ≤ 200 →
  ∃ a r c' s' w',
    issuePair env now ua ur device (mkLoaded c [] false)
      (withUsers (pre ++ s :: post) w) = (inr (a, r, mkLoaded c' [] false), w')
    ∧ users w' = (pre ++ s' :: post)%list
    ∧ agreeOn guarded c c' ∧ agreeOn guarded s s'
    ∧ (validate s = true → validate s' = true)
    ∧ s' !! "passwordHistory" = s !! "passwordHistory".
Proof.
  intros Hid Hpre Hv Hur Hdev. unfold issuePair, generateRefreshToken, sign.
  cbn [decode users withUsers tokenBlacklist refreshTokens cur tok_jti tok_exp].
  cbn [id identEmail identRole].
  destruct (addRefreshToken_valid now
              (Sha256Token (Signed (getRefreshSecret env)
                 (mkClaims (docId c) (UserModel.email c) None "refresh"
                    (now / 1000) (now / 1000 + refreshLifetime env)
                    (issuer env) (audience env) ur)))
              ur ((now / 1000 + refreshLifetime env) * 1000) device
              c (pre ++ s :: post) Hv Hur Hdev) as [r Hr].
  rewrite Hr.
  apply addRefreshToken_keeps in Hr as (c' & s' & -> & Hc & Hs & _ & Hvs & Hh);
    [| done | done].
  by eexists _, _, c', s', _.
Qed.

Lemma admissible_fields c :
  admissible c = true ↔
  recordable c = true ∧ ipPattern (clientIP c) = true
  ∧ Js.len (userAgentOf c ++ " - " ++ clientIP c) ≤ 200.
Proof.
  unfold admissible. rewrite !andb_true_iff, bool_decide_eq_true. tauto.
Qed.

Lemma passwordHistory_agree d d' :
  d !! "passwordHistory" = d' !! "passwordHistory" →
  passwordHistory d = passwordHistory d'.
Proof. unfold passwordHistory. by intros ->. Qed.

(** The right password on an unlocked account that has never changed its
    password, from a client that can log in. *)
Lemma loginUser_success env now ua ur c emailIn pwIn w pre post s :
  storedAt (Js.toLowerCase emailIn) (users w) pre post s →
  UserModel.status s = Some "active" →
  isLocked now s = false →
  comparePassword pwIn s = true →
  validate s = true →
  passwordHistory s = [] →
  admissible c = true → ur ≠ "" →
  ∃ r w' s',
    loginUser env now ua ur c emailIn pwIn w = (r, w')
    ∧ Http.status r = 200 ∧ is_Some (Http.tokens r)
    ∧ users w' = (pre ++ s' :: post)%list
    ∧ agreeOn credentials s s'
    ∧ loginAttempts s' = 0 ∧ lockUntil s' = None
    ∧ validate s' = true
    ∧ s' !! "passwordHistory" = s !! "passwordHistory".
Proof.
  intros Hst Hactive Hlocked Hpw Hv Hhist
    ([Hip Hua]%recordable_fields & Hpat & Hdev)%admissible_fields Hur.
  unfold loginUser.
  rewrite (storedAt_find _ _ _ _ _ Hst). cbn [fmap option_fmap option_map].
  destruct (guarded_reads env now pwIn "" _ _ (select_password_guarded s))
    as (Hid & Hstatus & _ & _ & _ & _ & _ & Hlock & Hcmp & _).
  rewrite <- Hstatus, Hactive, bool_decide_true by done. cbn [negb].
  rewrite <- Hlock, Hlocked, <- Hcmp, Hpw. cbn [negb].
  rewrite isPasswordInHistory_select
    by (first [apply not_elem_of_nil | path_not_in]).
  rewrite Hhist.
  pose proof (storedAt_ids _ _ _ _ _ Hst) as Hids.
  pose proof (validate_select_password s Hv) as Hvc.
  destruct Hst as (Hdb & Hpre & Hs). rewrite Hdb. unfold load. cbn [cur].
  rewrite updateOne_existing by done.
  destruct (applyUpdate_reset s) as (Hcred & Hzero & Hnone).
  pose proof (validate_reset s Hv) as Hv1.
  pose proof (applyUpdate_reset_other s "passwordHistory" ltac:(done) ltac:(done))
    as Hh1.
  set (s1 := applyUpdate resetLoginAttempts s) in *.
  destruct (credentials_reads env "" "" _ _ Hcred) as (Hid1 & _).
  assert (Forall (λ d, hasId (docId s1) d = false) pre) as Hids1
    by by rewrite <- Hid1.
  destruct (recordLogin_valid now (clientIP c) (userAgentOf c) true (locationOf c)
              (select ["password"] [] s) (pre ++ s1 :: post) Hvc Hip Hua
              ltac:(done)) as [r2 Hr2].
  rewrite Hr2.
  apply recordLogin_keeps in Hr2
    as (c2 & s2 & -> & Hc2 & Hs2 & Hvc2 & Hvs2 & Hh2); [| congruence | done].
  destruct (guarded_reads env now pwIn "" _ _ Hc2) as (Hidc2 & _).
  destruct (guarded_reads env now pwIn "" _ _ Hs2)
    as (Hids2 & _ & _ & Hla2 & Hlu2 & _).
  destruct (updateLastActive_valid now c2 (pre ++ s2 :: post) Hvc2) as [r3 Hr3].
  rewrite Hr3.
  apply updateLastActive_keeps in Hr3
    as (c3 & s3 & -> & Hc3 & Hs3 & Hvc3 & Hvs3 & Hh3);
    [| congruence | by rewrite <- Hids2].
  destruct (guarded_reads env now pwIn "" _ _ Hc3) as (Hidc3 & _).
  destruct (guarded_reads env now pwIn "" _ _ Hs3)
    as (Hids3 & _ & _ & Hla3 & Hlu3 & _).
  destruct (issuePair_keeps env now ua ur (userAgentOf c ++ " - " ++ clientIP c)
              c3 pre s3 post w)
    as (a & r & c4 & s4 & w4 & -> & Hw4 & Hc4 & Hs4 & Hvs4 & Hh4);
    [congruence | by rewrite <- Hids3, <- Hids2 | done | done | done |].
  destruct (guarded_reads env now pwIn "" _ _ Hs4)
    as (_ & _ & _ & Hla4 & Hlu4 & _).
  eexists _, w4, s4.
  split_and!; [reflexivity | done | by eexists | done | | | | |].
  - eapply agreeOn_trans; [exact Hcred |].
    apply (agreeOn_weaken guarded); [apply credentials_guarded |].
    eapply agreeOn_trans; [exact Hs2 |]. eapply agreeOn_trans; [exact Hs3 | exact Hs4].
  - congruence.
  - congruence.
  - auto.
  - congruence.
Qed.

(** The right password on an unlocked account that has changed its password
    before: the loop over the password history rejects, and the answer is
    500. *)
Lemma loginUser_history env now ua ur c emailIn pwIn w s :
  findOne (emailNotDeleted (Js.toLowerCase emailIn)) (users w) = Some s →
  UserModel.status s = Some "active" →
  isLocked now s = false →
  comparePassword pwIn s = true →
  passwordHistory s ≠ [] →
  loginUser env now ua ur c emailIn pwIn w
    = (Http.reply 500 "Login failed. Please try again later.", w).
Proof.
  intros Hf Hactive Hlocked Hpw Hhist. unfold loginUser. rewrite Hf.
  cbn [fmap option_fmap option_map].
  destruct (guarded_reads env now pwIn "" _ _ (select_password_guarded s))
    as (Hid & Hstatus & _ & _ & _ & _ & _ & Hlock & Hcmp & _).
  rewrite <- Hstatus, Hactive, bool_decide_true by done. cbn [negb].
  rewrite <- Hlock, Hlocked, <- Hcmp, Hpw. cbn [negb].
  rewrite isPasswordInHistory_select
    by (first [apply not_elem_of_nil | path_not_in]).
  by destruct (passwordHistory s).
Qed.

(** *** A run of attempts on one account *)

Section OneAccount.
Context (env : Env) (emailIn pw : string) (s0 : Doc).
Hypothesis s0_active : UserModel.status s0 = Some "active".
Hypothesis s0_password : password s0 = Some (Bcrypt (Plain pw)).

Lemma account_wrong_password (a : Attempt) w k :
  account emailIn s0 w k None →
  bcryptKey (at_password a) ≠ bcryptKey pw →
  recordable (at_client a) = true →
  Http.status (answerTo env emailIn a w).1 = 401
  ∧ (k < 50 →
     account emailIn s0 (answerTo env emailIn a w).2 (k + 1)
       (if bool_decide (maxLoginAttempts env s0 ≤ k + 1)
        then Some (at_now a + lockTime env s0) else None)).
Proof.
  intros (pre & post & s & Hst & Hcred & Hk & Hlk & Hv & Hh) Hwrong Hrec.
  destruct (credentials_reads env (Js.toLowerCase emailIn) (at_password a) _ _ Hcred)
    as (Hid & _ & Hstatus & Hpw & Hmax & Hlt & Hcmp).
  assert (isLocked (at_now a) s = false) as Hnl
    by (unfold isLocked; by rewrite Hlk).
  assert (comparePassword (at_password a) s = false) as Hbad.
  { rewrite <- Hcmp. unfold comparePassword. rewrite s0_password.
    cbn [bcryptCompare]. by apply bool_decide_eq_false. }
  destruct (loginUser_failed env (at_now a) (at_uuidA a) (at_uuidR a) (at_client a)
              emailIn (at_password a) w pre post s Hst)
    as (s1 & Heq & Hs1 & Hv1 & Hh1); [congruence | done | done | done | done |].
  unfold answerTo. rewrite Heq. split; [done |]. intros Hroom. clear Heq.
  cbn [snd users withUsers].
  assert (s1 !! "loginAttempts" = s !! "loginAttempts") as Hsame.
  { symmetry. apply (agreeOn_lookup _ _ _ _ Hs1). unfold guarded. path_in. }
  destruct (applyUpdate_incLoginAttempts env (at_now a) s s1 Hsame)
    as (Hc & _ & Hother).
  destruct Hother as (Hcount & Hset & Hkeep);
    [intros (t & Ht & _); congruence |].
  assert (agreeOn credentials s0
            (applyUpdate (incLoginAttempts env (at_now a) s) s1)) as Hcred'.
  { eapply agreeOn_trans; [exact Hcred |].
    eapply agreeOn_trans; [| exact Hc].
    apply (agreeOn_weaken guarded); [apply credentials_guarded | done]. }
  exists pre, post, (applyUpdate (incLoginAttempts env (at_now a) s) s1).
  split_and!; [| done | by rewrite Hcount, Hk | | |].
  - eapply storedAt_replace; [exact Hst |].
    eapply agreeOn_trans; [| exact Hc].
    apply (agreeOn_weaken guarded); [apply credentials_guarded | done].
  - rewrite Hmax, Hlt, <- Hk. case_bool_decide.
    + by apply Hset.
    + rewrite Hkeep by (left; lia).
      destruct (guarded_reads env 0 "" "" _ _ Hs1) as (_ & _ & _ & _ & <- & _).
      done.
  - apply validate_incLoginAttempts; [done |].
    destruct (guarded_reads env 0 "" "" _ _ Hs1) as (_ & _ & _ & <- & _). lia.
  - rewrite applyUpdate_inc_other by done. congruence.
Qed.

Lemma account_locked (a : Attempt) w k t :
  account emailIn s0 w k (Some t) →
  at_now a < t →
  Http.status (answerTo env emailIn a w).1
    = (if recordable (at_client a) then 423 else 500)
  ∧ account emailIn s0 (answerTo env emailIn a w).2 k (Some t).
Proof.
  intros (pre & post & s & Hst & Hcred & Hk & Hlk & Hv & Hh) Hin.
  destruct (credentials_reads env (Js.toLowerCase emailIn) (at_password a) _ _ Hcred)
    as (Hid & _ & Hstatus & _).
  assert (isLocked (at_now a) s = true) as Hl.
  { unfold isLocked. rewrite Hlk. by apply bool_decide_eq_true. }
  destruct (loginUser_locked env (at_now a) (at_uuidA a) (at_uuidR a) (at_client a)
              emailIn (at_password a) w pre post s Hst)
    as (s' & r & Heq & Hs' & Hv' & Hh' & Hr); [congruence | done | done |].
  unfold answerTo. rewrite Heq. split; [done |].
  cbn [snd users withUsers].
  destruct (guarded_reads env 0 "" "" _ _ Hs') as (_ & _ & _ & Hla & Hlu & _).
  exists pre, post, s'.
  split_and!; [| | congruence | congruence | done | congruence].
  - eapply storedAt_replace; [exact Hst |].
    apply (agreeOn_weaken guarded); [apply credentials_guarded | done].
  - eapply agreeOn_trans; [exact Hcred |].
    apply (agreeOn_weaken guarded); [apply credentials_guarded | done].
Qed.

Lemma account_right_password (a : Attempt) w k lk :
  account emailIn s0 w k lk →
  (∀ t, lk = Some t → t ≤ at_now a) →
  bcryptKey (at_password a) = bcryptKey pw →
  passwordHistory s0 = [] →
  admissible (at_client a) = true →
  at_uuidR a ≠ "" →
  Http.status (answerTo env emailIn a w).1 = 200
  ∧ is_Some (Http.tokens (answerTo env emailIn a w).1)
  ∧ account emailIn s0 (answerTo env emailIn a w).2 0 None.
Proof.
  intros (pre & post & s & Hst & Hcred & Hk & Hlk & Hv & Hh) Hover Hright
    Hhist Hadm Hur.
  destruct (credentials_reads env (Js.toLowerCase emailIn) (at_password a) _ _ Hcred)
    as (Hid & _ & Hstatus & Hpw & _ & _ & Hcmp).
  assert (isLocked (at_now a) s = false) as Hnl.
  { unfold isLocked. rewrite Hlk. destruct lk as [t |]; [| done].
    apply bool_decide_eq_false. specialize (Hover t eq_refl). lia. }
  assert (comparePassword (at_password a) s = true) as Hgood.
  { rewrite <- Hcmp. unfold comparePassword. rewrite s0_password.
    cbn [bcryptCompare]. by apply bool_decide_eq_true. }
  destruct (loginUser_success env (at_now a) (at_uuidA a) (at_uuidR a) (at_client a)
              emailIn (at_password a) w pre post s Hst)
    as (r & w' & s' & Heq & Hr & Htok & Hw' & Hs' & Hzero & Hnone & Hv' & Hh');
    [congruence | done | done | done
     | by rewrite (passwordHistory_agree _ _ Hh) | done | done |].
  unfold answerTo. rewrite Heq. split_and!; [done | done |].
  cbn [snd]. exists pre, post, s'. rewrite Hw'.
  split_and!; [| | done | done | done | congruence].
  - eapply storedAt_replace; [exact Hst | done].
  - eapply agreeOn_trans; [exact Hcred | done].
Qed.

(** With a password history the right password is answered 500, and nothing
    changes. *)
Lemma account_with_history (a : Attempt) w k lk :
  account emailIn s0 w k lk →
  (∀ t, lk = Some t → t ≤ at_now a) →
  bcryptKey (at_password a) = bcryptKey pw →
  passwordHistory s0 ≠ [] →
  answerTo env emailIn a w
    = (Http.reply 500 "Login failed. Please try again later.", w).
Proof.
  intros (pre & post & s & Hst & Hcred & Hk & Hlk & Hv & Hh) Hover Hright Hhist.
  destruct (credentials_reads env (Js.toLowerCase emailIn) (at_password a) _ _ Hcred)
    as (Hid & _ & Hstatus & Hpw & _ & _ & Hcmp).
  unfold answerTo.
  apply (loginUser_history _ _ _ _ _ _ _ _ s);
    [by eapply storedAt_find | congruence | | |].
  - unfold isLocked. rewrite Hlk. destruct lk as [t |]; [| done].
    apply bool_decide_eq_false. specialize (Hover t eq_refl). lia.
  - rewrite <- Hcmp. unfold comparePassword. rewrite s0_password.
    cbn [bcryptCompare]. by apply bool_decide_eq_true.
  - by rewrite (passwordHistory_agree _ _ Hh).
Qed.

(** Wrong passwords below the maximum only count. *)
Lemma account_counting (failed : list Attempt) w k :
  account emailIn s0 w k None →
  Forall (λ a, bcryptKey (at_password a) ≠ bcryptKey pw
               ∧ recordable (at_client a) = true) failed →
  k + Z.of_nat (length failed) < maxLoginAttempts env s0 →
  maxLoginAttempts env s0 ≤ 50 →
  account emailIn s0 (run env w (attemptOn emailIn <$> failed))
    (k + Z.of_nat (length failed)) None.
Proof.
  revert w k. induction failed as [| a failed IH]; intros w k Hacc Hwrong Hlt Hmax.
  - cbn [length fmap list_fmap run foldl]. by rewrite Z.add_0_r.
  - inversion_clear Hwrong as [| ? ? [Ha Hrec] Hrest].
    cbn [length] in *. rewrite fmap_cons. unfold run. cbn [foldl].
    fold (run env (step env w (attemptOn emailIn a)) (attemptOn emailIn <$> failed)).
    destruct (account_wrong_password a w k Hacc Ha Hrec) as [_ Hnext].
    specialize (Hnext ltac:(lia)).
    rewrite bool_decide_false in Hnext by lia.
    replace (k + Z.of_nat (S (length failed)))
      with (k + 1 + Z.of_nat (length failed)) by lia.
    apply IH; [exact Hnext | done | lia | done].
Qed.

(** Attempts made while the lock holds leave the account as it is. *)
Lemma account_stays_locked (during : list Attempt) w k t :
  account emailIn s0 w k (Some t) →
  Forall (λ a, at_now a < t) during →
  account emailIn s0 (run env w (attemptOn emailIn <$> during)) k (Some t).
Proof.
  revert w. induction during as [| a during IH]; intros w Hacc Hin; [done |].
  inversion_clear Hin as [| ? ? Ha Hrest].
  rewrite fmap_cons. unfold run. cbn [foldl].
  fold (run env (step env w (attemptOn emailIn a)) (attemptOn emailIn <$> during)).
  apply IH; [| done]. by apply account_locked.
Qed.

End OneAccount.

Lemma run_app env w es1 es2 : run env w (es1 ++ es2) = run env (run env w es1) es2.
Proof. unfold run. apply foldl_app. Qed.



Lemma alice_unique : NoDup (docId <$> users loggedIn.2).
Proof. apply (bool_decide_unpack _). vm_compute. exact I. Qed.

Lemma alice_found :
  aliceByEmail loggedIn.2 = Some (default ∅ (aliceByEmail loggedIn.2)).
Proof. apply found_default. vm_compute. reflexivity. Qed.

Lemma fiveGuesses_fail :
  Forall (λ a, bcryptKey (at_password a) ≠ bcryptKey "Passw0rd!"
               ∧ recordable (at_client a) = true) fiveGuesses.
Proof. repeat constructor; vm_compute; discriminate. Qed.


(** *** Revocation in the persisted list and the refresh endpoint *)

Lemma updateFirst_status (p : Doc → bool) (f : Doc → Doc) (db : DB) ident :
  (∀ d, f d !! "_id" = d !! "_id" ∧ f d !! "status" = d !! "status") →
  (λ d, d !! "status") <$> byId ident (updateFirst p f db)
  = (λ d, d !! "status") <$> byId ident db.
Proof.
  intros Hf. unfold byId. induction db as [| d db IH]; [done |].
  cbn [updateFirst]. destruct (p d); cbn [find].
  - assert (hasId ident (f d) = hasId ident d) as ->.
    { unfold hasId. by rewrite (docId_agree _ _ (proj1 (Hf d))). }
    destruct (hasId ident d); [| done].
    cbn [fmap option_fmap option_map]. f_equal. apply Hf.
  - by destruct (hasId ident d).
Qed.

Lemma preSave_dirty now m k :
  k ∉ dirty m → k ∉ ["passwordHistory"; "password"; "passwordLastChanged"] →
  isNew (preSave now m) = isNew m ∧ k ∉ dirty (preSave now m).
Proof.
  intros Hk Hne.
  apply not_elem_of_cons in Hne as [N1 Hne].
  apply not_elem_of_cons in Hne as [N2 Hne].
  apply not_elem_of_cons in Hne as [N3 _].
  unfold preSave. destruct (negb (isModified "password" m)); [done |].
  destruct (password (cur m)) as [pw |]; [destruct (negb (isNew m)) |];
    unfold assign; cbn [cur dirty isNew];
    repeat match goal with
           | |- context [match password ?x with _ => _ end] =>
               destruct (password x)
           end;
    cbn [cur dirty isNew];
    (split; [done |]);
    by repeat (apply not_elem_of_cons; split; [done |]).
Qed.

Lemma save_status now m db ident r :
  save now m db = inr r →
  isNew m = false → "status" ∉ dirty m → "_id" ∉ dirty m →
  (λ d, d !! "status") <$> byId ident r.2
  = (λ d, d !! "status") <$> byId ident db.
Proof.
  intros [_ ->]%save_inr Hnew Hst Hid. unfold persist.
  destruct (preSave_dirty now m "status" Hst ltac:(path_not_in)) as [Hnew' Hst'].
  destruct (preSave_dirty now m "_id" Hid ltac:(path_not_in)) as [_ Hid'].
  rewrite Hnew', Hnew. cbn [snd]. apply updateFirst_status.
  intros d. rewrite !writePaths_lookup. by rewrite !decide_False by done.
Qed.

Lemma save_loaded now m db r :
  save now m db = inr r → r.1 = mkLoaded (cur r.1) [] false.
Proof. by intros [_ ->]%save_inr. Qed.

Lemma sameForRefresh_refl w : sameForRefresh w w.
Proof. by unfold sameForRefresh. Qed.

Lemma sameForRefresh_users w db :
  (∀ ident, (λ d, d !! "status") <$> byId ident db
            = (λ d, d !! "status") <$> byId ident (users w)) →
  sameForRefresh w (withUsers db w).
Proof. intros H. unfold sameForRefresh. split_and!; [done | done | exact H]. Qed.

Lemma logoutAllDevices_sameForRefresh now ru w :
  sameForRefresh w (logoutAllDevices now ru w).2.
Proof.
  unfold logoutAllDevices.
  destruct (findById (reqId ru) (users w)) as [e | found];
    [apply sameForRefresh_refl |].
  destruct (select [] [] <$> found) as [u |]; [| apply sameForRefresh_refl].
  destruct (revokeAllRefreshTokens _ _ _) as [e | [m1 db1]] eqn:Hsave;
    [apply sameForRefresh_refl |].
  cbn [snd]. apply sameForRefresh_users. intros ident.
  unfold revokeAllRefreshTokens, load, assign in Hsave. cbn [cur dirty isNew] in Hsave.
  change db1 with (m1, db1).2.
  apply (save_status _ _ _ _ _ Hsave); cbn [isNew dirty];
    [done | path_not_in | path_not_in].
Qed.

Lemma changePassword_sameForRefresh now ru cp np w :
  sameForRefresh w (changePassword now ru cp np w).2.
Proof.
  unfold changePassword.
  destruct (findById (reqId ru) (users w)) as [e | found];
    [apply sameForRefresh_refl |].
  destruct (select _ _ <$> found) as [u |]; [| apply sameForRefresh_refl].
  destruct (negb (comparePassword cp u)); [apply sameForRefresh_refl |].
  destruct (isPasswordInHistory np u) as [e | []];
    [apply sameForRefresh_refl | apply sameForRefresh_refl |].
  destruct (revokeAllRefreshTokens _ _ _) as [e | [m1 db1]] eqn:Hsave1;
    [apply sameForRefresh_refl |].
  unfold revokeAllRefreshTokens, load, assign in Hsave1.
  cbn [cur dirty isNew] in Hsave1.
  assert (∀ ident, (λ d, d !! "status") <$> byId ident db1
                   = (λ d, d !! "status") <$> byId ident (users w)) as H1.
  { intros ident. change db1 with (m1, db1).2.
    apply (save_status _ _ _ _ _ Hsave1); cbn [isNew dirty];
      [done | path_not_in | path_not_in]. }
  destruct (save now m1 db1) as [e | [m2 db2]] eqn:Hsave2; cbn [snd];
    [by apply sameForRefresh_users |].
  apply sameForRefresh_users. intros ident. rewrite <- H1.
  pose proof (save_loaded _ _ _ _ Hsave1) as Hm1. cbn [fst] in Hm1.
  rewrite Hm1 in Hsave2.
  change db2 with (m2, db2).2.
  apply (save_status _ _ _ _ _ Hsave2); cbn [isNew dirty];
    [done | apply not_elem_of_nil | apply not_elem_of_nil].
Qed.

(** Whatever the refresh endpoint answered before a logout from all devices
    or a change of password, it answers with the same status afterwards. *)
Lemma refreshGates_sameForRefresh env now body w w' :
  sameForRefresh w w' → refreshGates env now body w → refreshGates env now body w'.
Proof.
  intros (Hbl & Hrt & Hst) (t & c & info & u & Hb & Hty & Hnbl & Hv & Htype & Hinfo & Hu & Hact).
  apply findById_inr in Hu as [Hoid Hu].
  specialize (Hst (tok_id c)). rewrite <- Hu in Hst.
  destruct (byId (tok_id c) (users w')) as [u' |] eqn:Hu'; [| done].
  injection Hst as Hst.
  exists t, c, info, u'. split_and!; try done.
  - unfold isTokenBlacklisted in *. by rewrite Hbl.
  - by rewrite Hrt.
  - apply findById_inr. by rewrite Hu'.
  - rewrite notActive_select in * by path_not_in.
    unfold notActive, UserModel.status, getStr in *. by rewrite Hst.
Qed.

Lemma refreshThrows_sameForRefresh env now body w w' :
  sameForRefresh w w' → refreshThrows env now body w → refreshThrows env now body w'.
Proof.
  intros (Hbl & Hrt & _) (t & c & info & Hb & Hty & Hnbl & Hv & Htype & Hinfo & Hoid).
  exists t, c, info. split_and!; try done.
  - unfold isTokenBlacklisted in *. by rewrite Hbl.
  - by rewrite Hrt.
Qed.

Lemma sameForRefresh_sym w w' : sameForRefresh w w' → sameForRefresh w' w.
Proof. intros (? & ? & H). split_and!; [done | done |]. intros. by rewrite H. Qed.

Lemma refreshAccessToken_sameForRefresh env now ua ur body w w' :
  sameForRefresh w w' →
  Http.status (refreshAccessToken env now ua ur body w').1
  = Http.status (refreshAccessToken env now ua ur body w).1.
Proof.
  intros H. pose proof (sameForRefresh_sym _ _ H) as H'.
  destruct (refreshAccessToken_status env now ua ur body w)
    as [(-> & _ & Hg & Ht) | [(-> & _ & Hg & Ht) | (-> & _ & Hg & Ht & _)]];
  destruct (refreshAccessToken_status env now ua ur body w')
    as [(-> & _ & Hg' & Ht') | [(-> & _ & Hg' & Ht') | (-> & _ & Hg' & Ht' & _)]];
  try done; exfalso;
  eauto using refreshGates_sameForRefresh, refreshThrows_sameForRefresh.
Qed.

Lemma revocation_invisible_to_refresh env now ru cp np now' ua ur body w :
  Http.status (refreshAccessToken env now' ua ur body (logoutAllDevices now ru w).2).1
    = Http.status (refreshAccessToken env now' ua ur body w).1
  ∧ Http.status (refreshAccessToken env now' ua ur body (changePassword now ru cp np w).2).1
    = Http.status (refreshAccessToken env now' ua ur body w).1.
Proof.
  split; apply refreshAccessToken_sameForRefresh.
  - apply logoutAllDevices_sameForRefresh.
  - apply changePassword_sameForRefresh.
Qed.

End Lockout.

(** ** What a response shows of a user document *)

Section Serialisation.
Import Jwt UserModel AuthMiddleware AuthController Scenario Invariants.

Lemma toJSON_hides (d : Doc) (k : string) :
  k ∈ Spec.sensitive → toJSON d !! k = None.
Proof.
  intros Hk. unfold toJSON.
  assert (k ≠ "_id" ∧ k ≠ "id") as [H1 H2].
  { unfold Spec.sensitive in Hk.
    repeat (apply elem_of_cons in Hk as [-> | Hk]; [done |]).
    by apply elem_of_nil in Hk. }
  rewrite lookup_delete_ne by done.
  assert (dropPaths ["password"; "refreshTokens"; "twoFactorSecret";
                     "resetPasswordToken"; "emailVerificationToken";
                     "passwordHistory"; "backupCodes"; "__v"] d !! k = None) as Hd.
  { rewrite dropPaths_lookup. rewrite decide_True; [done |].
    unfold Spec.sensitive in Hk.
    repeat (apply elem_of_cons in Hk as [-> | Hk]; [path_in |]).
    by apply elem_of_nil in Hk. }
  destruct (dropPaths _ d !! "_id"); [by rewrite lookup_insert_ne | done].
Qed.

Lemma object_absent {V} (props : list (string * option V)) (k : string) :
  k ∉ props.*1 → Js.object props !! k = None.
Proof.
  intros Hk. unfold Js.object. apply not_elem_of_list_to_map_1.
  intros Hin. apply Hk. clear Hk.
  induction props as [| [k' [v |]] props IH]; cbn in *.
  - done.
  - apply elem_of_cons in Hin as [-> | Hin]; [by left | right; by apply IH].
  - right. by apply IH.
Qed.

(** C10.  The [user] object of a successful registration, login or getUser
    response has none of the paths password, refreshTokens, twoFactorSecret,
    passwordHistory, backupCodes, resetPasswordToken and
    emailVerificationToken; that of a login has no loginAttempts and no
    lockUntil either. *)
Theorem C10_responses_omit_secrets :
  (∀ env now newId ua ur rnd c f e p img w,
     Http.status (registerUser env now newId ua ur rnd c f e p img w).1 = 201 →
     ∃ o, Http.user (registerUser env now newId ua ur rnd c f e p img w).1 = Some o
          ∧ Forall (λ k, o !! k = None) Spec.sensitive)
  ∧ (∀ env now ua ur c e p w,
       Http.status (loginUser env now ua ur c e p w).1 = 200 →
       ∃ o, Http.user (loginUser env now ua ur c e p w).1 = Some o
            ∧ Forall (λ k, o !! k = None)
                (Spec.sensitive ++ ["loginAttempts"; "lockUntil"]))
  ∧ (∀ now ru w,
       Http.status (getUserInfo now ru w).1 = 200 →
       ∃ o, Http.user (getUserInfo now ru w).1 = Some o
            ∧ Forall (λ k, o !! k = None) Spec.sensitive).
Proof.
  split_and!.
  - intros *. unfold registerUser.
    destruct (findByEmail e (users w)); [intros [=] |].
    destruct (create _ _ _ _ _) as [[] | [m db1]]; [by intros [=].. |].
    destruct (recordLogin _ _ _ _ _ _ _) as [[] | [m2 db2]]; [by intros [=].. |].
    destruct (issuePair _ _ _ _ _ _ _) as [[[] | [[a r] m3]] w1];
      [by intros [=].. |].
    cbn [fst Http.status Http.user]. intros _. eexists. split; [reflexivity |].
    apply Forall_forall. intros k Hk. apply object_absent.
    cbn [fmap list_fmap fst]. clear -Hk. unfold Spec.sensitive in Hk.
    repeat (apply elem_of_cons in Hk as [-> | Hk]; [path_not_in |]).
    destruct (proj1 (elem_of_nil _) Hk).
  - intros *. unfold loginUser.
    repeat case_match; simplify_eq; cbn [fst Http.status Http.user Http.reply];
      try (intros [=]; fail).
    intros _. eexists. split; [reflexivity |].
    apply Forall_app. split.
    + apply Forall_forall. intros k Hk.
      assert (k ≠ "lockUntil" ∧ k ≠ "loginAttempts") as [Hne1 Hne2].
      { unfold Spec.sensitive in Hk.
        repeat (apply elem_of_cons in Hk as [-> | Hk]; [done |]).
        by apply elem_of_nil in Hk. }
      rewrite !lookup_delete_ne by done. by apply toJSON_hides.
    + repeat constructor.
      * by rewrite lookup_delete_ne, lookup_delete_eq.
      * by rewrite lookup_delete_eq.
  - intros *. unfold getUserInfo.
    repeat case_match; simplify_eq; cbn [fst Http.status Http.user Http.reply];
      try (intros [=]; fail).
    intros _. eexists. split; [reflexivity |].
    apply Forall_forall. intros k Hk. by apply toJSON_hides.
Qed.

(** Alice's login: the document the handler loaded carries the password hash
    and the refresh-token descriptors, the [user] object of the response
    carries neither. *)
Lemma C10_responses_omit_secrets_witness :
  ∃ o, Http.user loggedIn.1 = Some o
       ∧ Forall (λ k, o !! k = None)
           (Spec.sensitive ++ ["loginAttempts"; "lockUntil"]).
Proof.
  apply (proj1 (proj2 C10_responses_omit_secrets)).
  vm_compute. reflexivity.
Defined.

End Serialisation.

(** ** The session middleware and the guards behind it *)

Section SessionGuards.
Import Jwt UserModel AuthMiddleware AuthController Guards AuthRoutes Server
  Scenario Cases Invariants.

(** What a request that the session middleware lets through has shown. *)
Lemma authenticateToken_next env now authorization w ru t w' :
  authenticateToken env now authorization w = (Next ru t, w') →
  w' = w ∧ bearer authorization = Some t ∧ truthy t = true
  ∧ isTokenBlacklisted t w = false
  ∧ ∃ c u,
      verify now t (getCurrentJWTSecret env) (issuer env) (audience env) = inr c
      ∧ tok_tokenType c = "access"
      ∧ findById (tok_id c) (users w) = inr (Some u)
      ∧ notActive u = false ∧ isLocked now u = false
      ∧ ru = mkReqUser (tok_id c) (tok_email c) (Js.strOr (tok_role c) "user")
               (tok_jti c) (fullName (select [] ["password"] u))
               (profileImageUrl (select [] ["password"] u)).
Proof.
  unfold authenticateToken.
  destruct (bearer authorization) as [t' |]; [| done].
  destruct (truthy t') eqn:Hty; [| done]. cbn [negb].
  destruct (isTokenBlacklisted t' w) eqn:Hbl; [done |].
  destruct (verify now t' _ _ _) as [[] | c] eqn:Hv; [done.. |].
  case_bool_decide as Htype; [| done]. cbn [negb].
  destruct (findById (tok_id c) (users w)) as [e | [u |]] eqn:Hu; [done | | done].
  cbn [fmap option_fmap option_map].
  rewrite notActive_select, isLocked_select by path_not_in.
  destruct (notActive u) eqn:Hact; [done |].
  destruct (isLocked now u) eqn:Hlock; [done |].
  intros [= <- <- <-]. split_and!; [done.. |]. by exists c, u.
Qed.

(** The session middleware never answers 200 itself. *)
Lemma authenticateToken_respond env now authorization w r w' :
  authenticateToken env now authorization w = (Respond r, w') →
  Http.status r = 401 ∨ Http.status r = 423 ∨ Http.status r = 500.
Proof.
  unfold authenticateToken.
  repeat case_match; intros [= <- <-]; cbn; auto.
Qed.

Lemma strOr_truthy (s : option string) (d : string) :
  d ≠ "" → Js.strOr (Some (Js.strOr s d)) d = Js.strOr s d.
Proof.
  intros Hd. unfold Js.strOr. destruct s as [v |]; repeat case_decide; congruence.
Qed.

Lemma strOr_is (s : option string) (d v : string) :
  v ≠ d → v ≠ "" → Js.strOr s d = v ↔ s = Some v.
Proof.
  intros Hd Hv. unfold Js.strOr. destruct s as [x |]; [case_decide |];
    split; intros; simplify_eq; done.
Qed.

(** X1.  Behind the session middleware, [requireAdmin] lets a request through
    exactly when the role claim of the presented token is admin or
    super-admin; the role stored with the account is not consulted. *)
Theorem requireAdmin_decides_by_the_token (env : Env) (now : Z)
    (authorization : option (list Token)) (w : World) (ru : ReqUser)
    (t : Token) (c : Claims) :
  (authenticateToken env now authorization w).1 = Next ru t →
  decode t = Some c →
  requireAdmin (Some ru) = Pass
  ↔ tok_role c = Some "admin" ∨ tok_role c = Some "super-admin".
Proof.
  destruct (authenticateToken env now authorization w) as [o w'] eqn:Hauth.
  cbn [fst]. intros -> Hdec.
  apply authenticateToken_next in Hauth
    as (_ & _ & _ & _ & c' & u & Hv & _ & _ & _ & _ & ->).
  apply verify_decode in Hv. rewrite Hv in Hdec. injection Hdec as ->.
  unfold requireAdmin, requireRole. cbn [fmap option_fmap option_map reqRole].
  rewrite strOr_truthy by done.
  rewrite <- (strOr_is (tok_role c) "user" "admin") by done.
  rewrite <- (strOr_is (tok_role c) "user" "super-admin") by done.
  case_bool_decide as Hin; cbn [negb].
  - split; [intros _ | done].
    apply elem_of_cons in Hin as [-> | Hin]; [by left |].
    apply elem_of_cons in Hin as [-> | Hin]; [by right |].
    by apply elem_of_nil in Hin.
  - split; [done |]. intros [Hr | Hr]; destruct Hin; rewrite Hr.
    + by left.
    + right. by left.
Qed.

(** A token with the role claim admin that names Alice passes, although her
    stored role is user. *)
Lemma requireAdmin_decides_by_the_token_witness :
  requireAdmin (Some adminReq) = Pass
  ∧ (role <$> aliceIn loggedIn.2) = Some (Some "user").
Proof.
  split; [| vm_compute; reflexivity].
  apply (requireAdmin_decides_by_the_token noEnv (t0 + 120000)
           (bearerHeader adminToken) loggedIn.2 adminReq adminToken
           (mkClaims "64f0c0ffee0000000000a11c" "alice@example.com" (Some "admin")
              "access" 1700000060 1700003660 "expense-tracker"
              "expense-tracker-users" "b5c6d7e8-1a2b-4c3d-9e4f-5a6b7c8d9e0f")).
  - vm_compute. reflexivity.
  - vm_compute. reflexivity.
  - by left.
Defined.

(** *** The two kinds of token *)

(** X2.  A refresh token is never accepted as an access token, and an access
    token is never accepted as a refresh token, whatever the configuration
    (also when both secrets are set to the same value), the clock and the
    state of the server: the session middleware and the refresh endpoint
    answer 401 and leave the server as it was. *)
Theorem token_kinds_are_not_interchangeable (env : Env) (now now' : Z)
    (uuid ua ur : string) (payload : Identity) (scheme : Token) (w0 w : World) :
  (∃ r, authenticateToken env now'
          (Some [scheme; (generateRefreshToken env now uuid payload w0).1]) w
        = (Respond r, w) ∧ Http.status r = 401)
  ∧ (∃ r, refreshAccessToken env now' ua ur
            (Some (generateToken env now uuid payload)) w = (r, w)
          ∧ Http.status r = 401 ∧ Http.tokens r = None).
Proof.
  split.
  - unfold authenticateToken, generateRefreshToken, sign.
    cbn [fst bearer lookup list_lookup truthy negb].
    destruct (isTokenBlacklisted _ w); [by eexists |].
    destruct (verify now' _ _ _ _) as [[] | c] eqn:Hv; [by eexists.. |].
    apply verify_inr in Hv as ([= _ <-] & _). cbn [tok_tokenType].
    rewrite bool_decide_false by done. by eexists.
  - unfold refreshAccessToken, generateToken, sign. cbn [truthy negb].
    destruct (isTokenBlacklisted _ w); [by eexists |].
    destruct (verify now' _ _ _ _) as [[] | c] eqn:Hv; [by eexists.. | |].
    + by apply verify_never_not_before in Hv.
    + apply verify_inr in Hv as ([= _ <-] & _). cbn [tok_tokenType].
      rewrite bool_decide_false by done. by eexists.
Qed.

End SessionGuards.

(** ** Logging out, rotating, evicting *)

Section TokenLifecycle.
Import Jwt UserModel AuthMiddleware AuthController Guards AuthRoutes Server
  Scenario Cases Invariants.

Lemma blacklistToken_users t w : users (blacklistToken t w) = users w.
Proof.
  unfold blacklistToken. destruct t as [t |]; [| done]. by destruct (truthy t).
Qed.

(** Blacklisting adds at most the token itself. *)
Lemma blacklistToken_subset t w x :
  x ∈ tokenBlacklist (blacklistToken (Some t) w) → x = t ∨ x ∈ tokenBlacklist w.
Proof.
  destruct (truthy t) eqn:Hty; [| rewrite blacklistToken_falsy by done; auto].
  rewrite blacklistToken_list by done. cbn zeta. case_bool_decide.
  - intros [Hx%elem_of_nil | Hx%sliceLast_subset]%refill_elem; [done |].
    by apply setAdd_elem in Hx.
  - by intros Hx%setAdd_elem.
Qed.

(** ... and forgets at most the identifier the token carries. *)
Lemma blacklistToken_map_other t w j :
  tok_jti <$> decode t ≠ Some j →
  refreshTokens (blacklistToken (Some t) w) !! j = refreshTokens w !! j.
Proof.
  intros Hj. unfold blacklistToken. destruct (truthy t); [| done].
  cbn [refreshTokens]. destruct (decode t) as [c |]; [| done].
  case_decide; [done |]. rewrite lookup_delete_ne; [done |].
  intros E. apply Hj. cbn. by rewrite E.
Qed.

Lemma logoutUser_containers now ru t hdr w :
  truthy t = true →
  tokenBlacklist (logoutUser now ru (Some t) hdr w).2
    = tokenBlacklist (blacklistToken (Some t) w)
  ∧ refreshTokens (logoutUser now ru (Some t) hdr w).2
    = refreshTokens (blacklistToken (Some t) w).
Proof.
  intros Hty. unfold logoutUser. rewrite Hty. cbn [snd]. rewrite Hty.
  destruct (decode t) as [c |]; [| done]. case_decide; [done |].
  destruct (findById _ _) as [e | found]; [done |].
  destruct (select [] [] <$> found) as [u |]; [| done].
  by destruct (revokeRefreshToken _ _ _ _) as [e | [m1 db1]].
Qed.

Lemma logoutUser_status now ru tb hdr w ident :
  (λ d, d !! "status") <$> byId ident (users (logoutUser now ru tb hdr w).2)
  = (λ d, d !! "status") <$> byId ident (users w).
Proof.
  unfold logoutUser.
  repeat case_match; simplify_eq/=; rewrite ?blacklistToken_users; try done.
  all: match goal with
       | H : revokeRefreshToken _ _ _ _ = inr (?m1, ?db1) |- _ =>
           unfold revokeRefreshToken, load, assign in H;
           cbn [cur dirty isNew] in H;
           change db1 with (m1, db1).2;
           rewrite (save_status _ _ _ _ _ H); cbn [isNew dirty];
           [by rewrite blacklistToken_users | done | path_not_in | path_not_in]
       end.
Qed.

(** The refresh endpoint answers as before in a world where the presented
    token is no more blacklisted, its identifier is in the map as before, and
    every account has the status it had. *)
Lemma refreshGates_transfer env now body w w' :
  (∀ t, body = Some t → isTokenBlacklisted t w = false →
        isTokenBlacklisted t w' = false) →
  (∀ t c, body = Some t → decode t = Some c →
          refreshTokens w' !! tok_jti c = refreshTokens w !! tok_jti c) →
  (∀ ident, (λ d, d !! "status") <$> byId ident (users w')
            = (λ d, d !! "status") <$> byId ident (users w)) →
  refreshGates env now body w → refreshGates env now body w'.
Proof.
  intros Hbl Hrt Hst (t & c & info & u & Hb & Hty & Hnbl & Hv & Htype & Hinfo & Hu & Hact).
  apply findById_inr in Hu as [Hoid Hu].
  specialize (Hst (tok_id c)). rewrite <- Hu in Hst.
  destruct (byId (tok_id c) (users w')) as [u' |] eqn:Hu'; [| done].
  injection Hst as Hst.
  exists t, c, info, u'. split_and!; try done.
  - by apply Hbl.
  - rewrite (Hrt t c Hb); [done |]. by apply verify_decode in Hv.
  - apply findById_inr. by rewrite Hu'.
  - rewrite notActive_select in * by path_not_in.
    unfold notActive, UserModel.status, getStr in *. by rewrite Hst.
Qed.

Lemma refreshAccessToken_200 env now ua ur body w :
  Http.status (refreshAccessToken env now ua ur body w).1 = 200
  ↔ refreshGates env now body w.
Proof.
  destruct (refreshAccessToken_status env now ua ur body w)
    as [(-> & _ & Hg & _) | [(-> & _ & Hn & _) | (-> & _ & Hn & _)]];
    split; done.
Qed.

(** *** How long a revocation lasts *)

Lemma keepsRevoked_refl w : keepsRevoked w w.
Proof. intros _. split; [lia | done]. Qed.

Lemma keepsRevoked_same w w' :
  tokenBlacklist w' = tokenBlacklist w → keepsRevoked w w'.
Proof. intros Heq _. rewrite Heq. split; [lia | done]. Qed.

Lemma keepsRevoked_blacklistToken t w w0 :
  tokenBlacklist w0 = tokenBlacklist w → keepsRevoked w (blacklistToken t w0).
Proof.
  intros Heq Hlt. destruct t as [t |];
    [| change (blacklistToken None w0) with w0; rewrite Heq; split; [lia | done]].
  destruct (truthy t) eqn:Hty;
    [| rewrite blacklistToken_falsy, Heq by done; split; [lia | done]].
  rewrite blacklistToken_list by done. cbn zeta. rewrite Heq.
  pose proof (setAdd_length t (tokenBlacklist w)) as Hlen.
  rewrite bool_decide_false by lia. split; [lia |].
  intros x Hx. apply setAdd_elem. by right.
Qed.

Lemma step_keepsRevoked env w e : keepsRevoked w (step env w e).
Proof.
  destruct e; cbn [step].
  - intros Hlt. unfold cleanupExpiredTokens. cbn [tokenBlacklist].
    rewrite bool_decide_false by lia. split; [lia | done].
  - by apply keepsRevoked_blacklistToken.
  - unfold authenticateToken.
    repeat case_match; simplify_eq/=;
      first [apply keepsRevoked_refl | by apply keepsRevoked_blacklistToken].
  - unfold refreshAccessToken, generateRefreshToken, sign.
    repeat case_match; simplify_eq/=; try apply keepsRevoked_refl.
    all: intros Hlt;
      match goal with
      | |- context [blacklistToken ?t ?w0] =>
          apply (keepsRevoked_blacklistToken t w w0); done
      end.
  - apply keepsRevoked_same. apply registerUser_containers.
  - apply keepsRevoked_same. apply loginUser_containers.
  - apply keepsRevoked_same. apply (getUserInfo_containers _ _ _ "").
  - unfold logoutUser. cbn [snd].
    repeat case_match; simplify_eq/=;
      first [apply keepsRevoked_refl | by apply keepsRevoked_blacklistToken
            | (intros Hlt;
               match goal with
               | |- context [blacklistToken ?t ?w0] =>
                   apply (keepsRevoked_blacklistToken t w w0); done
               end)].
  - apply keepsRevoked_same. apply (logoutAllDevices_containers _ _ _ "").
  - apply keepsRevoked_same. apply (changePassword_containers _ _ _ _ _ "").
Qed.

(** A token on the blacklist stays there as long as no more events follow
    than the blacklist has room for. *)
Lemma run_keepsRevoked env es w x :
  Z.of_nat (length (tokenBlacklist w)) + Z.of_nat (length es) ≤ 10000 →
  x ∈ tokenBlacklist w → x ∈ tokenBlacklist (run env w es).
Proof.
  unfold run. revert w. induction es as [| e es IH]; intros w Hroom Hx; [done |].
  cbn [foldl length] in *.
  destruct (step_keepsRevoked env w e ltac:(lia)) as [Hlen Hkeep].
  apply IH; [lia | by apply Hkeep].
Qed.

(** X3.  A request that [POST /logout] answers with 200 has put its access
    token on the blacklist: the session middleware refuses the same
    Authorization header with 401 "Token has been revoked", at any time, in
    the state the logout leaves and after any events that follow it, as long
    as these are no more than the blacklist has room for below its 10,000
    tokens.  (Each event blacklists at most one token; the 10,001st evicts
    the oldest 5,001.) *)
Theorem logout_revokes_the_access_token (env : Env) (now now' : Z)
    (authorization : option (list Token)) (w : World) (es : list Event) :
  Http.status (logout env now authorization w).1 = 200 →
  Z.of_nat (length (tokenBlacklist (logout env now authorization w).2))
    + Z.of_nat (length es) ≤ 10000 →
  (authenticateToken env now' authorization
     (run env (logout env now authorization w).2 es)).1
    = Respond (Http.reply 401 "Token has been revoked").
Proof.
  intros Hok Hroom.
  assert (∃ t, bearer authorization = Some t ∧ truthy t = true
               ∧ t ∈ tokenBlacklist (logout env now authorization w).2)
    as (t & Hb & Hty & Hin).
  { revert Hok. clear Hroom. unfold logout.
    destruct (authenticateToken env now authorization w) as [[r | ru t] w1] eqn:Hauth.
    - apply authenticateToken_respond in Hauth. cbn [fst]. lia.
    - apply authenticateToken_next in Hauth as (-> & Hb & Hty & Hbl & _).
      unfold validateTokenForLogout. rewrite Hb, Hty. cbn [negb]. intros _.
      exists t. split_and!; [done | done |].
      rewrite (proj1 (logoutUser_containers now ru t authorization w Hty)).
      apply blacklistToken_member; [done |]. by apply setHas_false. }
  unfold authenticateToken. rewrite Hb, Hty. cbn [negb].
  unfold isTokenBlacklisted.
  replace (Js.setHas t _) with true; [done |].
  symmetry. apply setHas_true. by apply run_keepsRevoked.
Qed.

(** Alice logs out on her phone two minutes after the login; somebody then
    guesses at her password four times, and her old access token is still
    refused. *)
Lemma logout_revokes_the_access_token_witness :
  (authenticateToken noEnv (t0 + 180000) (bearerHeader loginAccessToken)
     (run noEnv
        (logout noEnv (t0 + 120000) (bearerHeader loginAccessToken) loggedIn.2).2
        fourGuesses)).1
  = Respond (Http.reply 401 "Token has been revoked").
Proof.
  apply logout_revokes_the_access_token.
  - vm_compute. reflexivity.
  - vm_compute. discriminate.
Defined.

(** X4.  Logging out ends the access token only.  A refresh token that the
    refresh endpoint would have accepted before the logout is accepted after
    it, unless it carries the very identifier of the token that was logged
    out. *)
Theorem logout_leaves_the_refresh_token_valid (env : Env) (now now' : Z)
    (ru : ReqUser) (a r : Token) (hdr : option (list Token)) (ua ur : string)
    (w : World) :
  truthy a = true →
  tok_jti <$> decode a ≠ tok_jti <$> decode r →
  Http.status (refreshAccessToken env now' ua ur (Some r) w).1 = 200 →
  Http.status
    (refreshAccessToken env now' ua ur (Some r) (logoutUser now ru (Some a) hdr w).2).1
  = 200.
Proof.
  intros Hty Hjti Hok. apply refreshAccessToken_200.
  apply refreshAccessToken_200 in Hok.
  destruct (logoutUser_containers now ru a hdr w Hty) as [Hbl Hrt].
  eapply refreshGates_transfer; [| | | exact Hok].
  - intros t [= <-] Hnot. unfold isTokenBlacklisted in *.
    apply setHas_false. apply setHas_false in Hnot. rewrite Hbl.
    intros [-> | Hin]%blacklistToken_subset; done.
  - intros t c [= <-] Hdec. rewrite Hrt. apply blacklistToken_map_other.
    by rewrite Hdec in Hjti.
  - apply logoutUser_status.
Qed.

(** After Alice's logout on the phone the refresh token of that login still
    mints a new pair. *)
Lemma logout_leaves_the_refresh_token_valid_witness :
  Http.status
    (refreshAccessToken noEnv (t0 + 3600000) "d1a7c3e5-6b40-4f2e-9d81-7c5a3f1e0b05"
       "e9f8b7a6-5c4d-4e3f-8a2b-1c0d9e8f7a06" (Some loginRefreshToken) loggedOut.2).1
  = 200.
Proof.
  apply (logout_leaves_the_refresh_token_valid noEnv (t0 + 120000) (t0 + 3600000)
           aliceReq loginAccessToken loginRefreshToken None).
  - reflexivity.
  - vm_compute. discriminate.
  - vm_compute. reflexivity.
Defined.

(** *** Rotation *)

(** What a successful refresh hands out and leaves behind. *)
Lemma refreshAccessToken_minted env now ua ur t w :
  Http.status (refreshAccessToken env now ua ur (Some t) w).1 = 200 →
  ∃ c u,
    decode t = Some c
    ∧ findById (tok_id c) (users w) = inr (Some u)
    ∧ notActive u = false
    ∧ Http.tokens (refreshAccessToken env now ua ur (Some t) w).1
      = Some (generateToken env now ua
                (mkIdentity (docId u) (UserModel.email u) (role u)),
              (generateRefreshToken env now ur
                 (mkIdentity (docId u) (UserModel.email u) None) w).1)
    ∧ users (refreshAccessToken env now ua ur (Some t) w).2 = users w
    ∧ (∀ x, x ∈ tokenBlacklist (refreshAccessToken env now ua ur (Some t) w).2 →
            x = t ∨ x ∈ tokenBlacklist w)
    ∧ (ur ≠ tok_jti c →
       is_Some (refreshTokens (refreshAccessToken env now ua ur (Some t) w).2 !! ur)).
Proof.
  intros (t' & c & info & u & [= <-] & Hty & Hbl & Hv & Htype & Hinfo & Hu & Hact)
    %refreshAccessToken_200.
  exists c, u.
  assert (decode t = Some c) as Hdec by by apply verify_decode in Hv.
  unfold refreshAccessToken. rewrite Hty, Hbl, Hv, Htype. cbn [negb].
  rewrite bool_decide_true by done. cbn [negb].
  rewrite Hinfo, Hu. cbn [fmap option_fmap option_map]. rewrite Hact.
  rewrite notActive_select in Hact by path_not_in.
  assert (docId (select [] ["password"] u) = docId u) as ->.
  { apply docId_agree, select_lookup;
      [unfold hiddenPaths; path_not_in | path_not_in | done]. }
  assert (UserModel.email (select [] ["password"] u) = UserModel.email u) as ->.
  { unfold UserModel.email. f_equal. apply getStr_agree, select_lookup;
      [unfold hiddenPaths; path_not_in | path_not_in | done]. }
  assert (role (select [] ["password"] u) = role u) as ->.
  { apply getStr_agree, select_lookup;
      [unfold hiddenPaths; path_not_in | path_not_in | done]. }
  unfold generateRefreshToken. cbn [fst snd Http.tokens users tokenBlacklist
    refreshTokens decode sign tok_jti id identEmail identRole].
  split_and!; [done | done | done | done | | |].
  - by rewrite blacklistToken_users.
  - intros x Hx%blacklistToken_subset. exact Hx.
  - intros Hne.
    assert (delete (tok_jti c)
              (refreshTokens
                 (blacklistToken (Some t)
                    (mkWorld (tokenBlacklist w)
                       (<[ur := mkTokenInfo (docId u) (UserModel.email u) now now]>
                          (refreshTokens w)) (users w)))) !! ur
            = Some (mkTokenInfo (docId u) (UserModel.email u) now now)) as Hl.
    { rewrite lookup_delete_ne by done.
      rewrite blacklistToken_map_other; [apply lookup_insert_eq |].
      rewrite Hdec. cbn. congruence. }
    rewrite Hl. by rewrite lookup_insert_eq.
Qed.

(** X5.  The refresh token a successful refresh hands out is accepted in
    turn, at any time before it expires, provided it was not blacklisted
    beforehand and was issued under another identifier than the token it
    replaces. *)
Theorem replacement_refresh_token_is_accepted (env : Env) (now now' : Z)
    (ua ur ua' ur' : string) (t a' r' : Token) (w : World) :
  Http.tokens (refreshAccessToken env now ua ur (Some t) w).1 = Some (a', r') →
  (r' ∉ tokenBlacklist w) →
  tok_jti <$> decode t ≠ Some ur →
  now' / 1000 < now / 1000 + refreshLifetime env →
  Http.status
    (refreshAccessToken env now' ua' ur' (Some r')
       (refreshAccessToken env now ua ur (Some t) w).2).1 = 200.
Proof.
  intros Htok Hfresh Hjti Hexp.
  assert (Http.status (refreshAccessToken env now ua ur (Some t) w).1 = 200) as Hok.
  { destruct (refreshAccessToken_status env now ua ur (Some t) w)
      as [(? & _) | [(_ & Hn & _) | (_ & Hn & _)]]; [done | congruence..]. }
  destruct (refreshAccessToken_minted env now ua ur t w Hok)
    as (c & u & Hdec & Hu & Hact & Htok' & Husers & Hbl & Hmap).
  rewrite Htok in Htok'. injection Htok' as -> ->.
  rewrite Hdec in Hjti. cbn in Hjti.
  assert (docId u = tok_id c) as Hid.
  { apply findById_inr in Hu as [_ Hu]. symmetry in Hu.
    unfold byId in Hu. apply find_some in Hu as [_ Hu].
    by apply bool_decide_eq_true in Hu. }
  destruct (Hmap ltac:(congruence)) as [info Hinfo].
  apply refreshAccessToken_200.
  unfold generateRefreshToken, sign in *. cbn [fst id identEmail] in *.
  eexists _, (mkClaims _ _ _ _ _ _ _ _ _), info, u.
  split_and!; [reflexivity | done | | | reflexivity | | |].
  - apply setHas_false. intros [E | Hin]%Hbl; [| done].
    rewrite <- E in Hdec. cbn in Hdec. injection Hdec as Hc.
    apply Hjti. by rewrite <- Hc.
  - unfold verify. cbn [tok_exp tok_aud tok_iss].
    rewrite (bool_decide_true (getRefreshSecret env = _)) by done.
    rewrite (bool_decide_false (_ ≤ _)) by lia.
    by rewrite (bool_decide_true (audience env = _)),
         (bool_decide_true (issuer env = _)) by done.
  - exact Hinfo.
  - cbn [tok_id]. rewrite Husers, Hid. exact Hu.
  - by rewrite notActive_select by path_not_in.
Qed.

(** The token Alice's phone got from the rotation is accepted an hour
    later. *)
Lemma replacement_refresh_token_is_accepted_witness :
  Http.status
    (refreshAccessToken noEnv (t0 + 7200000) "f00dfeed-0000-4000-8000-000000000007"
       "f00dfeed-0000-4000-8000-000000000008" (Some rotatedRefreshToken) rotated.2).1
  = 200.
Proof.
  apply (replacement_refresh_token_is_accepted noEnv (t0 + 3600000) (t0 + 7200000)
           "d1a7c3e5-6b40-4f2e-9d81-7c5a3f1e0b05"
           "e9f8b7a6-5c4d-4e3f-8a2b-1c0d9e8f7a06" _ _ loginRefreshToken
           rotatedAccessToken rotatedRefreshToken loggedIn.2).
  - vm_compute. reflexivity.
  - replace (tokenBlacklist loggedIn.2) with (@nil Token) by (vm_compute; reflexivity).
    apply not_elem_of_nil.
  - vm_compute. discriminate.
  - vm_compute. reflexivity.
Defined.

(** *** Eviction *)

(** X6.  When the blacklist holds 10,000 tokens, blacklisting one more drops
    the 5,001 oldest entries: each of them is no longer reported as
    blacklisted. *)
Theorem eviction_forgets_the_oldest_revocations (t old : Token) (w : World)
    (i : nat) :
  NoDup (tokenBlacklist w) →
  Z.of_nat (length (tokenBlacklist w)) = 10000 →
  truthy t = true →
  t ∉ tokenBlacklist w →
  tokenBlacklist w !! i = Some old →
  Z.of_nat i ≤ 5000 →
  isTokenBlacklisted old (blacklistToken (Some t) w) = false.
Proof.
  intros Hnd Hlen Hty Hfresh Hold Hi.
  apply setHas_false. rewrite blacklistToken_list by done. cbn zeta.
  rewrite (setAdd_fresh _ _ Hfresh).
  assert (NoDup (tokenBlacklist w ++ [t])%list) as Hnd'.
  { apply NoDup_app. split_and!; [done | | apply NoDup_singleton].
    by intros x Hx ->%list_elem_of_singleton. }
  rewrite bool_decide_true by (rewrite length_app; cbn [length]; lia).
  rewrite refill by by apply sliceLast_NoDup.
  unfold Js.sliceLast. rewrite length_app. cbn [length].
  intros (j & Hj)%list_elem_of_lookup_1. rewrite lookup_drop in Hj.
  assert ((tokenBlacklist w ++ [t])%list !! i = Some old) as Hi'
    by by apply lookup_app_l_Some.
  pose proof (NoDup_lookup _ _ _ _ Hnd' Hi' Hj). lia.
Qed.

(** With the ten thousand filler tokens on the blacklist, one more insertion
    makes the first of them acceptable again. *)
Lemma eviction_forgets_the_oldest_revocations_witness :
  isTokenBlacklisted (fillerToken 0)
    (blacklistToken (Some (fillerToken 10000)) fullWorld) = false.
Proof.
  apply (eviction_forgets_the_oldest_revocations _ _ fullWorld 0).
  - apply fullBlacklist_NoDup.
  - change (tokenBlacklist fullWorld) with fullBlacklist.
    rewrite fullBlacklist_length. lia.
  - reflexivity.
  - apply fullBlacklist_fresh.
  - change (tokenBlacklist fullWorld) with fullBlacklist. unfold fullBlacklist.
    rewrite list_lookup_fmap. by rewrite lookup_seqZ_lt by lia.
  - lia.
Defined.

(** *** The hourly clean-up *)

(** X7.  In every state the server can reach, the hourly clean-up leaves the
    blacklist and the users alone (the blacklist never holds the 20,000
    tokens its second half waits for), and it drops from the refresh-token
    map exactly the entries created longer ago than the refresh lifetime in
    days. *)
Theorem hourly_cleanup_on_reachable_states (env : Env) (es : list Event) (now : Z) :
  tokenBlacklist (cleanupExpiredTokens env now (run env emptyWorld es))
    = tokenBlacklist (run env emptyWorld es)
  ∧ users (cleanupExpiredTokens env now (run env emptyWorld es))
    = users (run env emptyWorld es)
  ∧ ∀ j, refreshTokens (cleanupExpiredTokens env now (run env emptyWorld es)) !! j
         = match refreshTokens (run env emptyWorld es) !! j with
           | Some info =>
               if bool_decide (now - infoCreatedAt info ≤ refreshExpiry env)
               then Some info else None
           | None => None
           end.
Proof.
  destruct (reachable_bounded env es) as [_ Hle].
  unfold cleanupExpiredTokens. cbn [tokenBlacklist users refreshTokens].
  split_and!; [by rewrite bool_decide_false by lia | done |].
  intros j. destruct (refreshTokens (run env emptyWorld es) !! j) as [info |] eqn:Hj.
  - case_bool_decide.
    + apply map_lookup_filter_Some. split; [done |]. cbn. lia.
    + apply map_lookup_filter_None. right. intros info' Hj'. cbn.
      rewrite Hj in Hj'. injection Hj' as <-. lia.
  - apply map_lookup_filter_None. by left.
Qed.

End TokenLifecycle.

(** ** Passwords *)

Section Passwords.
Import Jwt UserModel AuthMiddleware AuthController Server Scenario Cases
  Invariants Upkeep.

Lemma found_hasId ident db s : byId ident db = Some s → docId s = ident.
Proof.
  unfold byId. intros [_ H]%find_some. by apply bool_decide_eq_true in H.
Qed.

(** The pre-save hook on a document whose password was not assigned ... *)
Lemma preSave_clean now m : "password" ∉ dirty m → preSave now m = m.
Proof.
  intros H. unfold preSave, isModified. by rewrite bool_decide_false.
Qed.

(** ... and on an existing document whose password was assigned: the value
    that was assigned goes into the history, its hash into [password]. *)
Lemma preSave_password now m pw :
  "password" ∈ dirty m → isNew m = false → password (cur m) = Some pw →
  preSave now m
  = mkLoaded
      (<["passwordLastChanged" := VDate now]>
         (<["password" := VSecret (Bcrypt pw)]>
            (<["passwordHistory" :=
                 VPasswords (lastFive (passwordHistory (cur m)
                                       ++ [mkPasswordEntry (Some pw) now]))]> (cur m))))
      ("passwordLastChanged" :: "password" :: "passwordHistory" :: dirty m)
      false.
Proof.
  intros Hd Hnew Hpw. unfold preSave, isModified.
  rewrite bool_decide_true by done. cbn [negb]. rewrite Hpw, Hnew. cbn [negb].
  unfold assign. cbn [cur dirty isNew].
  unfold password in *. rewrite lookup_insert_ne, Hpw by done.
  cbn [cur dirty isNew]. by rewrite Hnew.
Qed.

(** The stored document after a successful change of password.  The change
    goes through only for an account without a password history: the loop
    over a history that was loaded without its hashes rejects. *)
Lemma changePassword_stored now ru cp np w :
  Http.status (changePassword now ru cp np w).1 = 200 →
  ∃ s s',
    findById (reqId ru) (users w) = inr (Some s)
    ∧ findById (reqId ru) (users (changePassword now ru cp np w).2) = inr (Some s')
    ∧ comparePassword cp s = true
    ∧ password s' = Some (Bcrypt (Plain np))
    ∧ passwordHistory s = []
    ∧ passwordHistory s' = [mkPasswordEntry (Some (Plain np)) now]
    ∧ UserModel.refreshTokens s' = revoke <$> UserModel.refreshTokens s.
Proof.
  unfold changePassword.
  destruct (findById (reqId ru) (users w)) as [e | [s |]] eqn:Hs; [done | | done].
  cbn [fmap option_fmap option_map].
  apply findById_inr in Hs as [Hoid Hs]. symmetry in Hs.
  assert (∀ k, k ∈ ["_id"; "password"; "refreshTokens"] →
               select ["password"; "passwordHistory"] [] s !! k = s !! k) as Hsel.
  { intros k Hk.
    repeat (apply elem_of_cons in Hk as [-> | Hk];
            [first [apply select_lookup_plus; [path_in | apply not_elem_of_nil | done]
                   | apply select_lookup; [unfold hiddenPaths; path_not_in
                                          | apply not_elem_of_nil | done]] |]).
    by apply elem_of_nil in Hk. }
  assert (passwordHistory (select ["password"; "passwordHistory"] [] s)
          = (λ e, mkPasswordEntry None (changedAt e)) <$> passwordHistory s) as Hhu
    by (apply select_history; [apply not_elem_of_nil | path_not_in]).
  rewrite isPasswordInHistory_select by (first [apply not_elem_of_nil | path_not_in]).
  set (u := select ["password"; "passwordHistory"] [] s) in *.
  assert (comparePassword cp u = comparePassword cp s) as Hcmp.
  { unfold comparePassword, password. by rewrite Hsel by path_in. }
  destruct (comparePassword cp u) eqn:Hcp; [| done]. cbn [negb].
  destruct (passwordHistory s) as [| e0 h0] eqn:Hhist; [| done].
  cbn [fmap list_fmap] in Hhu.
  unfold revokeAllRefreshTokens, load, assign. cbn [cur dirty isNew].
  set (m := mkLoaded _ ["refreshTokens"; "passwordLastChanged"; "password"] false).
  assert (password (cur m) = Some (Plain np)) as Hpw.
  { unfold m, password. cbn [cur].
    by rewrite !lookup_insert_ne, lookup_insert_eq by done. }
  assert (passwordHistory (cur m) = []) as Hhm.
  { unfold m, passwordHistory. cbn [cur]. rewrite !lookup_insert_ne by done.
    exact Hhu. }
  destruct (save now m (users w)) as [e | [m1 db1]] eqn:H1; [done |].
  apply save_inr in H1 as [_ H1].
  destruct (save now m1 db1) as [e | [m2 db2]] eqn:H2; [done |].
  apply save_inr in H2 as [_ H2].
  cbn [fst snd users withUsers Http.status Http.reply]. intros _.
  unfold persist in H1.
  rewrite (preSave_password now m (Plain np)) in H1;
    [| unfold m; cbn; path_in | done | done].
  cbn [cur dirty isNew] in H1. rewrite Hhm in H1.
  pose proof (f_equal fst H1) as Hm1. pose proof (f_equal snd H1) as Hdb1.
  clear H1. cbn [fst snd] in Hm1, Hdb1. subst m1 db1.
  unfold persist in H2. rewrite preSave_clean in H2 by apply not_elem_of_nil.
  cbn [cur dirty isNew] in H2.
  pose proof (f_equal snd H2) as Hdb2. clear H2. cbn [snd] in Hdb2. subst db2.
  exists s.
  assert (docId u = reqId ru) as Hid.
  { rewrite <- (found_hasId _ _ _ Hs). apply docId_agree, Hsel. path_in. }
  match goal with
  | |- context [writePaths (_ :: _) ?c] => set (c' := c)
  end.
  assert (docId c' = reqId ru) as Hid'.
  { rewrite <- Hid. apply docId_agree. unfold c', m. cbn [cur].
    by rewrite !lookup_insert_ne by done. }
  rewrite Hid'.
  set (ks := "passwordLastChanged" :: _).
  unfold m in ks. cbn [dirty] in ks.
  eexists. split_and!; [done | | done | | done | |].
  - apply findById_inr. split; [done |]. symmetry.
    unfold writePaths at 1. cbn [foldr].
    apply (byId_updateFirst (reqId ru) (λ d : Doc, d) _ (writePaths ks c' s));
      [| done].
    apply byId_updateFirst; [done |].
    apply docId_agree. rewrite writePaths_lookup.
    rewrite decide_False by (unfold ks; path_not_in). done.
  - cbn beta. unfold password. rewrite writePaths_lookup.
    rewrite decide_True by (unfold ks; path_in).
    unfold c'. by rewrite lookup_insert_ne, lookup_insert_eq.
  - cbn beta. unfold passwordHistory at 1. rewrite writePaths_lookup.
    rewrite decide_True by (unfold ks; path_in).
    unfold c'. by rewrite !lookup_insert_ne, lookup_insert_eq by done.
  - cbn beta. unfold UserModel.refreshTokens at 1. rewrite writePaths_lookup.
    rewrite decide_True by (unfold ks; path_in).
    unfold c', m. cbn [cur]. rewrite !lookup_insert_ne, lookup_insert_eq by done.
    unfold UserModel.refreshTokens. rewrite !lookup_insert_ne by done.
    by rewrite Hsel by path_in.
Qed.

(** X8.  After a successful change of password the stored document accepts
    the new password, and with it exactly the candidates that bcrypt does
    not tell from it (those with the same first 72 bytes): the password is
    hashed once, by the save that revokes the refresh tokens, and the second
    save leaves it alone. *)
Theorem changePassword_takes_effect (now : Z) (ru : ReqUser)
    (currentPassword newPassword : string) (w : World) :
  Http.status (changePassword now ru currentPassword newPassword w).1 = 200 →
  ∃ s',
    findById (reqId ru) (users (changePassword now ru currentPassword newPassword w).2)
      = inr (Some s')
    ∧ comparePassword newPassword s' = true
    ∧ ∀ candidate,
        comparePassword candidate s'
        = bool_decide (bcryptKey candidate = bcryptKey newPassword).
Proof.
  intros (s & s' & _ & Hs' & _ & Hpw & _)%changePassword_stored.
  exists s'. split; [done |].
  unfold comparePassword. rewrite Hpw. cbn [bcryptCompare].
  split; [by apply bool_decide_eq_true | done].
Qed.

(** Alice changes her password: the new one is accepted, the old one is
    not. *)
Lemma changePassword_takes_effect_witness :
  (comparePassword "N3w-Passw0rd!" <$> aliceIn passwordChanged.2) = Some true
  ∧ (comparePassword "Passw0rd!" <$> aliceIn passwordChanged.2) = Some false.
Proof.
  destruct (changePassword_takes_effect (t0 + 120000) aliceReq "Passw0rd!"
              "N3w-Passw0rd!" loggedIn.2) as (s' & Hs' & _ & Hcmp).
  - vm_compute. reflexivity.
  - change (reqId aliceReq) with "64f0c0ffee0000000000a11c" in Hs'.
    apply findById_inr in Hs' as [_ Hs'].
    unfold passwordChanged. rewrite <- Hs'. cbn [fmap option_fmap option_map].
    rewrite !Hcmp. clear Hs' Hcmp. split; vm_compute; reflexivity.
Defined.

(** X9.  What a successful change of password adds to the stored password
    history is the new password as it was submitted, neither its hash nor
    the hash it replaces; of the history so extended the last five entries
    are kept. *)
Theorem password_history_records_the_new_password (now : Z) (ru : ReqUser)
    (currentPassword newPassword : string) (w : World) :
  Http.status (changePassword now ru currentPassword newPassword w).1 = 200 →
  ∃ s s',
    findById (reqId ru) (users w) = inr (Some s)
    ∧ findById (reqId ru)
        (users (changePassword now ru currentPassword newPassword w).2)
      = inr (Some s')
    ∧ passwordHistory s'
      = lastFive (passwordHistory s
                  ++ [mkPasswordEntry (Some (Plain newPassword)) now])
    ∧ last (passwordHistory s')
      = Some (mkPasswordEntry (Some (Plain newPassword)) now).
Proof.
  intros (s & s' & Hs & Hs' & _ & _ & Hh & Hh' & _)%changePassword_stored.
  exists s, s'. split_and!; [done.. | |]; by rewrite Hh', ?Hh.
Qed.

(** Alice's history after the change. *)
Lemma password_history_records_the_new_password_witness :
  (passwordHistory <$> aliceIn passwordChanged.2)
  = Some [mkPasswordEntry (Some (Plain "N3w-Passw0rd!")) (t0 + 120000)].
Proof.
  destruct (password_history_records_the_new_password (t0 + 120000) aliceReq
              "Passw0rd!" "N3w-Passw0rd!" loggedIn.2) as (s & s' & Hs & Hs' & Hh & _).
  - vm_compute. reflexivity.
  - change (reqId aliceReq) with "64f0c0ffee0000000000a11c" in Hs, Hs'.
    apply findById_inr in Hs as [_ Hs]. apply findById_inr in Hs' as [_ Hs'].
    unfold passwordChanged. rewrite <- Hs'. cbn [fmap option_fmap option_map].
    rewrite Hh. clear Hs' Hh. f_equal.
    assert (passwordHistory <$> aliceIn loggedIn.2 = Some []) as Hold
      by (vm_compute; reflexivity).
    rewrite <- Hs in Hold. clear Hs. injection Hold as ->. reflexivity.
Defined.

End Passwords.

(** ** What every handler keeps true of the stored documents *)

Section Housekeeping.
Import Jwt UserModel AuthMiddleware AuthController Server Scenario Cases
  Invariants Upkeep.

(** [capped] reads the lengths of three lists, and holds of a document that
    lacks them. *)
Lemma capped_lengths (a d : Doc) :
  (∀ k, k ∈ kept →
        d !! k = a !! k ∨ d !! k = None
        ∨ ∃ l, a !! k = Some (VPasswords l)
               ∧ d !! k = Some (VPasswords ((λ e, mkPasswordEntry None (changedAt e))
                                             <$> l))) →
  capped a → capped d.
Proof.
  intros Hk (Ha1 & Ha2 & Ha3).
  unfold capped, UserModel.refreshTokens, loginHistory, passwordHistory in *.
  destruct (Hk "refreshTokens" ltac:(unfold kept; path_in))
    as [-> | [-> | (l1 & E1 & ->)]];
  destruct (Hk "loginHistory" ltac:(unfold kept; path_in))
    as [-> | [-> | (l2 & E2 & ->)]];
  destruct (Hk "passwordHistory" ltac:(unfold kept; path_in))
    as [-> | [-> | (l3 & E3 & ->)]];
  rewrite ?E1, ?E2, ?E3 in *; rewrite ?length_fmap;
  split_and!; first [done | by cbn].
Qed.

Lemma capped_mix (a b d : Doc) :
  (∀ k, k ∈ kept → d !! k = a !! k ∨ d !! k = b !! k ∨ d !! k = None) →
  capped a → capped b → capped d.
Proof.
  intros Hk (Ha1 & Ha2 & Ha3) (Hb1 & Hb2 & Hb3).
  unfold capped, UserModel.refreshTokens, loginHistory, passwordHistory in *.
  destruct (Hk "refreshTokens" ltac:(unfold kept; path_in)) as [-> | [-> | ->]];
  destruct (Hk "loginHistory" ltac:(unfold kept; path_in)) as [-> | [-> | ->]];
  destruct (Hk "passwordHistory" ltac:(unfold kept; path_in)) as [-> | [-> | ->]];
  split_and!; first [done | by cbn].
Qed.

Lemma capped_agree (d d' : Doc) : agreeOn kept d d' → capped d → capped d'.
Proof.
  intros H Hd. apply (capped_mix d d d'); [| done | done].
  intros k Hk. left. symmetry. by apply (agreeOn_lookup kept).
Qed.

Lemma capped_dropPaths ks d : capped d → capped (dropPaths ks d).
Proof.
  intros Hd. apply (capped_mix d d); [| done | done].
  intros k _. rewrite dropPaths_lookup. case_decide; auto.
Qed.

Lemma capped_hideHashes d : capped d → capped (hideHashes d).
Proof.
  apply capped_lengths. intros k Hk. unfold hideHashes.
  destruct (d !! "passwordHistory") as [[] |] eqn:E; auto.
  destruct (decide (k = "passwordHistory")) as [-> | Hne].
  - right. right. eexists. split; [done |]. by rewrite lookup_insert_eq.
  - left. by rewrite lookup_insert_ne.
Qed.

Lemma capped_select plus minus d : capped d → capped (select plus minus d).
Proof.
  intros. unfold select. do 2 apply capped_dropPaths.
  case_decide; [done | by apply capped_hideHashes].
Qed.

Lemma capped_writePaths ks src dst :
  capped src → capped dst → capped (writePaths ks src dst).
Proof.
  intros Hs Hd. apply (capped_mix src dst); [| done | done].
  intros k _. rewrite writePaths_lookup. case_decide; auto.
Qed.

Lemma capped_insert k v d : k ∉ kept → capped d → capped (<[k := v]> d).
Proof.
  intros Hk Hd. apply (capped_agree d); [| done]. by apply agreeOn_insert.
Qed.

Lemma capped_tokens l d :
  Z.of_nat (length l) ≤ 5 → capped d → capped (<["refreshTokens" := VTokens l]> d).
Proof.
  intros Hl (H1 & H2 & H3).
  unfold capped, UserModel.refreshTokens, loginHistory, passwordHistory in *.
  rewrite lookup_insert_eq, !lookup_insert_ne by done. by split_and!.
Qed.

Lemma capped_logins l d :
  Z.of_nat (length l) ≤ 50 → capped d → capped (<["loginHistory" := VLogins l]> d).
Proof.
  intros Hl (H1 & H2 & H3).
  unfold capped, UserModel.refreshTokens, loginHistory, passwordHistory in *.
  rewrite lookup_insert_eq, !lookup_insert_ne by done. by split_and!.
Qed.

Lemma capped_passwords l d :
  Z.of_nat (length l) ≤ 5 → capped d →
  capped (<["passwordHistory" := VPasswords l]> d).
Proof.
  intros Hl (H1 & H2 & H3).
  unfold capped, UserModel.refreshTokens, loginHistory, passwordHistory in *.
  rewrite lookup_insert_eq, !lookup_insert_ne by done. by split_and!.
Qed.

Lemma lastFive_capped h : Z.of_nat (length (lastFive h)) ≤ 5.
Proof.
  unfold lastFive. case_bool_decide; [rewrite sliceLast_length by lia |]; lia.
Qed.

(** The pre-save hook and [save]. *)
Lemma preSave_capped now m : capped (cur m) → capped (cur (preSave now m)).
Proof.
  intros Ht. unfold preSave. destruct (negb (isModified "password" m)); [done |].
  assert (∀ m1, capped (cur m1) →
            capped (cur (assign "passwordLastChanged" (VDate now)
                           match password (cur m1) with
                           | Some pw => assign "password" (VSecret (Bcrypt pw)) m1
                           | None => m1
                           end))) as Hrest.
  { intros m1 H1. unfold assign. cbn [cur].
    apply capped_insert; [unfold kept; path_not_in |].
    destruct (password (cur m1)); cbn [cur]; [| done].
    by apply capped_insert; [unfold kept; path_not_in |]. }
  apply Hrest.
  destruct (password (cur m)) as [pw |]; [| done].
  destruct (negb (isNew m)); [| done].
  unfold assign. cbn [cur]. apply capped_passwords; [| done].
  apply (lastFive_capped (passwordHistory (cur m) ++ [mkPasswordEntry (Some pw) now])).
Qed.

Lemma updateFirst_capped (p : Doc → bool) (f : Doc → Doc) (db : DB) :
  (∀ d, capped d → capped (f d)) → Forall capped db →
  Forall capped (updateFirst p f db).
Proof.
  intros Hf. induction 1 as [| d db Hd Hdb IH]; cbn [updateFirst]; [done |].
  destruct (p d); constructor; auto.
Qed.

Lemma save_capped now m db r :
  save now m db = inr r →
  Forall capped db → capped (cur m) →
  Forall capped r.2 ∧ capped (cur r.1).
Proof.
  intros [_ ->]%save_inr Hdb Hm. pose proof (preSave_capped now m Hm) as Ht.
  unfold persist. cbn [fst snd cur]. split; [| done].
  destruct (isNew (preSave now m)).
  - apply Forall_app. split; [done |]. by constructor.
  - apply updateFirst_capped; [| done]. intros d Hd. by apply capped_writePaths.
Qed.

(** The methods that save. *)
Lemma addRefreshToken_capped now h j exp device m db r :
  addRefreshToken now h j exp device m db = inr r →
  Forall capped db → capped (cur m) →
  Forall capped r.2 ∧ capped (cur r.1).
Proof.
  unfold addRefreshToken. intros Hr Hdb Hm.
  apply (save_capped _ _ _ _ Hr); [done |]. unfold assign. cbn [cur].
  apply capped_tokens; [| done].
  case_bool_decide; [rewrite sliceLast_length by lia |]; lia.
Qed.

Lemma revoke_length j l : length (revokeFirst j l) = length l.
Proof. induction l as [| e l IH]; cbn; [done |]. case_decide; cbn; congruence. Qed.

Lemma revokeRefreshToken_capped now j m db r :
  revokeRefreshToken now j m db = inr r →
  Forall capped db → capped (cur m) →
  Forall capped r.2 ∧ capped (cur r.1).
Proof.
  unfold revokeRefreshToken. intros Hr Hdb Hm.
  apply (save_capped _ _ _ _ Hr); [done |]. unfold assign. cbn [cur].
  apply capped_tokens; [| done]. rewrite revoke_length. by destruct Hm.
Qed.

Lemma revokeAllRefreshTokens_capped now m db r :
  revokeAllRefreshTokens now m db = inr r →
  Forall capped db → capped (cur m) →
  Forall capped r.2 ∧ capped (cur r.1).
Proof.
  unfold revokeAllRefreshTokens. intros Hr Hdb Hm.
  apply (save_capped _ _ _ _ Hr); [done |]. unfold assign. cbn [cur].
  apply capped_tokens; [| done]. rewrite length_map. by destruct Hm.
Qed.

Lemma recordLogin_capped now ipAddr ua ok loc m db r :
  recordLogin now ipAddr ua ok loc m db = inr r →
  Forall capped db → capped (cur m) →
  Forall capped r.2 ∧ capped (cur r.1).
Proof.
  unfold recordLogin. cbn zeta. intros Hr Hdb Hm.
  apply (save_capped _ _ _ _ Hr); [done |].
  set (h := if bool_decide _ then _ else _).
  assert (capped (<["loginHistory" := VLogins h]> (cur m))) as H1.
  { apply capped_logins; [| done]. unfold h.
    case_bool_decide; [rewrite sliceLast_length by lia |]; lia. }
  destruct ok; unfold assign; cbn [cur]; [| exact H1].
  by do 3 (apply capped_insert; [unfold kept; path_not_in |]).
Qed.

Lemma updateLastActive_capped now m db r :
  updateLastActive now m db = inr r →
  Forall capped db → capped (cur m) →
  Forall capped r.2 ∧ capped (cur r.1).
Proof.
  unfold updateLastActive. intros Hr Hdb Hm.
  apply (save_capped _ _ _ _ Hr); [done |]. unfold assign. cbn [cur].
  by apply capped_insert; [unfold kept; path_not_in |].
Qed.

(** The updates of the lockout bookkeeping write none of the three paths. *)
Lemma incPath_other kn d k : k ≠ kn.1 → incPath kn d !! k = d !! k.
Proof.
  intros Hk. unfold incPath. by repeat case_match; rewrite lookup_insert_ne.
Qed.

Lemma applyUpdate_other u d k :
  k ∉ op_unset u → k ∉ (op_set u).*1 → k ∉ (op_inc u).*1 →
  applyUpdate u d !! k = d !! k.
Proof.
  intros Hu Hs Hi. unfold applyUpdate. rewrite dropPaths_lookup.
  rewrite decide_False by done.
  induction (op_set u) as [| [k' v] l IH]; cbn [foldr fmap list_fmap fst] in *.
  - clear Hs. induction (op_inc u) as [| kn l IH]; cbn [foldr fmap list_fmap] in *;
      [done |].
    apply not_elem_of_cons in Hi as [Hne Hi]. rewrite incPath_other by done. auto.
  - apply not_elem_of_cons in Hs as [Hne Hs]. rewrite lookup_insert_ne by done. auto.
Qed.

Ltac kept_paths Hk :=
  unfold kept in Hk;
  repeat (apply elem_of_cons in Hk as [-> | Hk]; [cbn; path_not_in |]);
  by apply elem_of_nil in Hk.

Lemma incLoginAttempts_capped env now this d :
  capped d → capped (applyUpdate (incLoginAttempts env now this) d).
Proof.
  apply capped_agree, Forall_forall. intros k Hk. symmetry.
  unfold incLoginAttempts.
  repeat case_match; apply applyUpdate_other; cbn [op_unset op_set op_inc];
    kept_paths Hk.
Qed.

Lemma resetLoginAttempts_capped d :
  capped d → capped (applyUpdate resetLoginAttempts d).
Proof.
  apply capped_agree, Forall_forall. intros k Hk. symmetry.
  apply applyUpdate_other; cbn [resetLoginAttempts op_unset op_set op_inc];
    kept_paths Hk.
Qed.

Lemma setter_paths fields : (setter <$> fields).*1 = fields.*1.
Proof.
  induction fields as [| [k v] fields IH]; [done |].
  cbn [fmap list_fmap]. rewrite <- IH. f_equal.
  unfold setter. cbn [fst snd]. by repeat case_match.
Qed.

(** A new document starts with the three lists empty. *)
Lemma create_capped env now newId fields db r :
  create env now newId fields db = inr r →
  (∀ k, k ∈ kept → k ∉ fields.*1) →
  Forall capped db →
  Forall capped r.2 ∧ capped (cur r.1).
Proof.
  unfold create. intros Hr Hf Hdb. apply (save_capped _ _ _ _ Hr); [done |].
  cbn [cur].
  assert (∀ k v, k ∈ kept →
            (list_to_map (("_id", VStr newId) :: schemaDefaults env now) : Doc) !! k
              = Some v →
            (list_to_map ((setter <$> fields)
                          ++ ("_id", VStr newId) :: schemaDefaults env now)
               : Doc) !! k = Some v) as Hl.
  { intros k v Hk Hv. rewrite list_to_map_app. apply lookup_union_Some_raw. right.
    split; [| done]. apply not_elem_of_list_to_map_1.
    rewrite setter_paths. by apply Hf. }
  unfold capped, UserModel.refreshTokens, loginHistory, passwordHistory.
  rewrite (Hl "refreshTokens" (VTokens [])), (Hl "loginHistory" (VLogins [])),
    (Hl "passwordHistory" (VPasswords []));
    [| unfold kept; path_in | vm_compute; reflexivity
     | unfold kept; path_in | vm_compute; reflexivity
     | unfold kept; path_in | vm_compute; reflexivity].
  split_and!; cbn; lia.
Qed.

Lemma issuePair_capped env now ua ur device m w :
  Forall capped (users w) → capped (cur m) →
  Forall capped (users (issuePair env now ua ur device m w).2).
Proof.
  intros Hdb Hm. unfold issuePair, generateRefreshToken, sign.
  cbn [decode users tok_jti tok_exp].
  destruct (addRefreshToken _ _ _ _ _ _ _) as [e | [m1 db1]] eqn:E; [done |].
  by destruct (addRefreshToken_capped _ _ _ _ _ _ _ _ E Hdb Hm).
Qed.

Lemma find_capped (p : Doc → bool) db d :
  Forall capped db → find p db = Some d → capped d.
Proof.
  intros Hdb [Hin _]%find_some. rewrite Forall_forall in Hdb. apply Hdb.
  by apply list_elem_of_In.
Qed.

Lemma findById_capped ident db d :
  Forall capped db → findById ident db = inr (Some d) → capped d.
Proof.
  intros Hdb [_ Hd]%findById_inr. symmetry in Hd. by apply (find_capped _ _ _ Hdb Hd).
Qed.

(** Takes the next method call of the goal: nothing has changed when it
    throws, and the lists are capped when it returns. *)
Ltac with_method :=
  let E := fresh "E" in
  let Hdb := fresh "Hdb" in
  let Hm := fresh "Hm" in
  match goal with
  | |- context [recordLogin ?a ?b ?cc ?d ?ee ?m ?db] =>
      destruct (recordLogin a b cc d ee m db) as [? | [? ?]] eqn:E;
      [try done | destruct (recordLogin_capped _ _ _ _ _ _ _ _ E) as [Hdb Hm];
                  [done.. |]]
  | |- context [updateLastActive ?a ?m ?db] =>
      destruct (updateLastActive a m db) as [? | [? ?]] eqn:E;
      [try done | destruct (updateLastActive_capped _ _ _ _ E) as [Hdb Hm];
                  [done.. |]]
  | |- context [revokeRefreshToken ?a ?j ?m ?db] =>
      destruct (revokeRefreshToken a j m db) as [? | [? ?]] eqn:E;
      [try done | destruct (revokeRefreshToken_capped _ _ _ _ _ E) as [Hdb Hm];
                  [done.. |]]
  | |- context [revokeAllRefreshTokens ?a ?m ?db] =>
      destruct (revokeAllRefreshTokens a m db) as [? | [? ?]] eqn:E;
      [try done | destruct (revokeAllRefreshTokens_capped _ _ _ _ E) as [Hdb Hm];
                  [done.. |]]
  | |- context [save ?a ?m ?db] =>
      destruct (save a m db) as [? | [? ?]] eqn:E;
      [try done | destruct (save_capped _ _ _ _ E) as [Hdb Hm]; [done.. |]]
  end;
  cbn [fst snd] in *.

(** The handlers. *)
Lemma registerUser_capped env now i ua ur rnd c f e p img w :
  Forall capped (users w) →
  Forall capped (users (registerUser env now i ua ur rnd c f e p img w).2).
Proof.
  intros Hdb. unfold registerUser.
  destruct (findByEmail e (users w)); [done |].
  destruct (create _ _ _ _ _) as [? | [m1 db1]] eqn:E; [done |].
  destruct (create_capped _ _ _ _ _ _ E) as [H1 Hm1];
    [intros k Hk; destruct img; cbn; kept_paths Hk | done |].
  cbn [fst snd] in *.
  with_method.
  match goal with
  | |- context [issuePair ?a ?b ?cc ?d ?ee ?m ?ww] =>
      pose proof (issuePair_capped a b cc d ee m ww) as H3;
      destruct (issuePair a b cc d ee m ww) as [[? | [[? ?] ?]] ?]
  end;
  by apply H3.
Qed.

Lemma loginUser_capped env now ua ur c e p w :
  Forall capped (users w) → Forall capped (users (loginUser env now ua ur c e p w).2).
Proof.
  intros Hdb. unfold loginUser.
  destruct (findOne _ (users w)) as [s |] eqn:Hs; [| done].
  cbn [fmap option_fmap option_map].
  assert (capped (cur (load (select ["password"] [] s)))) as Hm.
  { apply capped_select. by apply (find_capped _ _ _ Hdb Hs). }
  destruct (negb (bool_decide (UserModel.status _ = Some "active")));
    [by with_method |].
  destruct (isLocked now _); [by with_method |].
  destruct (negb (comparePassword p _)).
  - with_method. cbn [snd users withUsers]. unfold updateOne.
    apply updateFirst_capped; [| done]. intros d. apply incLoginAttempts_capped.
  - destruct (isPasswordInHistory _ _); [done |].
    assert (Forall capped (updateOne (cur (load (select ["password"] [] s)))
                             resetLoginAttempts (users w))) as Hdb1.
    { unfold updateOne. apply updateFirst_capped; [| done].
      intros d. apply resetLoginAttempts_capped. }
    with_method. with_method.
    match goal with
    | |- context [issuePair ?a ?b ?cc ?d ?ee ?m ?ww] =>
        pose proof (issuePair_capped a b cc d ee m ww) as H3;
        destruct (issuePair a b cc d ee m ww) as [[? | [[? ?] ?]] ?]
    end;
    by apply H3.
Qed.

Lemma getUserInfo_capped now ru w :
  Forall capped (users w) → Forall capped (users (getUserInfo now ru w).2).
Proof.
  intros Hdb. unfold getUserInfo.
  destruct (findById _ (users w)) as [? | [s |]] eqn:Hs; [done | | done].
  cbn [fmap option_fmap option_map].
  match goal with
  | |- context [load (select ?a ?b s)] =>
      assert (capped (cur (load (select a b s)))) as Hm
        by (apply capped_select; by apply (findById_capped _ _ _ Hdb Hs))
  end.
  destruct (negb _); [done |]. by with_method.
Qed.

Lemma logoutUser_capped now ru tb hdr w :
  Forall capped (users w) → Forall capped (users (logoutUser now ru tb hdr w).2).
Proof.
  intros Hdb. unfold logoutUser.
  repeat case_match; simplify_eq/=; rewrite ?blacklistToken_users; try done.
  all: match goal with
       | E : revokeRefreshToken _ _ _ _ = inr _, Hs : findById _ _ = inr ?o,
         Hu : select [] [] <$> ?o = Some _ |- _ =>
           rewrite blacklistToken_users in E, Hs;
           destruct o as [s |]; [| done]; injection Hu as <-;
           apply (revokeRefreshToken_capped _ _ _ _ _ E); [done |];
           apply capped_select; by apply (findById_capped _ _ _ Hdb Hs)
       end.
Qed.

Lemma logoutAllDevices_capped now ru w :
  Forall capped (users w) → Forall capped (users (logoutAllDevices now ru w).2).
Proof.
  intros Hdb. unfold logoutAllDevices.
  destruct (findById _ (users w)) as [? | [s |]] eqn:Hs; [done | | done].
  cbn [fmap option_fmap option_map].
  assert (capped (cur (load (select [] [] s)))) as Hm.
  { apply capped_select. by apply (findById_capped _ _ _ Hdb Hs). }
  by with_method.
Qed.

Lemma changePassword_capped now ru cp np w :
  Forall capped (users w) → Forall capped (users (changePassword now ru cp np w).2).
Proof.
  intros Hdb. unfold changePassword.
  destruct (findById _ (users w)) as [? | [s |]] eqn:Hs; [done | | done].
  cbn [fmap option_fmap option_map].
  destruct (negb (comparePassword cp _)); [done |].
  destruct (isPasswordInHistory np _) as [? | []]; [done | done |].
  match goal with
  | |- context [revokeAllRefreshTokens _ ?m _] => assert (capped (cur m)) as Hm
  end.
  { cbn [cur dirty isNew assign load].
    do 2 (apply capped_insert; [unfold kept; path_not_in |]).
    apply capped_select. by apply (findById_capped _ _ _ Hdb Hs). }
  with_method. by with_method.
Qed.

Lemma refreshAccessToken_users env now ua ur body w :
  users (refreshAccessToken env now ua ur body w).2 = users w.
Proof.
  unfold refreshAccessToken, generateRefreshToken.
  repeat case_match; simplify_eq/=; by rewrite ?blacklistToken_users.
Qed.

Lemma authenticateToken_users env now a w :
  users (authenticateToken env now a w).2 = users w.
Proof.
  unfold authenticateToken.
  repeat case_match; simplify_eq/=; by rewrite ?blacklistToken_users.
Qed.

Lemma step_capped env w e :
  Forall capped (users w) → Forall capped (users (step env w e)).
Proof.
  intros Hdb. destruct e; cbn [step].
  - done.
  - by rewrite blacklistToken_users.
  - by rewrite authenticateToken_users.
  - by rewrite refreshAccessToken_users.
  - by apply registerUser_capped.
  - by apply loginUser_capped.
  - by apply getUserInfo_capped.
  - by apply logoutUser_capped.
  - by apply logoutAllDevices_capped.
  - by apply changePassword_capped.
Qed.

(** X10.  In every state the server can reach, every user document holds at
    most five refresh-token descriptors, at most fifty login records and at
    most five password-history entries. *)
Theorem stored_lists_stay_capped (env : Env) (es : list Event) :
  Forall capped (users (run env emptyWorld es)).
Proof.
  unfold run. assert (Forall capped (users emptyWorld)) as H by constructor.
  revert H. generalize emptyWorld.
  induction es as [| e es IH]; intros w Hw; [done |].
  cbn [foldl]. by apply IH, step_capped.
Qed.

(** X11.  In no state the server can reach does a change of password answer
    "Cannot reuse a previous password": the query loads the password history
    without its hashes, so that the loop over it either finds the history
    empty or is ended by [bcrypt.compare], which rejects a hash that is
    [undefined]; the handler then answers 500 "Failed to change
    password". *)
Theorem password_reuse_is_never_detected (env : Env) (es : list Event) (now : Z)
    (ru : ReqUser) (currentPassword newPassword : string) :
  Http.message
    (changePassword now ru currentPassword newPassword (run env emptyWorld es)).1
  ≠ "Cannot reuse a previous password".
Proof.
  unfold changePassword.
  destruct (findById _ _) as [? | [s |]]; [done | | done].
  cbn [fmap option_fmap option_map].
  destruct (negb (comparePassword currentPassword _)); [done |].
  rewrite isPasswordInHistory_select by (first [apply not_elem_of_nil | path_not_in]).
  destruct (passwordHistory s); [| done].
  by repeat case_match.
Qed.

End Housekeeping.

(** ** Registration and login *)

Section Accounts.
Import Jwt UserModel AuthMiddleware AuthController UserMethods UserStatics Server
  Scenario Cases Invariants Upkeep.

Lemma leavesAlone_save now c c' ks' ks pre s post r :
  (∀ k, k ∈ ks' → k ∈ ks) → "password" ∉ ks' → "_id" ∉ ks →
  (∀ k, k ∉ ks → c' !! k = c !! k) →
  docId c = docId s →
  Forall (λ d, hasId (docId s) d = false) pre →
  save now (mkLoaded c' ks' false) (pre ++ s :: post) = inr r →
  leavesAlone ks c s pre post r.
Proof.
  intros Hsub Hpw Hid Hc Hids Hpre [Hv ->]%save_inr. cbn [cur] in Hv.
  exists c', (writePaths ks' c' s).
  split_and!; [| done | | done |].
  - apply persist_existing; [done | | done].
    rewrite <- Hids. by apply docId_agree, Hc.
  - intros k Hk. rewrite writePaths_lookup. rewrite decide_False; [done |].
    intros Hin. by apply Hk, Hsub.
  - intros. by apply validate_writePaths.
Qed.

Lemma leavesAlone_weaken ks ks' c s pre post r :
  (∀ k, k ∈ ks → k ∈ ks') → leavesAlone ks c s pre post r →
  leavesAlone ks' c s pre post r.
Proof.
  intros Hsub (c' & s' & -> & Hc & Hs & Hvc & Hvs). exists c', s'.
  split_and!; [done | | | done | done]; intros k Hk; [apply Hc | apply Hs];
    intros Hin; by apply Hk, Hsub.
Qed.

Ltac in_paths Hk :=
  repeat (apply elem_of_cons in Hk as [-> | Hk]; [path_in |]);
  by apply elem_of_nil in Hk.

Ltac keeps_path Hk :=
  rewrite lookup_insert_ne; [| intros <-; apply Hk; path_in].

Lemma recordLogin_leavesAlone now ipAddr ua ok loc c pre s post r :
  docId c = docId s →
  Forall (λ d, hasId (docId s) d = false) pre →
  recordLogin now ipAddr ua ok loc (mkLoaded c [] false) (pre ++ s :: post) = inr r →
  leavesAlone sessionPaths c s pre post r.
Proof.
  intros Hid Hpre. unfold recordLogin, assign. cbn [cur dirty isNew].
  destruct ok; cbn [cur dirty isNew];
    (apply leavesAlone_save; [| path_not_in | unfold sessionPaths; path_not_in
                              | | done | done]).
  - intros k Hk. unfold sessionPaths. in_paths Hk.
  - intros k Hk. unfold sessionPaths in Hk. by do 4 keeps_path Hk.
  - intros k Hk. unfold sessionPaths. in_paths Hk.
  - intros k Hk. unfold sessionPaths in Hk. by keeps_path Hk.
Qed.

Lemma updateLastActive_leavesAlone now c pre s post r :
  docId c = docId s →
  Forall (λ d, hasId (docId s) d = false) pre →
  updateLastActive now (mkLoaded c [] false) (pre ++ s :: post) = inr r →
  leavesAlone sessionPaths c s pre post r.
Proof.
  intros Hid Hpre. unfold updateLastActive, assign. cbn [cur dirty isNew].
  apply leavesAlone_save; [| path_not_in | unfold sessionPaths; path_not_in
                           | | done | done].
  - intros k Hk. unfold sessionPaths. in_paths Hk.
  - intros k Hk. unfold sessionPaths in Hk. by keeps_path Hk.
Qed.

Lemma addRefreshToken_leavesAlone now h j exp device c pre s post r :
  docId c = docId s →
  Forall (λ d, hasId (docId s) d = false) pre →
  addRefreshToken now h j exp device (mkLoaded c [] false) (pre ++ s :: post) = inr r →
  leavesAlone sessionPaths c s pre post r.
Proof.
  intros Hid Hpre. unfold addRefreshToken, assign. cbn [cur dirty isNew].
  apply leavesAlone_save; [| path_not_in | unfold sessionPaths; path_not_in
                           | | done | done].
  - intros k Hk. unfold sessionPaths. in_paths Hk.
  - intros k Hk. unfold sessionPaths in Hk. by keeps_path Hk.
Qed.

Lemma issuePair_leavesAlone env now ua ur device c pre s post w a r m' w' :
  docId c = docId s →
  Forall (λ d, hasId (docId s) d = false) pre →
  issuePair env now ua ur device (mkLoaded c [] false)
    (withUsers (pre ++ s :: post) w) = (inr (a, r, m'), w') →
  ∃ c' s',
    m' = mkLoaded c' [] false
    ∧ users w' = (pre ++ s' :: post)%list
    ∧ (∀ k, k ∉ sessionPaths → c' !! k = c !! k)
    ∧ (∀ k, k ∉ sessionPaths → s' !! k = s !! k)
    ∧ (validate s = true → validate s' = true).
Proof.
  intros Hid Hpre. unfold issuePair, generateRefreshToken, sign.
  cbn [decode users withUsers tokenBlacklist refreshTokens cur tok_jti tok_exp].
  destruct (addRefreshToken _ _ _ _ _ _ _) as [e | [m1 db1]] eqn:E; [done |].
  apply addRefreshToken_leavesAlone in E as (c' & s' & [= -> ->] & Hc & Hs & _ & Hvs);
    [| done | done].
  intros [= <- <- <- <-]. by exists c', s'.
Qed.

(** The pre-save hook on a new document hashes the password. *)
Lemma preSave_new now m pw :
  "password" ∈ dirty m → isNew m = true → password (cur m) = Some pw →
  cur (preSave now m)
  = <["passwordLastChanged" := VDate now]>
      (<["password" := VSecret (Bcrypt pw)]> (cur m))
  ∧ isNew (preSave now m) = true.
Proof.
  intros Hd Hnew Hpw. unfold preSave, isModified.
  rewrite bool_decide_true by done. cbn [negb]. rewrite Hpw, Hnew. cbn [negb].
  rewrite Hpw. unfold assign. by cbn [cur dirty isNew].
Qed.

Lemma registrationFailed_status e : Http.status (registrationFailed e) ≠ 201.
Proof. by destruct e. Qed.

(** The document a registration has stored: appended to the collection, and
    after the saves that follow its creation still with the identity, the
    credentials and the empty lockout state it was created with; it is
    valid, and has no password history. *)
Lemma registerUser_stored env now newId ua ur rnd c f e p img w :
  Http.status (registerUser env now newId ua ur rnd c f e p img w).1 = 201 →
  Forall (λ d, hasId newId d = false) (users w) →
  ∃ s,
    users (registerUser env now newId ua ur rnd c f e p img w).2
      = (users w ++ [s])%list
    ∧ Forall (λ d, emailNotDeleted (Js.toLowerCase e) d = false) (users w)
    ∧ docId s = newId
    ∧ getStr "email" s = Some (emailSetters (Js.toLowerCase e))
    ∧ UserModel.status s = Some "active"
    ∧ password s = Some (Bcrypt (Plain p))
    ∧ loginAttempts s = 0 ∧ lockUntil s = None
    ∧ getDigest "emailVerificationToken" s = None
    ∧ validate s = true
    ∧ passwordHistory s = [].
Proof.
  unfold registerUser.
  destruct (findByEmail e (users w)) eqn:Hfind; [done |]. intros Hok Hfresh.
  assert (Forall (λ d, emailNotDeleted (Js.toLowerCase e) d = false) (users w))
    as Hnone.
  { unfold findByEmail, findOne, UserModel.toLowerCase in Hfind.
    apply Forall_forall. intros d Hd%list_elem_of_In.
    exact (find_none _ _ Hfind d Hd). }
  revert Hok.
  destruct (create _ _ _ _ _) as [e0 | [m1 db1]] eqn:Hcreate;
    [by intros ?%registrationFailed_status |].
  unfold create in Hcreate. apply save_inr in Hcreate as [Hv0 Hcreate].
  revert Hv0 Hcreate.
  set (fields := ([_; _; _] ++ _ ++ _)%list).
  set (d0 := (list_to_map ((setter <$> fields) ++ _)%list : Doc)).
  intros Hv0 Hcreate. cbn [cur] in Hv0.
  assert (∀ k v, (list_to_map
                    ((setter <$> fields)
                     ++ ("_id", VStr newId) :: schemaDefaults env now) : Doc)
                   !! k = v → d0 !! k = v) as Hd0 by done.
  destruct (preSave_new now (mkLoaded d0 (fields.*1) true) (Plain p))
    as [Hcur Hnew]; [by (destruct img; cbn; path_in) | done | |].
  { unfold password. cbn [cur].
    by rewrite (Hd0 "password" (Some (VSecret (Plain p))))
      by (destruct img; vm_compute; reflexivity). }
  cbn [cur] in Hcur.
  pose proof (validate_preSave now (mkLoaded d0 (fields.*1) true) Hv0) as Hv1.
  unfold persist in Hcreate. rewrite Hnew, Hcur in Hcreate. rewrite Hcur in Hv1.
  set (s0 := <["passwordLastChanged" := _]> _) in *.
  pose proof (f_equal fst Hcreate) as Hm1. pose proof (f_equal snd Hcreate) as Hdb1.
  cbn [fst snd] in Hm1, Hdb1. clear Hcreate. subst m1 db1.
  assert (docId s0 = newId) as Hid0.
  { unfold docId, getStr, s0. rewrite !lookup_insert_ne by done.
    by rewrite (Hd0 "_id" (Some (VStr newId)))
      by (destruct img; vm_compute; reflexivity). }
  assert (Forall (λ d, hasId (docId s0) d = false) (users w)) as Hpre
    by by rewrite Hid0.
  destruct (recordLogin _ _ _ _ _ _ _) as [e1 | [m2 db2]] eqn:Hrec;
    [by intros ?%registrationFailed_status |].
  apply recordLogin_leavesAlone in Hrec
    as (c1 & s1 & [= -> ->] & Hc1 & Hs1 & Hvc1 & Hvs1); [| done | done].
  assert (docId c1 = docId s1 ∧ docId s1 = docId s0) as [Hid1 Hid1'].
  { split; [transitivity (docId s0) |]; [| symmetry |];
      apply docId_agree; first [apply Hc1 | apply Hs1];
      unfold sessionPaths; path_not_in. }
  destruct (issuePair _ _ _ _ _ _ _) as [[e2 | [[a r] m3]] w3] eqn:Hpair;
    [by intros ?%registrationFailed_status |].
  apply issuePair_leavesAlone in Hpair
    as (c2 & s2 & -> & Hw2 & Hc2 & Hs2 & Hvs2); [| done | by rewrite Hid1'].
  intros _.
  cbn [fst snd]. exists s2. split; [done |]. split; [done |].
  assert (∀ k, k ∉ sessionPaths → k ≠ "passwordLastChanged" → k ≠ "password" →
               s2 !! k = d0 !! k) as Hk.
  { intros k Hk ? ?. rewrite Hs2, Hs1 by done. unfold s0.
    by rewrite !lookup_insert_ne. }
  assert (s2 !! "password" = Some (VSecret (Bcrypt (Plain p)))) as Hpw.
  { rewrite Hs2, Hs1 by (unfold sessionPaths; path_not_in). unfold s0.
    by rewrite lookup_insert_ne, lookup_insert_eq. }
  unfold docId, UserModel.status, password, loginAttempts, lockUntil, getDigest,
    getDate, getStr, passwordHistory.
  rewrite Hpw, !Hk by first [done | unfold sessionPaths; path_not_in].
  rewrite (Hd0 "_id" (Some (VStr newId))),
    (Hd0 "email" (Some (VStr (emailSetters (Js.toLowerCase e))))),
    (Hd0 "status" (Some (VStr "active"))),
    (Hd0 "loginAttempts" (Some (VNum 0))),
    (Hd0 "lockUntil" (Some VNull)),
    (Hd0 "emailVerificationToken" (Some VNull)),
    (Hd0 "passwordHistory" (Some (VPasswords [])))
    by (destruct img; vm_compute; reflexivity).
  split_and!; try done. auto.
Qed.

Lemma registerUser_storedAt env now newId ua ur rnd c f e p img w e' :
  Http.status (registerUser env now newId ua ur rnd c f e p img w).1 = 201 →
  Forall (λ d, hasId newId d = false) (users w) →
  Js.toLowerCase e' = Js.toLowerCase e →
  ∃ s,
    storedAt (Js.toLowerCase e')
      (users (registerUser env now newId ua ur rnd c f e p img w).2) (users w) [] s
    ∧ docId s = newId
    ∧ UserModel.status s = Some "active"
    ∧ password s = Some (Bcrypt (Plain p))
    ∧ loginAttempts s = 0 ∧ lockUntil s = None
    ∧ getDigest "emailVerificationToken" s = None
    ∧ validate s = true
    ∧ passwordHistory s = [].
Proof.
  intros Hok Hfresh He.
  destruct (registerUser_stored env now newId ua ur rnd c f e p img w Hok Hfresh)
    as (s & Hw & Hnone & Hid & Hemail & Hst & Hpw & Hla & Hlu & Hev & Hv & Hh).
  exists s. split_and!; try done.
  split_and!; [done | |].
  - rewrite He, Hid. apply Forall_forall. rewrite Forall_forall in Hnone, Hfresh.
    auto.
  - unfold emailNotDeleted. rewrite Hemail, He, Hst.
    by rewrite bool_decide_true, bool_decide_false.
Qed.

(** X12.  An account that has just been registered can log in: with the
    password it was registered with (or one that bcrypt does not tell from
    it) and its address in any letter case, the login handler answers 200
    and hands out a token pair, provided the client can log in (its address
    is not empty and passes the validator of [lastLoginIP], its user agent
    has at most 500 characters, and the two together at most 197) and the
    identifier drawn for the refresh token is not empty.  The identifier
    drawn for the new document is taken to be new. *)
Theorem registration_then_login (env : Env) (now now' : Z)
    (newId uuidA uuidR random uuidA' uuidR' : string) (c c' : Client)
    (fullNameIn emailIn passwordIn emailIn' passwordIn' : string)
    (profileImageUrlIn : option string) (w : World) :
  Http.status (registerUser env now newId uuidA uuidR random c fullNameIn emailIn
                 passwordIn profileImageUrlIn w).1 = 201 →
  Forall (λ d, hasId newId d = false) (users w) →
  Js.toLowerCase emailIn' = Js.toLowerCase emailIn →
  bcryptKey passwordIn' = bcryptKey passwordIn →
  admissible c' = true →
  uuidR' ≠ "" →
  let w1 := (registerUser env now newId uuidA uuidR random c fullNameIn emailIn
               passwordIn profileImageUrlIn w).2 in
  Http.status (loginUser env now' uuidA' uuidR' c' emailIn' passwordIn' w1).1 = 200
  ∧ is_Some (Http.tokens (loginUser env now' uuidA' uuidR' c' emailIn' passwordIn' w1).1).
Proof.
  intros Hok Hfresh He Hkey Hadm Hur w1.
  destruct (registerUser_storedAt _ _ _ _ _ _ _ _ _ _ _ _ emailIn' Hok Hfresh He)
    as (s & Hst & _ & Hactive & Hpw & _ & Hlu & _ & Hv & Hh).
  destruct (loginUser_success env now' uuidA' uuidR' c' emailIn' passwordIn' w1
              (users w) [] s Hst Hactive)
    as (r & w' & s' & -> & Hr & Htok & _); [| | done | done | done | done | done].
  - unfold isLocked. by rewrite Hlu.
  - unfold comparePassword. rewrite Hpw. cbn. by apply bool_decide_eq_true.
Qed.

(** Alice registered as Alice@Example.com and logs in as alice@example.com. *)
Lemma registration_then_login_witness :
  Http.status loggedIn.1 = 200 ∧ is_Some (Http.tokens loggedIn.1).
Proof.
  apply (registration_then_login noEnv t0 (t0 + 60000) "64f0c0ffee0000000000a11c"
           "0b9c1f0e-7d1c-4d55-9a57-3a4df1a6c001"
           "5e0f6a51-2c13-4a8e-b1a0-6d2f0c9e7b02" "9f3c2a"
           "a3d1e9c4-8f21-4b0a-9c43-1f7e5d2b8a03"
           "c7b2f4d6-3e58-4c9d-8a14-2b6f9e0d1c04" laptop phone "Alice Liddell"
           "Alice@Example.com" "Passw0rd!" "alice@example.com" "Passw0rd!" None
           emptyWorld).
  - vm_compute. reflexivity.
  - constructor.
  - vm_compute. reflexivity.
  - reflexivity.
  - vm_compute. reflexivity.
  - discriminate.
Defined.

(** X13.  Once an address is registered, a second registration with the same
    address, in whatever letter case, is refused with 409 and changes
    nothing. *)
Theorem second_registration_is_refused (env : Env) (now now' : Z)
    (newId uuidA uuidR random newId' uuidA' uuidR' random' : string)
    (c c' : Client)
    (fullNameIn emailIn passwordIn fullNameIn' emailIn' passwordIn' : string)
    (profileImageUrlIn profileImageUrlIn' : option string) (w : World) :
  Http.status (registerUser env now newId uuidA uuidR random c fullNameIn emailIn
                 passwordIn profileImageUrlIn w).1 = 201 →
  Forall (λ d, hasId newId d = false) (users w) →
  Js.toLowerCase emailIn' = Js.toLowerCase emailIn →
  let w1 := (registerUser env now newId uuidA uuidR random c fullNameIn emailIn
               passwordIn profileImageUrlIn w).2 in
  registerUser env now' newId' uuidA' uuidR' random' c' fullNameIn' emailIn'
    passwordIn' profileImageUrlIn' w1
  = (Http.reply 409 "An account with this email already exists", w1).
Proof.
  intros Hok Hfresh He w1.
  destruct (registerUser_storedAt _ _ _ _ _ _ _ _ _ _ _ _ emailIn' Hok Hfresh He)
    as (s & Hst & _).
  subst w1. unfold registerUser at 1, findByEmail, UserModel.toLowerCase.
  by rewrite (storedAt_find _ _ _ _ _ Hst).
Qed.

(** Somebody tries to register ALICE@EXAMPLE.COM after Alice. *)
Lemma second_registration_is_refused_witness :
  Http.status
    (registerUser noEnv (t0 + 30000) "64f0c0ffee0000000000b0b0"
       "f00dfeed-0000-4000-8000-0000000000e1" "f00dfeed-0000-4000-8000-0000000000e2"
       "1c4d7e" phone "Mallory" "ALICE@EXAMPLE.COM" "S3cret-Word" None
       registered.2).1 = 409.
Proof.
  unfold registered.
  rewrite (second_registration_is_refused noEnv t0 (t0 + 30000));
    [reflexivity | vm_compute; reflexivity | constructor | vm_compute; reflexivity].
Defined.

(** X14.  The e-mail verification token that a registration generates is set
    on the document in memory only, after its last save: whatever token is
    presented afterwards, and whenever, [findByVerificationToken] does not
    find the new account. *)
Theorem verification_token_is_not_stored (env : Env) (now now' : Z)
    (newId uuidA uuidR random token : string) (c : Client)
    (fullNameIn emailIn passwordIn : string) (profileImageUrlIn : option string)
    (w : World) :
  Http.status (registerUser env now newId uuidA uuidR random c fullNameIn emailIn
                 passwordIn profileImageUrlIn w).1 = 201 →
  Forall (λ d, hasId newId d = false) (users w) →
  docId <$> findByVerificationToken token now'
              (users (registerUser env now newId uuidA uuidR random c fullNameIn
                        emailIn passwordIn profileImageUrlIn w).2)
  ≠ Some newId.
Proof.
  intros Hok Hfresh.
  destruct (registerUser_stored _ _ _ _ _ _ _ _ _ _ _ _ Hok Hfresh)
    as (s & -> & _ & Hid & _ & _ & _ & _ & _ & Hev & _).
  unfold findByVerificationToken, findOne.
  destruct (find _ _) as [d |] eqn:Hd; [| done].
  apply find_some in Hd as [[Hin | Hin]%list_elem_of_In%elem_of_app Hp].
  - rewrite Forall_forall in Hfresh. apply Hfresh in Hin.
    unfold hasId in Hin. apply bool_decide_eq_false in Hin.
    cbn. congruence.
  - apply list_elem_of_singleton in Hin as ->. by rewrite Hev in Hp.
Qed.

(** The token of Alice's registration, presented a second later. *)
Lemma verification_token_is_not_stored_witness :
  docId <$> findByVerificationToken "9f3c2a" (t0 + 1000) (users registered.2)
  ≠ Some "64f0c0ffee0000000000a11c".
Proof.
  apply (verification_token_is_not_stored noEnv t0 (t0 + 1000)
           "64f0c0ffee0000000000a11c" "0b9c1f0e-7d1c-4d55-9a57-3a4df1a6c001"
           "5e0f6a51-2c13-4a8e-b1a0-6d2f0c9e7b02" "9f3c2a" "9f3c2a" laptop
           "Alice Liddell" "Alice@Example.com" "Passw0rd!" None emptyWorld).
  - vm_compute. reflexivity.
  - constructor.
Defined.

(** *** What a failed login says *)

(** X15.  A login with a wrong password (one that bcrypt tells from the
    right one) on a valid, unlocked account that has failures to spare, from
    a client that can be recorded (its address is not empty, its user agent
    has at most 500 characters), is answered 401 with the number of attempts
    that remained before this failure was counted, while the stored counter
    goes up by one. *)
Theorem failed_login_announces_the_count_before_it (env : Env) (w : World)
    (emailIn pw : string) (s : Doc) (a : Attempt) :
  NoDup (docId <$> users w) →
  findByEmail emailIn (users w) = Some s →
  validate s = true →
  UserModel.status s = Some "active" →
  password s = Some (Bcrypt (Plain pw)) →
  lockUntil s = None →
  loginAttempts s < maxLoginAttempts env s →
  bcryptKey (at_password a) ≠ bcryptKey pw →
  recordable (at_client a) = true →
  Http.status (answerTo env emailIn a w).1 = 401
  ∧ Http.message (answerTo env emailIn a w).1
    = "Invalid credentials. "
      ++ pretty (maxLoginAttempts env s - loginAttempts s) ++ " attempts remaining."
  ∧ ∃ s', findByEmail emailIn (users (answerTo env emailIn a w).2) = Some s'
          ∧ loginAttempts s' = loginAttempts s + 1.
Proof.
  intros Hnd Hfound Hv Hactive Hpw Hlu Hlt Hwrong Hrec.
  destruct (storedAt_found (Js.toLowerCase emailIn) _ _ Hnd Hfound)
    as (pre & post & Hst).
  destruct (loginUser_failed env (at_now a) (at_uuidA a) (at_uuidR a) (at_client a)
              emailIn (at_password a) w pre post s Hst Hactive)
    as (s1 & Heq & Hs1 & _); [| | done | done |].
  { unfold isLocked. by rewrite Hlu. }
  { unfold comparePassword. rewrite Hpw. cbn. by apply bool_decide_eq_false. }
  unfold answerTo. rewrite Heq. cbn [fst snd Http.status Http.message Http.reply].
  split_and!; [done | |].
  - unfold attemptsRemaining. rewrite Z.max_r by lia.
    by rewrite bool_decide_true by lia.
  - assert (s1 !! "loginAttempts" = s !! "loginAttempts") as Hsame.
    { symmetry. apply (agreeOn_lookup _ _ _ _ Hs1). unfold guarded. path_in. }
    destruct (applyUpdate_incLoginAttempts env (at_now a) s s1 Hsame)
      as (Hc & _ & Hother).
    destruct Hother as (Hcount & _); [intros (t & Ht & _); congruence |].
    eexists. split; [| exact Hcount].
    cbn [users withUsers]. unfold findByEmail, UserModel.toLowerCase.
    eapply storedAt_find, storedAt_replace; [exact Hst |].
    eapply agreeOn_trans; [| exact Hc].
    apply (agreeOn_weaken guarded); [apply credentials_guarded | done].
Qed.

(** The first wrong guess on Alice's account is told that five attempts
    remain; four do. *)
Lemma failed_login_announces_the_count_before_it_witness :
  Http.message (answerTo noEnv "alice@example.com" (guessing 1 "password")
                  loggedIn.2).1
  = "Invalid credentials. 5 attempts remaining."
  ∧ (loginAttempts <$>
       aliceByEmail (answerTo noEnv "alice@example.com" (guessing 1 "password")
                       loggedIn.2).2) = Some 1.
Proof.
  destruct (failed_login_announces_the_count_before_it noEnv loggedIn.2
              "alice@example.com" "Passw0rd!" (default ∅ (aliceByEmail loggedIn.2))
              (guessing 1 "password") alice_unique alice_found)
    as (_ & Hmsg & s' & Hs' & Hk).
  - vm_compute. reflexivity.
  - vm_compute. reflexivity.
  - vm_compute. reflexivity.
  - vm_compute. reflexivity.
  - vm_compute. reflexivity.
  - vm_compute. discriminate.
  - vm_compute. reflexivity.
  - split.
    + rewrite Hmsg. clear. vm_compute. reflexivity.
    + rewrite Hs'. cbn [fmap option_fmap option_map]. rewrite Hk. clear.
      vm_compute. reflexivity.
Defined.

End Accounts.

(** ** Reset tokens, maintenance and backup codes *)

Section Tokens.
Import Jwt UserModel AuthMiddleware AuthController UserMethods UserStatics Server
  Scenario Cases Invariants Upkeep.

Lemma find_none_iff {A} (p : A → bool) (l : list A) :
  find p l = None ↔ Forall (λ x, p x = false) l.
Proof.
  induction l as [| x l IH]; cbn; [by split |].
  destruct (p x) eqn:Hx.
  - split; [done |]. intros [=]%Forall_inv; congruence.
  - rewrite IH. split; [by constructor | by intros ?%Forall_inv_tail].
Qed.

(** X16.  A password-reset token that has been generated for a valid account
    and saved (the save goes through) finds that account for one hour and no
    longer, provided the account is not deleted and no other account holds
    the same token. *)
Theorem reset_token_round_trip (now now' : Z) (random ident : string) (s : Doc)
    (db : DB) :
  byId ident db = Some s →
  validate s = true →
  notDeleted s = true →
  Forall (λ d, getDigest "resetPasswordToken" d ≠ Some (Sha256 random)) db →
  ∃ r,
    save now (generatePasswordResetToken now random (load (select [] [] s))) db
      = inr r
    ∧ (now' < now + 60 * 60 * 1000 →
       docId <$> findByResetToken random now' r.2 = Some ident)
    ∧ (now + 60 * 60 * 1000 ≤ now' → findByResetToken random now' r.2 = None).
Proof.
  intros Hs Hv Hnd Hother.
  pose proof (found_hasId _ _ _ Hs) as Hid.
  unfold byId in Hs. apply find_split in Hs as (pre & post & -> & Hpre & _).
  apply Forall_app in Hother as [Hopre [_ Hopost]%Forall_cons].
  eexists. split.
  { apply save_valid. unfold generatePasswordResetToken, load, assign. cbn [cur].
    do 2 (apply validate_insert; [| intros f Hf; by validator_at Hf]).
    apply validate_select; [done | apply not_elem_of_nil..]. }
  assert ((persist now (generatePasswordResetToken now random
                          (load (select [] [] s))) (pre ++ s :: post)).2
          = (pre ++ writePaths ["resetPasswordExpires"; "resetPasswordToken"]
                      (<["resetPasswordExpires" := VDate (now + 60 * 60 * 1000)]>
                         (<["resetPasswordToken" := VDigest (Sha256 random)]>
                            (select [] [] s))) s :: post)%list) as ->.
  { unfold generatePasswordResetToken, load, assign. cbn [cur dirty isNew].
    rewrite persist_existing; [done | path_not_in | | by rewrite Hid].
    apply docId_agree. rewrite !lookup_insert_ne by done.
    apply select_lookup;
      [unfold hiddenPaths; path_not_in | apply not_elem_of_nil | done]. }
  set (s' := writePaths _ _ s).
  assert (getDigest "resetPasswordToken" s' = Some (Sha256 random)) as Htok.
  { unfold getDigest, s'. rewrite writePaths_lookup, decide_True by path_in.
    by rewrite lookup_insert_ne, lookup_insert_eq. }
  assert (getDate "resetPasswordExpires" s' = Some (now + 60 * 60 * 1000)) as Hexp.
  { unfold getDate, s'. rewrite writePaths_lookup, decide_True by path_in.
    by rewrite lookup_insert_eq. }
  assert (notDeleted s' = true ∧ docId s' = ident) as [Hnd' Hid'].
  { unfold notDeleted, UserModel.status, docId, getStr, s' in *.
    by rewrite !writePaths_lookup, !decide_False by path_not_in. }
  assert (∀ l, Forall (λ d, getDigest "resetPasswordToken" d ≠ Some (Sha256 random)) l →
               Forall (λ d, (bool_decide (getDigest "resetPasswordToken" d
                                          = Some (Sha256 random))
                             && dateAfter "resetPasswordExpires" now' d
                             && notDeleted d) = false) l) as Hmiss.
  { intros l Hl. eapply Forall_impl; [exact Hl |].
    intros d Hd. by rewrite bool_decide_false. }
  unfold findByResetToken, findOne. split; intros Hnow.
  - rewrite (find_app_hit _ pre post s'); [by rewrite <- Hid' | by apply Hmiss |].
    rewrite Htok, Hnd'. unfold dateAfter. rewrite Hexp.
    by rewrite !bool_decide_true by (done || lia).
  - apply find_none_iff, Forall_app. split; [by apply Hmiss |].
    constructor; [| by apply Hmiss].
    unfold dateAfter. rewrite Hexp, (bool_decide_false (now' < _)) by lia.
    by rewrite andb_false_r.
Qed.

(** A reset token for Alice: it finds her half an hour later, and no longer
    two hours later. *)
Lemma reset_token_round_trip_witness :
  ∃ r,
    save t0 (generatePasswordResetToken t0 "5b1e9a"
               (load (select [] [] (default ∅ (aliceIn loggedIn.2)))))
      (users loggedIn.2) = inr r
    ∧ (docId <$> findByResetToken "5b1e9a" (t0 + 1800000) r.2)
      = Some "64f0c0ffee0000000000a11c"
    ∧ findByResetToken "5b1e9a" (t0 + 7200000) r.2 = None.
Proof.
  destruct (reset_token_round_trip t0 (t0 + 1800000) "5b1e9a"
              "64f0c0ffee0000000000a11c" (default ∅ (aliceIn loggedIn.2))
              (users loggedIn.2)) as (r & Hr & H1 & _).
  - apply found_default. vm_compute. reflexivity.
  - vm_compute. reflexivity.
  - vm_compute. reflexivity.
  - apply (bool_decide_unpack _). vm_compute. exact I.
  - destruct (reset_token_round_trip t0 (t0 + 7200000) "5b1e9a"
                "64f0c0ffee0000000000a11c" (default ∅ (aliceIn loggedIn.2))
                (users loggedIn.2)) as (r' & Hr' & _ & H2).
    + apply found_default. vm_compute. reflexivity.
    + vm_compute. reflexivity.
    + vm_compute. reflexivity.
    + apply (bool_decide_unpack _). vm_compute. exact I.
    + exists r. rewrite Hr in Hr'. injection Hr' as <-.
      split_and!; [done | apply H1 | apply H2]; lia.
Defined.

(** X17.  The maintenance job unsets the reset and the verification token of
    every account, expired or not: right after [User.cleanupExpiredTokens], and
    so after [User.performMaintenance], no token finds any account. *)
Theorem maintenance_cancels_pending_tokens (now now' : Z) (token : string) (db : DB) :
  findByResetToken token now' (cleanupExpiredTokens now db) = None
  ∧ findByVerificationToken token now' (cleanupExpiredTokens now db) = None
  ∧ findByResetToken token now' (performMaintenance now db) = None
  ∧ findByVerificationToken token now' (performMaintenance now db) = None.
Proof.
  assert (∀ k d, k ∈ ["resetPasswordToken"; "emailVerificationToken"] →
            getDigest k
              (dropPaths ["resetPasswordToken"; "resetPasswordExpires";
                          "emailVerificationToken"; "emailVerificationExpires"] d)
            = None) as Hdrop.
  { intros k d Hk. unfold getDigest. rewrite dropPaths_lookup.
    rewrite decide_True; [done |].
    repeat (apply elem_of_cons in Hk as [-> | Hk]; [path_in |]).
    by apply elem_of_nil in Hk. }
  assert (∀ k d, k ∈ ["resetPasswordToken"; "emailVerificationToken"] →
            getDigest k (sliceLoginHistory d) = getDigest k d) as Hslice.
  { intros k d Hk. unfold getDigest, sliceLoginHistory.
    rewrite lookup_insert_ne; [done |]. intros <-. revert Hk. path_not_in. }
  unfold findByResetToken, findByVerificationToken, findOne, performMaintenance,
    cleanupExpiredTokens.
  split_and!; apply find_none_iff, Forall_forall; intros d Hd;
    repeat (apply list_elem_of_fmap in Hd as (? & -> & Hd));
    rewrite ?Hslice, Hdrop by path_in; done.
Qed.

(** *** Backup codes *)

Lemma toBackupCode_ofBackupCode bc : toBackupCode (ofBackupCode bc) = Some bc.
Proof. by destruct bc as [c [] []]. Qed.

Lemma useCode_unknown h now (l : list BackupCode) :
  Forall (λ bc, code bc ≠ h ∨ used bc = true) l →
  useCode h now (ofBackupCode <$> l) = None.
Proof.
  induction 1 as [| bc l Hbc _ IH]; [done |].
  cbn [fmap list_fmap useCode]. rewrite toBackupCode_ofBackupCode.
  fold (fmap (M := list) ofBackupCode l). rewrite IH.
  destruct Hbc as [Hc | ->]; [by rewrite bool_decide_false | by rewrite andb_false_r].
Qed.

Lemma fresh_codes (cs : list string) :
  (λ c, ofBackupCode (mkBackupCode (Sha256 c) false None)) <$> cs
  = ofBackupCode <$> ((λ c, mkBackupCode (Sha256 c) false None) <$> cs).
Proof. by rewrite <- list_fmap_compose. Qed.

Lemma useCode_once now now' (cs : list string) (u : string) :
  NoDup cs → u ∈ cs →
  ∃ l', useCode (Sha256 u) now
          ((λ c, ofBackupCode (mkBackupCode (Sha256 c) false None)) <$> cs) = Some l'
        ∧ useCode (Sha256 u) now' l' = None.
Proof.
  induction 1 as [| c cs Hc Hnd IH]; [by intros ?%elem_of_nil |].
  intros Hu. cbn [fmap list_fmap useCode]. rewrite toBackupCode_ofBackupCode.
  cbn [code used negb].
  assert (∀ cs', u ∉ cs' →
            useCode (Sha256 u) now'
              ((λ c, ofBackupCode (mkBackupCode (Sha256 c) false None)) <$> cs')
            = None) as Hfresh.
  { intros cs' Hcs'. rewrite fresh_codes.
    apply useCode_unknown, Forall_fmap, Forall_forall.
    intros c' Hc'. left. cbn. intros [= ->]. done. }
  destruct (decide (c = u)) as [-> | Hne].
  - rewrite bool_decide_true by done. cbn [andb]. eexists. split; [done |].
    cbn [useCode]. rewrite toBackupCode_ofBackupCode. cbn [code used negb].
    rewrite andb_false_r. by rewrite Hfresh.
  - rewrite bool_decide_false by congruence. cbn [andb].
    apply elem_of_cons in Hu as [-> | Hu]; [done |].
    destruct (IH Hu) as (l' & -> & Hl'). eexists. split; [done |].
    cbn [useCode]. rewrite toBackupCode_ofBackupCode. cbn [code used negb].
    rewrite bool_decide_false by congruence. cbn [andb]. by rewrite Hl'.
Qed.

Lemma verifyBackupCode_on now codeIn m l :
  cur m !! "backupCodes" = Some (VArr l) →
  verifyBackupCode now codeIn m
  = match useCode (Sha256 (JsText.toUpperCase codeIn)) now l with
    | Some l' => (true, assign "backupCodes" (VArr l') m)
    | None => (false, m)
    end.
Proof. intros H. unfold verifyBackupCode. by rewrite H. Qed.

(** X18.  Of the backup codes a call of [generateBackupCodes] has returned,
    taken to be distinct, each is accepted by [verifyBackupCode] once, in
    either letter case, and refused the second time; anything else is
    refused. *)
Theorem backup_code_is_accepted_once (random : nat → string) (m : Loaded)
    (now now' : Z) (codeIn : string) :
  NoDup (generateBackupCodes random m).1 →
  (verifyBackupCode now codeIn (generateBackupCodes random m).2).1
    = bool_decide (JsText.toUpperCase codeIn ∈ (generateBackupCodes random m).1)
  ∧ (verifyBackupCode now' codeIn
       (verifyBackupCode now codeIn (generateBackupCodes random m).2).2).1 = false.
Proof.
  unfold generateBackupCodes. cbn [fst snd].
  set (codes := (λ i, JsText.toUpperCase (random i)) <$> seq 0 10).
  set (m1 := assign "backupCodes" _ m).
  assert (cur m1 !! "backupCodes"
          = Some (VArr ((λ c, ofBackupCode (mkBackupCode (Sha256 c) false None))
                          <$> codes))) as Hm1 by apply lookup_insert_eq.
  clearbody m1. intros Hnd.
  rewrite (verifyBackupCode_on now codeIn m1 _ Hm1).
  case_bool_decide as Hin.
  - destruct (useCode_once now now' codes _ Hnd Hin) as (l' & -> & Hl').
    cbn [fst snd]. split; [done |].
    rewrite (verifyBackupCode_on now' codeIn _ l') by apply lookup_insert_eq.
    by rewrite Hl'.
  - assert (∀ t, useCode (Sha256 (JsText.toUpperCase codeIn)) t
                   ((λ c, ofBackupCode (mkBackupCode (Sha256 c) false None))
                      <$> codes) = None) as Hmiss.
    { intros t. rewrite fresh_codes. apply useCode_unknown.
      apply Forall_fmap, Forall_forall. intros c Hc. left. cbn. by intros [= ->]. }
    rewrite Hmiss. cbn [fst snd]. split; [done |].
    by rewrite (verifyBackupCode_on now' codeIn m1 _ Hm1), Hmiss.
Qed.

(** Ten codes for Alice; the fourth is typed in lower case, twice. *)
Lemma backup_code_is_accepted_once_witness :
  (verifyBackupCode (t0 + 300000) "c0ffee03" (generateBackupCodes draw aliceLoaded).2).1
    = true
  ∧ (verifyBackupCode (t0 + 360000) "c0ffee03"
       (verifyBackupCode (t0 + 300000) "c0ffee03"
          (generateBackupCodes draw aliceLoaded).2).2).1 = false.
Proof.
  destruct (backup_code_is_accepted_once draw aliceLoaded (t0 + 300000)
              (t0 + 360000) "c0ffee03") as [H1 H2].
  - apply (bool_decide_unpack _). vm_compute. exact I.
  - split; [| exact H2]. rewrite H1. clear. vm_compute. reflexivity.
Defined.

End Tokens.

(** ** The date-range check *)

Section DateRange.
Import Http Guards Validation.

(** X19.  [validateDateRange] lets a request with both dates through exactly
    when the start lies before the end and at most 365 days before it, and it
    lets every request through that lacks one of the two dates, whatever the
    other one is. *)
Theorem validateDateRange_accepts (s e : Z) (other : option (option Z)) :
  (validateDateRange (Some (Some s)) (Some (Some e)) = Pass
   ↔ s < e ∧ e - s ≤ 365 * (1000 * 60 * 60 * 24))
  ∧ validateDateRange None other = Pass
  ∧ validateDateRange other None = Pass.
Proof.
  split_and!; [| done | by destruct other].
  unfold validateDateRange. case_bool_decide as Hle; [split; [done | lia] |].
  change (1000 * 60 * 60 * 24) with 86400000.
  destruct (Qle_bool _ _) eqn:Hq; cbn [negb].
  - apply Qle_bool_iff in Hq. split; [intros _ | done].
    split; [lia |]. unfold Qle in Hq. cbn in Hq. lia.
  - split; [done |]. intros [_ Hd]. apply not_true_iff_false in Hq. destruct Hq.
    apply Qle_bool_iff. unfold Qle. cbn. lia.
Qed.

End DateRange.

(** ** Revocation in the persisted list, and the lock on open sessions *)

Section Sessions.
Import Jwt UserModel AuthMiddleware AuthController Server Scenario Cases
  Invariants Upkeep.

(** X20.  A logout from all devices that answers 200 has marked every
    descriptor of the account's persisted list as revoked, and has changed
    nothing else about the descriptors. *)
Theorem logoutAllDevices_marks_every_descriptor (now : Z) (ru : ReqUser) (w : World) :
  Http.status (logoutAllDevices now ru w).1 = 200 →
  ∃ s s',
    findById (reqId ru) (users w) = inr (Some s)
    ∧ findById (reqId ru) (users (logoutAllDevices now ru w).2) = inr (Some s')
    ∧ UserModel.refreshTokens s' = revoke <$> UserModel.refreshTokens s
    ∧ Forall (λ e, isRevoked e = true) (UserModel.refreshTokens s').
Proof.
  unfold logoutAllDevices.
  destruct (findById (reqId ru) (users w)) as [e | [s |]] eqn:Hs; [done | | done].
  cbn [fmap option_fmap option_map].
  apply findById_inr in Hs as [Hoid Hs]. symmetry in Hs.
  pose proof (found_hasId _ _ _ Hs) as Hid.
  assert (∀ k, k ∈ ["_id"; "refreshTokens"] → select [] [] s !! k = s !! k) as Hsel.
  { intros k Hk. apply select_lookup; [| apply not_elem_of_nil |].
    - unfold hiddenPaths.
      repeat (apply elem_of_cons in Hk as [-> | Hk]; [path_not_in |]).
      by apply elem_of_nil in Hk.
    - intros ->. revert Hk. path_not_in. }
  destruct (revokeAllRefreshTokens _ _ _) as [e | [m1 db1]] eqn:Hsave; [done |].
  intros _. cbn [snd users withUsers].
  unfold revokeAllRefreshTokens, load, assign in Hsave.
  cbn [cur dirty isNew] in Hsave. apply save_inr in Hsave as [_ Hsave].
  unfold persist in Hsave. rewrite preSave_clean in Hsave by (cbn; path_not_in).
  cbn [cur dirty isNew] in Hsave.
  pose proof (f_equal snd Hsave) as Hdb1. cbn [snd] in Hdb1. clear Hsave.
  subst db1.
  set (c := <["refreshTokens" := _]> _).
  assert (docId c = reqId ru) as ->.
  { rewrite <- Hid. apply docId_agree. unfold c.
    rewrite lookup_insert_ne by done. apply Hsel. path_in. }
  exists s, (writePaths ["refreshTokens"] c s).
  assert (UserModel.refreshTokens (writePaths ["refreshTokens"] c s)
          = revoke <$> UserModel.refreshTokens s) as Hr.
  { unfold UserModel.refreshTokens at 1. rewrite writePaths_lookup.
    rewrite decide_True by path_in. unfold c. rewrite lookup_insert_eq.
    unfold UserModel.refreshTokens. by rewrite Hsel by path_in. }
  split_and!; [done | | done |].
  - apply findById_inr. split; [done |]. symmetry.
    apply byId_updateFirst; [done |]. apply docId_agree.
    rewrite writePaths_lookup. by rewrite decide_False by path_not_in.
  - rewrite Hr. apply Forall_fmap, Forall_forall. by intros e _.
Qed.

(** Alice logs out everywhere: both of her descriptors are marked. *)
Lemma logoutAllDevices_marks_every_descriptor_witness :
  ((λ d, (length (UserModel.refreshTokens d),
          forallb isRevoked (UserModel.refreshTokens d)))
     <$> aliceIn loggedOutEverywhere.2) = Some (2%nat, true).
Proof.
  destruct (logoutAllDevices_marks_every_descriptor (t0 + 120000) aliceReq loggedIn.2)
    as (s & s' & Hs & Hs' & Hr & _).
  - vm_compute. reflexivity.
  - apply findById_inr in Hs as [_ Hs]. apply findById_inr in Hs' as [_ Hs'].
    assert (s = default ∅ (aliceIn loggedIn.2)) as ->.
    { change (aliceIn loggedIn.2)
        with (byId (reqId aliceReq) (users loggedIn.2)).
      by rewrite <- Hs. }
    clear Hs.
    change (aliceIn loggedOutEverywhere.2)
      with (byId (reqId aliceReq)
              (users (logoutAllDevices (t0 + 120000) aliceReq loggedIn.2).2)).
    rewrite <- Hs'. cbn [fmap option_fmap option_map].
    rewrite Hr. clear Hs' Hr. vm_compute. reflexivity.
Defined.

(** Logins leave the blacklist alone. *)
Lemma logins_keep_the_blacklist env emailIn (attempts : list Attempt) w :
  tokenBlacklist (run env w (attemptOn emailIn <$> attempts)) = tokenBlacklist w.
Proof.
  revert w. induction attempts as [| a attempts IH]; intros w; [done |].
  rewrite fmap_cons. unfold run. cbn [foldl].
  fold (run env (step env w (attemptOn emailIn a)) (attemptOn emailIn <$> attempts)).
  rewrite IH. unfold attemptOn. cbn [step].
  apply (loginUser_containers env (at_now a) (at_uuidA a) (at_uuidR a)).
Qed.

(** X21.  The lock that [maxLoginAttempts] wrong passwords put on an account
    also closes its open sessions: until the lock ends, the session
    middleware answers 423 to an access token of that account that is neither
    expired nor blacklisted.  The account is valid, its [_id] an ObjectId and
    its maximum at most the 50 its counter may hold; the wrong passwords are
    such that bcrypt tells them from the right one, and come from clients
    that can be recorded. *)
Theorem lockout_suspends_open_sessions (env : Env) (w : World)
    (emailIn pw ident addr uuid : string) (role : option string) (s : Doc)
    (failed : list Attempt) (minted now' : Z) (scheme : Token) :
  NoDup (docId <$> users w) →
  findByEmail emailIn (users w) = Some s →
  validate s = true →
  docId s = ident →
  isObjectId ident = true →
  UserModel.status s = Some "active" →
  password s = Some (Bcrypt (Plain pw)) →
  loginAttempts s = 0 →
  lockUntil s = None →
  1 ≤ maxLoginAttempts env s ≤ 50 →
  Z.of_nat (length failed) = maxLoginAttempts env s →
  Forall (λ a, bcryptKey (at_password a) ≠ bcryptKey pw
               ∧ recordable (at_client a) = true) failed →
  let t := generateToken env minted uuid (mkIdentity ident addr role) in
  isTokenBlacklisted t w = false →
  now' / 1000 < minted / 1000 + accessLifetime env →
  now' < default 0 (at_now <$> last failed) + lockTime env s →
  ∃ r, (authenticateToken env now' (Some [scheme; t])
          (run env w (attemptOn emailIn <$> failed))).1 = Respond r
       ∧ Http.status r = 423.
Proof.
  intros Hnd Hfound Hv Hident Hoid Hactive Hpw Hzero Hnolock Hmax Hlen Hwrong t
    Hbl Hexp Hin.
  destruct (storedAt_found (Js.toLowerCase emailIn) _ _ Hnd Hfound)
    as (pre & post & Hst).
  assert (account emailIn s w 0 None) as Hacc0
    by (exists pre, post, s; split_and!;
        [done | apply agreeOn_refl | done | done | done | done]).
  destruct (exists_last (l := failed)) as (init & lst & Hfailed);
    [intros ->; simpl in Hlen; lia |].
  subst failed. rewrite length_app in Hlen. cbn [length] in Hlen.
  apply Forall_app in Hwrong as [Hinit [Hlst Hrec]%Forall_inv].
  rewrite last_snoc in Hin. cbn in Hin.
  set (w1 := run env w (attemptOn emailIn <$> (init ++ [lst])%list)).
  assert (account emailIn s w1
            (maxLoginAttempts env s) (Some (at_now lst + lockTime env s))) as Hacc.
  { unfold w1. rewrite fmap_app, run_app. cbn [fmap list_fmap].
    unfold run at 1. cbn [foldl].
    pose proof (account_counting env emailIn pw s Hactive Hpw init w 0 Hacc0 Hinit
                  ltac:(lia) ltac:(lia)) as Hk.
    destruct (account_wrong_password env emailIn pw s Hactive Hpw lst _ _ Hk Hlst Hrec)
      as [_ Hnext].
    specialize (Hnext ltac:(lia)).
    rewrite bool_decide_true in Hnext by lia.
    replace (0 + Z.of_nat (length init) + 1) with (maxLoginAttempts env s)
      in Hnext by lia.
    exact Hnext. }
  destruct Hacc as (pre1 & post1 & s1 & Hst1 & Hcred & _ & Hlock & _).
  destruct (credentials_reads env "" "" _ _ Hcred) as (Hid1 & _ & Hstatus1 & _).
  assert (findById ident (users w1) = inr (Some s1)) as Hs1.
  { pose proof (storedAt_ids _ _ _ _ _ Hst1) as Hids.
    destruct Hst1 as (-> & _). apply findById_inr. split; [done |]. symmetry.
    unfold byId.
    apply find_app_hit; [by rewrite <- Hident, Hid1 |].
    rewrite <- Hident, Hid1. apply hasId_self. }
  unfold authenticateToken. cbn [bearer lookup list_lookup].
  change (truthy t) with true. cbn [negb].
  unfold isTokenBlacklisted in *. unfold w1 at 1.
  rewrite logins_keep_the_blacklist, Hbl.
  assert (verify now' t (getCurrentJWTSecret env) (issuer env) (audience env)
          = inr (mkClaims ident addr (Some (Js.strOr role "user"))
                   "access" (minted / 1000) (minted / 1000 + accessLifetime env)
                   (issuer env) (audience env) uuid)) as ->.
  { unfold t, generateToken, sign, verify. cbn [id identEmail identRole].
    cbn [tok_exp tok_aud tok_iss].
    rewrite (bool_decide_true (getCurrentJWTSecret env = _)) by done.
    rewrite (bool_decide_false (_ ≤ _)) by lia.
    by rewrite (bool_decide_true (audience env = _)),
         (bool_decide_true (issuer env = _)) by done. }
  cbn [tok_tokenType tok_id]. rewrite bool_decide_true by done. cbn [negb].
  rewrite Hs1. cbn [fmap option_fmap option_map].
  rewrite notActive_select, isLocked_select by path_not_in.
  assert (notActive s1 = false) as ->.
  { unfold notActive. by rewrite <- Hstatus1, Hactive. }
  assert (isLocked now' s1 = true) as ->.
  { unfold isLocked. rewrite Hlock. by apply bool_decide_eq_true. }
  by eexists.
Qed.

(** Five wrong guesses on Alice's address: ten minutes after the first of
    them her own session is answered 423. *)
Lemma lockout_suspends_open_sessions_witness :
  ∃ r, (authenticateToken noEnv (t0 + 86400000 + 600000) (bearerHeader dayTwoToken)
          (run noEnv loggedIn.2 (attemptOn "alice@example.com" <$> fiveGuesses))).1
       = Respond r
       ∧ Http.status r = 423.
Proof.
  apply (lockout_suspends_open_sessions noEnv loggedIn.2 "alice@example.com"
           "Passw0rd!" "64f0c0ffee0000000000a11c" "alice@example.com"
           "f00dfeed-0000-4000-8000-0000000000f1" (Some "user")
           (default ∅ (aliceByEmail loggedIn.2)) fiveGuesses (t0 + 86400000)
           (t0 + 86400000 + 600000) (NotJwt "Bearer") alice_unique alice_found).
  - vm_compute. reflexivity.
  - vm_compute. reflexivity.
  - vm_compute. reflexivity.
  - vm_compute. reflexivity.
  - vm_compute. reflexivity.
  - vm_compute. reflexivity.
  - vm_compute. reflexivity.
  - replace (maxLoginAttempts noEnv (default ∅ (aliceByEmail loggedIn.2)))
      with 5 by (vm_compute; reflexivity). lia.
  - vm_compute. reflexivity.
  - apply fiveGuesses_fail.
  - vm_compute. reflexivity.
  - vm_compute. reflexivity.
  - vm_compute. reflexivity.
Defined.

End Sessions.

(** ** The login history *)

Section AuditTrail.
Import Jwt UserModel AuthMiddleware AuthController Server Scenario Cases
  Invariants Upkeep.

Lemma loginHistory_agree d d' :
  d !! "loginHistory" = d' !! "loginHistory" → loginHistory d = loginHistory d'.
Proof. intros H. unfold loginHistory. by rewrite H. Qed.

Lemma last_capped {A} (n : Z) (l : list A) (x : A) :
  0 < n →
  last (if bool_decide (n < Z.of_nat (length (l ++ [x])))
        then Js.sliceLast n (l ++ [x]) else (l ++ [x])%list) = Some x.
Proof.
  intros Hn. case_bool_decide; [| apply last_snoc].
  unfold Js.sliceLast. rewrite length_app in *. cbn [length] in *.
  rewrite drop_app_le by lia. apply last_snoc.
Qed.

(** [recordLogin] on the document in memory [c] that is stored as [s], when
    its [save] goes through. *)
Lemma recordLogin_history now ipAddr ua ok loc c pre s post r :
  docId c = docId s →
  Forall (λ d, hasId (docId s) d = false) pre →
  recordLogin now ipAddr ua ok loc (mkLoaded c [] false) (pre ++ s :: post) = inr r →
  ∃ c' s',
    r = (mkLoaded c' [] false, (pre ++ s' :: post)%list)
    ∧ docId c' = docId s ∧ docId s' = docId s
    ∧ loginHistory s' = loginHistory c'
    ∧ last (loginHistory c')
      = Some (mkLoginEntry now ipAddr ua ok loc (Md5Prefix16 (ipAddr ++ ":" ++ ua))).
Proof.
  intros Hid Hpre. unfold recordLogin, assign. cbn [cur dirty isNew].
  set (h := if bool_decide _ then _ else _).
  assert (last h = Some (mkLoginEntry now ipAddr ua ok loc
                           (Md5Prefix16 (ipAddr ++ ":" ++ ua)))) as Hlast
    by (by apply last_capped).
  destruct ok; cbn [cur dirty isNew]; intros [_ ->]%save_inr;
    (rewrite persist_existing;
       [| path_not_in
        | rewrite <- Hid; apply docId_agree; by rewrite !lookup_insert_ne by done
        | done]);
    eexists _, _; (split; [reflexivity |]); split_and!.
  - rewrite <- Hid. apply docId_agree. by rewrite !lookup_insert_ne by done.
  - apply docId_agree. rewrite writePaths_lookup. by rewrite decide_False by path_not_in.
  - apply loginHistory_agree. rewrite writePaths_lookup. by rewrite decide_True by path_in.
  - unfold loginHistory. rewrite !lookup_insert_ne by done. by rewrite lookup_insert_eq.
  - rewrite <- Hid. apply docId_agree. by rewrite !lookup_insert_ne by done.
  - apply docId_agree. rewrite writePaths_lookup. by rewrite decide_False by path_not_in.
  - apply loginHistory_agree. rewrite writePaths_lookup. by rewrite decide_True by path_in.
  - unfold loginHistory. by rewrite lookup_insert_eq.
Qed.

(** A method that writes neither [_id] nor [loginHistory]. *)
Lemma leavesAlone_history ks c s pre post r :
  "_id" ∉ ks → "loginHistory" ∉ ks →
  leavesAlone ks c s pre post r →
  ∃ c' s', r = (mkLoaded c' [] false, (pre ++ s' :: post)%list)
           ∧ docId c' = docId c ∧ docId s' = docId s
           ∧ loginHistory c' = loginHistory c ∧ loginHistory s' = loginHistory s.
Proof.
  intros Hid Hh (c' & s' & -> & Hc & Hs & _). exists c', s'.
  split_and!; [done | | | |];
    first [apply docId_agree | apply loginHistory_agree]; auto.
Qed.

Lemma updateLastActive_history now c pre s post r :
  docId c = docId s →
  Forall (λ d, hasId (docId s) d = false) pre →
  updateLastActive now (mkLoaded c [] false) (pre ++ s :: post) = inr r →
  ∃ c' s', r = (mkLoaded c' [] false, (pre ++ s' :: post)%list)
           ∧ docId c' = docId c ∧ docId s' = docId s
           ∧ loginHistory c' = loginHistory c ∧ loginHistory s' = loginHistory s.
Proof.
  intros Hid Hpre Hr.
  apply (leavesAlone_history ["lastActiveAt"]); [path_not_in.. |].
  unfold updateLastActive, assign in Hr. cbn [cur dirty isNew] in Hr.
  refine (leavesAlone_save now c _ ["lastActiveAt"] ["lastActiveAt"] pre s post r
            _ _ _ _ Hid Hpre Hr); [done | path_not_in | path_not_in |].
  intros k Hk. rewrite lookup_insert_ne; [done |]. intros <-. apply Hk. path_in.
Qed.

(** The stored document after [issuePair]: as it was when the descriptor is
    refused, and with the login history it had otherwise. *)
Lemma issuePair_history env now ua ur device c pre s post w x w' :
  docId c = docId s →
  Forall (λ d, hasId (docId s) d = false) pre →
  issuePair env now ua ur device (mkLoaded c [] false)
    (withUsers (pre ++ s :: post) w) = (x, w') →
  ∃ s', users w' = (pre ++ s' :: post)%list
        ∧ docId s' = docId s ∧ loginHistory s' = loginHistory s.
Proof.
  intros Hid Hpre. unfold issuePair, generateRefreshToken, sign.
  cbn [decode users withUsers tokenBlacklist AuthMiddleware.refreshTokens cur
       tok_jti tok_exp].
  destruct (addRefreshToken _ _ _ _ _ _ _) as [e | [m1 db1]] eqn:E.
  - intros [= <- <-]. by exists s.
  - unfold addRefreshToken, assign in E. cbn [cur dirty isNew] in E.
    destruct (leavesAlone_history ["refreshTokens"] c s pre post (m1, db1))
      as (c' & s' & [= -> ->] & _ & Hs & _ & Hh); [path_not_in.. | |].
    { refine (leavesAlone_save now c _ ["refreshTokens"] ["refreshTokens"] pre s
                post (m1, db1) _ _ _ _ Hid Hpre E);
        [done | path_not_in | path_not_in |].
      intros k Hk. rewrite lookup_insert_ne; [done |]. intros <-. apply Hk. path_in. }
    intros [= <- <-]. by exists s'.
Qed.

Lemma found_at ident pre post (s : Doc) :
  docId s = ident →
  Forall (λ d, hasId ident d = false) pre →
  byId ident (pre ++ s :: post) = Some s.
Proof.
  intros <- Hpre. unfold byId. apply find_app_hit; [done | apply hasId_self].
Qed.

(** X22.  A login attempt on an address that has an account, when it is
    not answered 500, leaves an entry at the end of the account's stored
    login history: the time, the client's address and user agent, and
    whether the attempt was answered 200.  An attempt that is answered 500
    leaves the history as it was, or leaves an entry that says the attempt
    succeeded (the entry is saved before the handler fails). *)
Theorem every_login_attempt_is_recorded (env : Env) (now : Z) (uuidA uuidR : string)
    (c : Client) (emailIn pwIn : string) (w : World) (s : Doc) :
  NoDup (docId <$> users w) →
  findByEmail emailIn (users w) = Some s →
  ∃ s',
    byId (docId s) (users (loginUser env now uuidA uuidR c emailIn pwIn w).2)
      = Some s'
    ∧ (Http.status (loginUser env now uuidA uuidR c emailIn pwIn w).1 ≠ 500 →
       last (loginHistory s')
       = Some (loginRecord now c
                 (bool_decide
                    (Http.status (loginUser env now uuidA uuidR c emailIn pwIn w).1
                     = 200))))
    ∧ (Http.status (loginUser env now uuidA uuidR c emailIn pwIn w).1 = 500 →
       loginHistory s' = loginHistory s
       ∨ last (loginHistory s') = Some (loginRecord now c true)).
Proof.
  intros Hnd Hfound.
  destruct (storedAt_found (Js.toLowerCase emailIn) _ _ Hnd Hfound)
    as (pre & post & Hst).
  pose proof (storedAt_ids _ _ _ _ _ Hst) as Hids.
  unfold loginUser. rewrite (storedAt_find _ _ _ _ _ Hst).
  cbn [fmap option_fmap option_map].
  destruct Hst as (Hdb & _ & _). unfold load.
  set (u := select ["password"] [] s).
  assert (docId u = docId s) as Hu
    by (apply docId_agree, select_lookup; [unfold hiddenPaths; path_not_in
                                          | apply not_elem_of_nil | done]).
  assert (loginHistory u = loginHistory s) as Hhu
    by (apply loginHistory_agree, select_lookup; [unfold hiddenPaths; path_not_in
                                                 | apply not_elem_of_nil | done]).
  assert (byId (docId s) (users w) = Some s) as Hself
    by (rewrite Hdb; by apply found_at).
  unfold loginRecord.
  destruct (negb (bool_decide (UserModel.status u = Some "active")));
    [| destruct (isLocked now u);
       [| destruct (negb (comparePassword pwIn u))]].
  - destruct (recordLogin _ _ _ _ _ _ _) as [e | r] eqn:Hr;
      [exists s; cbn; split_and!; [done | done | by left] |].
    rewrite Hdb in Hr.
    apply recordLogin_history in Hr as (c1 & s1 & -> & _ & Hs1 & Hh1 & Hl1);
      [| done | done].
    cbn [fst snd users withUsers Http.status Http.reply].
    exists s1. split_and!; [by apply found_at | | done].
    intros _. rewrite bool_decide_false by done. by rewrite Hh1.
  - destruct (recordLogin _ _ _ _ _ _ _) as [e | r] eqn:Hr;
      [exists s; cbn; split_and!; [done | done | by left] |].
    rewrite Hdb in Hr.
    apply recordLogin_history in Hr as (c1 & s1 & -> & _ & Hs1 & Hh1 & Hl1);
      [| done | done].
    cbn [fst snd users withUsers Http.status Http.reply].
    exists s1. split_and!; [by apply found_at | | done].
    intros _. rewrite bool_decide_false by done. by rewrite Hh1.
  - destruct (recordLogin _ _ _ _ _ _ _) as [e | r] eqn:Hr;
      [exists s; cbn; split_and!; [done | done | by left] |].
    rewrite Hdb in Hr.
    apply recordLogin_history in Hr as (c1 & s1 & -> & Hc1 & Hs1 & Hh1 & Hl1);
      [| done | done].
    cbn [cur fst snd users withUsers Http.status Http.reply].
    rewrite updateOne_existing; [| congruence | by rewrite Hs1].
    set (u1 := incLoginAttempts env now c1).
    assert (∀ k, k = "_id" ∨ k = "loginHistory" → applyUpdate u1 s1 !! k = s1 !! k)
      as Hk.
    { intros k Hk. unfold u1, incLoginAttempts.
      repeat case_match; apply applyUpdate_other; cbn [op_unset op_set op_inc];
        destruct Hk as [-> | ->]; cbn; path_not_in. }
    exists (applyUpdate u1 s1). split_and!; [| | done].
    + apply found_at; [| done]. rewrite <- Hs1. apply docId_agree, Hk. by left.
    + intros _. rewrite bool_decide_false by done.
      rewrite (loginHistory_agree _ s1) by (apply Hk; by right). by rewrite Hh1.
  - destruct (isPasswordInHistory pwIn u) as [e | b];
      [exists s; cbn; split_and!; [done | done | by left] |].
    cbn [cur]. rewrite Hdb. rewrite updateOne_existing by done.
    set (s0 := applyUpdate resetLoginAttempts s).
    assert (∀ k, k = "_id" ∨ k = "loginHistory" → s0 !! k = s !! k) as Hk.
    { intros k Hk. unfold s0.
      apply applyUpdate_other; cbn [resetLoginAttempts op_unset op_set op_inc];
        destruct Hk as [-> | ->]; cbn; path_not_in. }
    assert (docId s0 = docId s) as Hs0 by (apply docId_agree, Hk; by left).
    assert (Forall (λ d, hasId (docId s0) d = false) pre) as Hids0
      by by rewrite Hs0.
    destruct (recordLogin _ _ _ _ _ _ _) as [e | r] eqn:Hr.
    { exists s0. cbn [fst snd users withUsers Http.status Http.reply].
      split_and!; [apply found_at; [done | done] | done |].
      intros _. left. apply loginHistory_agree, Hk. by right. }
    apply recordLogin_history in Hr as (c1 & s1 & -> & Hc1 & Hs1 & Hh1 & Hl1);
      [| congruence | done].
    destruct (updateLastActive _ _ _) as [e | r] eqn:Hr2.
    { exists s1. cbn [fst snd users withUsers Http.status Http.reply].
      split_and!; [apply found_at; [congruence | done] | done |].
      intros _. right. by rewrite Hh1. }
    apply updateLastActive_history in Hr2 as (c2 & s2 & -> & Hc2 & Hs2 & _ & Hh2);
      [| congruence | by rewrite Hs1].
    destruct (issuePair _ _ _ _ _ _ _) as [x w3] eqn:Hp.
    apply issuePair_history in Hp as (s3 & Hw3 & Hs3 & Hh3);
      [| congruence | by rewrite Hs2, Hs1].
    exists s3.
    destruct x as [e | [[a r] m3]];
      cbn [fst snd Http.status Http.reply]; rewrite Hw3;
      (split_and!; [apply found_at; [congruence | done] | |]); try done;
      intros _; rewrite ?bool_decide_true by done;
      first [by rewrite Hh3, Hh2, Hh1 | right; by rewrite Hh3, Hh2, Hh1].
Qed.

(** The third wrong guess on Alice's address, made on the world her login
    left, is recorded as a failure. *)
Lemma every_login_attempt_is_recorded_witness :
  ∃ s',
    byId (docId (default ∅ (aliceByEmail loggedIn.2)))
      (users (loginUser noEnv (t0 + 86400000 + 180000)
                "f00dfeed-0000-4000-8000-0000000000a1"
                "f00dfeed-0000-4000-8000-0000000000a2" laptop
                "alice@example.com" "alice" loggedIn.2).2) = Some s'
    ∧ last (loginHistory s') = Some (loginRecord (t0 + 86400000 + 180000) laptop false).
Proof.
  destruct (every_login_attempt_is_recorded noEnv (t0 + 86400000 + 180000)
              "f00dfeed-0000-4000-8000-0000000000a1"
              "f00dfeed-0000-4000-8000-0000000000a2" laptop
              "alice@example.com" "alice" loggedIn.2
              (default ∅ (aliceByEmail loggedIn.2)) alice_unique alice_found)
    as (s' & Hs' & Hlast & _).
  exists s'. split; [exact Hs' |].
  rewrite Hlast by (vm_compute; discriminate).
  by rewrite bool_decide_false by (vm_compute; discriminate).
Defined.

End AuditTrail.
